(** * Deadline tracker backend: collaboration engine and notification scheduler

Shallow embedding of the parts of the deadline-tracker backend that decide
access, attach collaborators (directly or through per-user copies) and run
the periodic notification passes.

- [src/models/DeadlineCollaborator.js]: [addCollaborator],
[syncCollaboratorsToDeadline], [canAccessDeadline], [getCollaboratorRole],
[getNotificationRecipients], [createCollaboratorCopies],
      [addCollaboratorsWithCopies], [updateOriginalDeadlineCollaboratorsList];
    - [src/models/Deadline.js]: [createCopy], [updateOverdueDeadlines] and
      [Friend.getFriendshipStatus];
    - [src/unnamed/part_002]: the controller [addCollaboratorsToDeadline];
    - [src/unnamed/part_006]: the [NotificationService] passes.

    The PostgreSQL tables are lists of rows; a SQL statement is a function on
    them.  Timestamps are milliseconds as [Z] (JavaScript [Date] values).  A
    JavaScript function that may throw returns a [js_result]. *)

From Stdlib Require Import List String Ascii ZArith Bool Lia Permutation.
Import ListNotations.
Open Scope string_scope.
Open Scope list_scope.
Open Scope Z_scope.

(** A call that either returns a value or throws an [Error] with a message. *)
Inductive js_result (A : Type) : Type :=
| Returned (a : A)
| Thrown (msg : string).
Arguments Returned {A} a.
Arguments Thrown {A} msg.

(** ** Database statements with exceptions

An [async] method of the models runs against the database [D] and may
throw; the statements it ran before throwing stay committed (there is no
transaction), so the state is returned in both cases. *)
Section StateExc.
Context {D : Type}.

Definition st (A : Type) : Type := D -> D * js_result A.

Definition ret {A} (a : A) : st A := fun s => (s, Returned a).

Definition throw {A} (msg : string) : st A := fun s => (s, Thrown msg).

Definition bind {A B} (m : st A) (k : A -> st B) : st B :=
fun s => match m s with
       | (s1, Returned a) => k a s1
       | (s1, Thrown e) => (s1, Thrown e)
       end.

(** [try { m } catch (error) { h(error.message) }]. *)
Definition catch {A} (m : st A) (h : string -> st A) : st A :=
fun s => match m s with
       | (s1, Thrown e) => h e s1
       | r => r
       end.

Definition get : st D := fun s => (s, Returned s).
Definition put (s' : D) : st unit := fun _ => (s', Returned tt).
End StateExc.

Notation "x <- m ;; k" := (bind m (fun x => k))
(at level 61, m at next level, right associativity).
Notation "m ;;; k" := (bind m (fun _ => k))
(at level 61, right associativity).

(** ** Strings: [includes], the copy-marker regular expression and [trim] *)
Module Str.

(** JavaScript [\s] and the characters removed by [String.prototype.trim],
restricted to ASCII: tab, line feed, vertical tab, form feed, carriage
return and space. *)
Definition is_js_space (c : ascii) : bool :=
match nat_of_ascii c with
| 9%nat | 10%nat | 11%nat | 12%nat | 13%nat | 32%nat => true
| _ => false
end.

(** [s.includes(p)]. *)
Fixpoint includes (p s : string) : bool :=
prefix p s || match s with
          | EmptyString => false
          | String _ r => includes p r
          end.

Fixpoint skip_spaces (s : string) : string :=
match s with
| String c r => if is_js_space c then skip_spaces r else s
| EmptyString => EmptyString
end.

Fixpoint drop (n : nat) (s : string) : string :=
match n, s with
| O, _ => s
| S n', String _ r => drop n' r
| S _, EmptyString => EmptyString
end.

(** [s.replace(/\s*\(My Copy\)|\s*\(Copy\)/g, '')]: scanning left to
    right, a match starts at the current position when the maximal run of
    white space there is followed by ["(My Copy)"] (first alternative) or
    ["(Copy)"] (second one); the match is removed and the scan resumes after
    it, otherwise the character is kept.  [fuel] bounds the number of steps;
    every step consumes a character, so [String.length s] is enough. *)
Fixpoint strip_markers_fuel (fuel : nat) (s : string) : string :=
  match fuel with
  | O => s
  | S fuel' =>
      match s with
      | EmptyString => EmptyString
      | String c r =>
          let t := skip_spaces s in
          if prefix "(My Copy)" t then strip_markers_fuel fuel' (drop 9 t)
          else if prefix "(Copy)" t then strip_markers_fuel fuel' (drop 6 t)
          else String c (strip_markers_fuel fuel' r)
      end
  end.

Definition strip_markers (s : string) : string :=
  strip_markers_fuel (String.length s) s.

Fixpoint rev_str (s : string) : string :=
  match s with
  | EmptyString => EmptyString
  | String c r => (rev_str r ++ String c EmptyString)%string
  end.

(** [s.trim()]. *)
Definition trim (s : string) : string :=
  rev_str (skip_spaces (rev_str (skip_spaces s))).

(** [title.includes('(Copy)') || title.includes('(My Copy)')]. *)
Definition has_copy_marker (t : string) : bool :=
  includes "(Copy)" t || includes "(My Copy)" t.

(** [title.replace(/\s*\(My Copy\)|\s*\(Copy\)/g, '').trim()]. *)
Definition base_title (t : string) : string := trim (strip_markers t).

(** PostgreSQL [TRIM(x)] removes spaces only. *)
Definition pg_trim (s : string) : string :=
  let fix skip (s : string) :=
    match s with
    | String c r => if Ascii.eqb c " "%char then skip r else s
    | EmptyString => EmptyString
    end in
  rev_str (skip (rev_str (skip s))).

End Str.

(** ** Data model *)

(** An element of the [deadlines.collaborators] JSONB snapshot.  Entries
    written by [syncCollaboratorsToDeadline] carry no [has_copy] field, which
    reads as [false]. *)
Record snapshot_entry := {
  se_user_id : Z;
  se_role : string;
  se_can_edit : bool;
  se_can_delete : bool;
  se_has_copy : bool
}.

(** A row of [deadlines] (the columns the modelled code reads or writes).
    [notifications_sent] maps a notification kind to the time it was marked. *)
Record deadline := {
  d_id : Z;
  student_id : Z;
  title : string;
  due_date : Z;
  status : string;
  created_at : Z;
  collaborators : list snapshot_entry;
  notifications_sent : list (string * Z)
}.

(** A row of [deadline_collaborators]. *)
Record dc_row := {
  dc_id : Z;
  dc_deadline_id : Z;
  dc_user_id : Z;
  dc_role : string;
  dc_can_edit : bool;
  dc_can_delete : bool
}.

(** A row of [friends]. *)
Record friend_row := {
  f_user_id : Z;
  f_friend_id : Z;
  f_status : string
}.

(** The database: the tables, the existing user ids and the next values of
    the [SERIAL] sequences of [deadlines] and [deadline_collaborators]. *)
Record db := {
  deadlines : list deadline;
  dcs : list dc_row;
  friends : list friend_row;
  users : list Z;
  next_deadline_id : Z;
  next_dc_id : Z
}.

Definition set_deadlines (s : db) (ds : list deadline) : db :=
  {| deadlines := ds; dcs := dcs s; friends := friends s; users := users s;
     next_deadline_id := next_deadline_id s; next_dc_id := next_dc_id s |}.

Definition set_dcs (s : db) (rs : list dc_row) : db :=
  {| deadlines := deadlines s; dcs := rs; friends := friends s; users := users s;
     next_deadline_id := next_deadline_id s; next_dc_id := next_dc_id s |}.

Definition user_exists (s : db) (u : Z) : bool := existsb (Z.eqb u) (users s).

(** [SELECT ... FROM deadlines WHERE id = $1] (first row). *)
Definition find_deadline (s : db) (id : Z) : option deadline :=
  find (fun d => d_id d =? id) (deadlines s).

Definition deadline_exists (s : db) (id : Z) : bool :=
  match find_deadline s id with Some _ => true | None => false end.

(** [UPDATE deadlines SET ... WHERE id = $1]: [f] applied to every row with
    that id. *)
Definition update_deadline (s : db) (id : Z) (f : deadline -> deadline) : db :=
  set_deadlines s (map (fun d => if d_id d =? id then f d else d) (deadlines s)).

Definition with_collaborators (cs : list snapshot_entry) (d : deadline) : deadline :=
  {| d_id := d_id d; student_id := student_id d; title := title d;
     due_date := due_date d; status := status d; created_at := created_at d;
     collaborators := cs; notifications_sent := notifications_sent d |}.

Definition with_status (st : string) (d : deadline) : deadline :=
  {| d_id := d_id d; student_id := student_id d; title := title d;
     due_date := due_date d; status := st; created_at := created_at d;
     collaborators := collaborators d; notifications_sent := notifications_sent d |}.

Definition with_notifications_sent (m : list (string * Z)) (d : deadline) : deadline :=
  {| d_id := d_id d; student_id := student_id d; title := title d;
     due_date := due_date d; status := status d; created_at := created_at d;
     collaborators := collaborators d; notifications_sent := m |}.

Definition is_key (did uid : Z) (r : dc_row) : bool :=
  (dc_deadline_id r =? did) && (dc_user_id r =? uid).

(** [getCollaboratorRole]: the row of [deadline_collaborators] for
    [(deadline_id, user_id)]. *)
Definition getCollaboratorRole (s : db) (did uid : Z) : option dc_row :=
  find (is_key did uid) (dcs s).

(** The snapshot entry built from a [deadline_collaborators] row. *)
Definition entry_of_row (r : dc_row) : snapshot_entry :=
  {| se_user_id := dc_user_id r; se_role := dc_role r;
     se_can_edit := dc_can_edit r; se_can_delete := dc_can_delete r;
     se_has_copy := false |}.

(** [syncCollaboratorsToDeadline]: the snapshot of the deadline becomes the
    rows of [deadline_collaborators] for it joined with [users].  The
    [ORDER BY role DESC, username] of the query is not modelled (user names
    are not part of this model); rows are kept in table order. *)
Definition syncCollaboratorsToDeadline (s : db) (did : Z) : db :=
  let rows := filter (fun r => (dc_deadline_id r =? did) && user_exists s (dc_user_id r))
                     (dcs s) in
  update_deadline s did (with_collaborators (map entry_of_row rows)).

(** Statements over the modelled database. *)
Abbreviation dbst := (@st db).

Definition set_perms (role : string) (ce cd : bool) (r : dc_row) : dc_row :=
{| dc_id := dc_id r; dc_deadline_id := dc_deadline_id r; dc_user_id := dc_user_id r;
 dc_role := role; dc_can_edit := ce; dc_can_delete := cd |}.

(** [addCollaborator]: [INSERT ... ON CONFLICT (deadline_id, user_id) DO
UPDATE SET role, can_edit, can_delete], then the snapshot sync.  The
foreign keys to [deadlines] and [users] make the insert throw when either
is missing. *)
Definition addCollaborator (did uid : Z) (role : string) (ce cd : bool) : @st db dc_row :=
fun s =>
if negb (deadline_exists s did && user_exists s uid) then
(s, Thrown "insert or update on table deadline_collaborators violates foreign key constraint")
else
match getCollaboratorRole s did uid with
| Some old =>
    let s1 := set_dcs s (map (fun r => if is_key did uid r then set_perms role ce cd r else r)
                             (dcs s)) in
    (syncCollaboratorsToDeadline s1 did, Returned (set_perms role ce cd old))
| None =>
    let row := {| dc_id := next_dc_id s; dc_deadline_id := did; dc_user_id := uid;
                  dc_role := role; dc_can_edit := ce; dc_can_delete := cd |} in
    let s1 := {| deadlines := deadlines s; dcs := dcs s ++ [row]; friends := friends s;
                 users := users s; next_deadline_id := next_deadline_id s;
                 next_dc_id := next_dc_id s + 1 |} in
    (syncCollaboratorsToDeadline s1 did, Returned row)
end.

(** ** Access resolution *)

(** A row of the [UNION] queried by [canAccessDeadline]: [dc.*] plus
[d.student_id]; the owner branch has a null [id] and [deadline_id]. *)
Record access := {
acc_id : option Z;
acc_deadline_id : option Z;
acc_user_id : Z;
acc_role : string;
acc_can_edit : bool;
acc_can_delete : bool;
acc_student_id : Z
}.

Definition access_of_row (r : dc_row) (sid : Z) : access :=
{| acc_id := Some (dc_id r); acc_deadline_id := Some (dc_deadline_id r);
 acc_user_id := dc_user_id r; acc_role := dc_role r;
 acc_can_edit := dc_can_edit r; acc_can_delete := dc_can_delete r;
 acc_student_id := sid |}.

Definition owner_access (d : deadline) : access :=
{| acc_id := None; acc_deadline_id := None; acc_user_id := student_id d;
 acc_role := "owner"; acc_can_edit := true; acc_can_delete := true;
 acc_student_id := student_id d |}.

(** The rows of the two branches of the [UNION], before SQL orders them.
The rows are pairwise distinct ([id] is the primary key, the owner row has
a null [id]), so the duplicate elimination of [UNION] keeps them all. *)
Definition access_rows (s : db) (did uid : Z) : list access :=
flat_map (fun r => if is_key did uid r then
                   match find_deadline s (dc_deadline_id r) with
                   | Some d => [access_of_row r (student_id d)]
                   | None => []
                   end
                 else []) (dcs s)
++ match find_deadline s did with
 | Some d => if student_id d =? uid then [owner_access d] else []
 | None => []
 end.

Definition is_copy_tagged (c : snapshot_entry) : bool :=
String.eqb (se_role c) "copy_collaborator" || se_has_copy c.

(** [canAccessDeadline].  The query has no [ORDER BY]: [union_order] is the
order PostgreSQL returns the rows of the [UNION] in, and [result.rows[0]]
is the head of that list.  The result [None] stands for both [undefined]
and [null]. *)
Definition canAccessDeadline (union_order : list access -> list access)
(s : db) (did uid : Z) : js_result (option access) :=
let acc := hd_error (union_order (access_rows s did uid)) in
match acc with
| Some _ => Returned acc
| None =>
  match find_deadline s did with
  | Some d =>
      if existsb (fun c => (se_user_id c =? uid) && is_copy_tagged c) (collaborators d)
      then Returned None
      else Returned acc
  | None => Returned acc
  end
end.

(** ** Friendship *)

(** [Friend.getFriendshipStatus]: the first row linking the two users in
either direction ([LIMIT 1] without [ORDER BY]; table order is used). *)
Definition getFriendshipStatus (s : db) (a b : Z) : option friend_row :=
find (fun f => ((f_user_id f =? a) && (f_friend_id f =? b))
             || ((f_user_id f =? b) && (f_friend_id f =? a))) (friends s).

(** [friendship && friendship.status === 'accepted']. *)
Definition friendship_accepted (f : option friend_row) : bool :=
match f with
| Some r => String.eqb (f_status r) "accepted"
| None => false
end.

(** ** Copies of a deadline *)

(** The title [Deadline.createCopy] gives a copy when [copyData.title] is not
set: [copyData.titleSuffix || ' (Copy)'] appended to the title, with the
copy markers stripped first when the title carries one. *)
Definition copy_title (original_title titleSuffix : string) : string :=
let suffix := if String.eqb titleSuffix "" then " (Copy)"%string else titleSuffix in
if Str.has_copy_marker original_title
then (Str.base_title original_title ++ suffix)%string
else (original_title ++ suffix)%string.

(** [Deadline.createCopy(originalDeadlineId, newOwnerId, {titleSuffix, status})]:
a new row (next [SERIAL] id) owned by [newOwnerId] with the original's
core fields; [collaborators] and [notifications_sent] take their column
defaults ['[]'] and ['{}'], [created_at] is [now]. *)
Definition createCopy (orig new_owner : Z) (titleSuffix stat : string) (now : Z)
: dbst deadline :=
fun s =>
match find_deadline s orig with
| None => (s, Thrown "Original deadline not found")
| Some o =>
  if negb (user_exists s new_owner) then
    (s, Thrown "insert or update on table deadlines violates foreign key constraint")
  else
    let c := {| d_id := next_deadline_id s; student_id := new_owner;
                title := copy_title (title o) titleSuffix;
                due_date := due_date o;
                status := if String.eqb stat "" then "pending"%string else stat;
                created_at := now; collaborators := []; notifications_sent := [] |} in
    ({| deadlines := deadlines s ++ [c]; dcs := dcs s; friends := friends s;
        users := users s; next_deadline_id := next_deadline_id s + 1;
        next_dc_id := next_dc_id s |}, Returned c)
end.

(** [ORDER BY created_at ASC LIMIT 1]: the earliest row, the first one in
table order among equal [created_at]. *)
Fixpoint earliest (ds : list deadline) : option deadline :=
match ds with
| [] => None
| d :: r =>
  match earliest r with
  | Some e => if created_at e <? created_at d then Some e else Some d
  | None => Some d
  end
end.

(** The three queries of [createCollaboratorCopies] looking for the original
of a deadline whose title carries a copy marker, as their [WHERE] clauses
read. *)
Definition root_strategy1 (s : db) (base : string) (cur : deadline) : option deadline :=
earliest (filter (fun d => String.eqb (title d) base && negb (student_id d =? student_id cur)
                         && (created_at d <? created_at cur)) (deadlines s)).

Definition root_strategy2 (s : db) (base : string) (cur : deadline) : option deadline :=
earliest (filter (fun d => String.eqb (title d) base && negb (student_id d =? student_id cur))
               (deadlines s)).

Definition root_strategy3 (s : db) (base : string) (cur : deadline) : option deadline :=
earliest (filter (fun d => String.eqb (Str.pg_trim (Str.strip_markers (title d))) base
                         && negb (student_id d =? student_id cur)
                         && negb (Str.has_copy_marker (title d))) (deadlines s)).

(** [pool.query(text, values)]: PostgreSQL refuses a statement whose
placeholders ([$1] ... [$n]) do not match the number of values bound. *)
Definition bind_values (placeholders values : nat) (rows : option deadline)
: js_result (option deadline) :=
if Nat.eqb placeholders values then Returned rows
else Thrown "bind message supplies 3 parameters, but prepared statement requires 2".

(** Each query is run with [[baseTitle, currentDeadline.student_id,
originalDeadlineId]]: the first one uses [$1], [$2] and [$3], the other two
only [$1] and [$2]. *)
Definition root_queries (s : db) (base : string) (cur : deadline)
: list (js_result (option deadline)) :=
[bind_values 3 3 (root_strategy1 s base cur);
 bind_values 2 3 (root_strategy2 s base cur);
 bind_values 2 3 (root_strategy3 s base cur)].

(** The loop over the queries: [break] at the first row found; a thrown
query leaves the loop, to the [catch]. *)
Fixpoint first_root (qs : list (js_result (option deadline))) : js_result (option deadline) :=
match qs with
| [] => Returned None
| Thrown e :: _ => Thrown e
| Returned (Some r) :: _ => Returned (Some r)
| Returned None :: rest => first_root rest
end.

(** [(rootDeadlineId, rootOwnerId)] as computed by [createCollaboratorCopies]
for the current deadline [cur]; the [catch] around the loop keeps the
current deadline as root. *)
Definition find_root (s : db) (cur : deadline) : Z * Z :=
if Str.has_copy_marker (title cur) then
match first_root (root_queries s (Str.base_title (title cur)) cur) with
| Returned (Some r) => (d_id r, student_id r)
| Returned None | Thrown _ => (d_id cur, student_id cur)
end
else (d_id cur, student_id cur).

(** The entries pushed on [copies] by [createCollaboratorCopies]. *)
Inductive copy_result :=
| CRDirect (uid did : Z)             (** [is_copy: false], no individual copies *)
| CRDenied (uid root : Z)            (** [denied: true]: original owner on a copy *)
| CROwnerAdded (uid did root : Z)    (** original owner added on the root itself *)
| CRCopy (uid copy orig : Z)         (** [is_copy: true] *)
| CRError (uid : Z) (msg : string).  (** [error: error.message] *)

(** [copyOptions] of [createCollaboratorCopies]. *)
Record copy_options := {
createIndividualCopies : bool;
titleSuffix : string
}.

Definition default_copy_options : copy_options :=
{| createIndividualCopies := true; titleSuffix := " (My Copy)" |}.

(** Branch [!createIndividualCopies]: every user added to the deadline. *)
Fixpoint add_direct (did : Z) (uids : list Z) : dbst (list copy_result) :=
match uids with
| [] => ret []
| u :: rest =>
  _ <- addCollaborator did u "collaborator" true false ;;
  l <- add_direct did rest ;;
  ret (CRDirect u did :: l)
end.

(** One iteration of the copy loop, for [userId = u], with its [try]/[catch]. *)
Definition copy_step (did rootId rootOwner : Z) (suffix : string) (now u : Z)
: dbst copy_result :=
catch
(if u =? rootOwner then
   if negb (rootId =? did) then ret (CRDenied u rootId)
   else
     _ <- addCollaborator did u "collaborator" true false ;;
     ret (CROwnerAdded u did rootId)
 else
   c <- createCopy did u suffix "pending" now ;;
   _ <- addCollaborator (d_id c) u "owner" true true ;;
   ret (CRCopy u (d_id c) did))
(fun m => ret (CRError u m)).

Fixpoint copy_loop (did rootId rootOwner : Z) (suffix : string) (now : Z) (uids : list Z)
: dbst (list copy_result) :=
match uids with
| [] => ret []
| u :: rest =>
  r <- copy_step did rootId rootOwner suffix now u ;;
  l <- copy_loop did rootId rootOwner suffix now rest ;;
  ret (r :: l)
end.

(** [DeadlineCollaborator.createCollaboratorCopies], with the root found by
[find_root]. *)
Definition createCollaboratorCopies (did : Z) (uids : list Z) (opts : copy_options) (now : Z)
: dbst (list copy_result) :=
if negb (createIndividualCopies opts) then add_direct did uids
else
s <- get ;;
match find_deadline s did with
| None => throw "Source deadline not found"
| Some cur =>
    let (rootId, rootOwner) := find_root s cur in
    copy_loop did rootId rootOwner (titleSuffix opts) now uids
end.

(** The tracking-only entry [updateOriginalDeadlineCollaboratorsList] adds. *)
Definition copy_entry (u : Z) : snapshot_entry :=
{| se_user_id := u; se_role := "copy_collaborator"; se_can_edit := false;
 se_can_delete := false; se_has_copy := true |}.

Definition add_copy_entries (cur : list snapshot_entry) (us : list Z) : list snapshot_entry :=
fold_left (fun acc u => if existsb (fun c => se_user_id c =? u) acc then acc
                      else acc ++ [copy_entry u]) us cur.

(** [updateOriginalDeadlineCollaboratorsList]: the users of [users] whose id
is in the list ([WHERE id = ANY($1)], table order) are appended as copy
entries unless already listed. *)
Definition updateOriginalDeadlineCollaboratorsList (did : Z) (uids : list Z)
: dbst (list snapshot_entry) :=
fun s =>
match find_deadline s did with
| None => (s, Thrown "Deadline not found")
| Some d =>
  let found := filter (fun u => existsb (Z.eqb u) uids) (users s) in
  let cs := add_copy_entries (collaborators d) found in
  (update_deadline s did (with_collaborators cs), Returned cs)
end.

(** What [addCollaboratorsWithCopies] returns: the copy entries, or the
collaborator rows of the plain branch. *)
Inductive add_result :=
| AWCopies (l : list copy_result)
| AWRows (l : list dc_row).

Fixpoint add_plain (did : Z) (uids : list Z) : dbst (list dc_row) :=
match uids with
| [] => ret []
| u :: rest =>
  r <- addCollaborator did u "collaborator" true false ;;
  l <- add_plain did rest ;;
  ret (r :: l)
end.

(** [DeadlineCollaborator.addCollaboratorsWithCopies].  The best-effort
["deadline_shared"] in-app notifications sent after the copies are made
write only the notifications table and swallow their errors; they are not
modelled. *)
Definition addCollaboratorsWithCopies (did : Z) (uids : list Z) (createCopies : bool)
(opts : copy_options) (now : Z) : dbst add_result :=
if createCopies then
copies <- createCollaboratorCopies did uids opts now ;;
_ <- updateOriginalDeadlineCollaboratorsList did uids ;;
ret (AWCopies copies)
else
rows <- add_plain did uids ;;
ret (AWRows rows).

(** ** The controller [addCollaboratorsToDeadline] *)

(** [{ user_id, reason }] entries of [skipped_collaborators] (the extra
[existing_role] and [type] fields are left out). *)
Record skip_entry := {
sk_user : Z;
sk_reason : string
}.

(** The messages of the [400] answers. *)
Inductive bad_request :=
| BREmptyList              (** ['Collaborators array is required and cannot be empty'] *)
| BRUserNotFound (c : Z)   (** [`User not found: ${collaboratorId}`] *)
| BRNotFriends (c : Z)     (** [`User ${collaboratorId} is not in your friends list`] *)
| BRNoValid                (** ['No valid collaborators to add'] *)
| BRNoneAdded.             (** ['No collaborators were successfully added'] *)

(** An element of [collaborators_added]. *)
Inductive added_item :=
| AICopy (r : copy_result)
| AIRow (r : dc_row).

Inductive response :=
| NotFound404
| Forbidden403
| BadRequest400 (why : bad_request) (skipped : list skip_entry)
| ServerError500
| Ok200 (added : list added_item) (denied : list copy_result) (skipped : list skip_entry).

Definition reason_self : string := "Cannot add yourself as collaborator".
Definition reason_owner : string :=
"Cannot add deadline owner as collaborator - they already own this deadline".
Definition reason_already : string := "User is already a collaborator".
Definition reason_denied : string := "Cannot add original owner to a copy of their own deadline".

(** The permission check: original owner, or a collaborator row with role
['owner'] or [can_edit]. *)
Definition has_edit_permission (s : db) (d : deadline) (req : Z) : bool :=
(student_id d =? req)
|| match getCollaboratorRole s (d_id d) req with
 | Some r => String.eqb (dc_role r) "owner" || dc_can_edit r
 | None => false
 end.

(** The validation loop [for (const collaboratorId of collaborators)]: each
candidate is skipped, accepted, or ends the request with a [400]. *)
Fixpoint validate (s : db) (d : deadline) (req : Z) (cands : list Z)
: bad_request + (list Z * list skip_entry) :=
match cands with
| [] => inr ([], [])
| c :: rest =>
  let skip reason :=
    match validate s d req rest with
    | inl e => inl e
    | inr (v, sk) => inr (v, {| sk_user := c; sk_reason := reason |} :: sk)
    end in
  if c =? req then skip reason_self
  else if c =? student_id d then skip reason_owner
  else match getCollaboratorRole s (d_id d) c with
       | Some _ => skip reason_already
       | None =>
           if negb (user_exists s c) then inl (BRUserNotFound c)
           else if negb (friendship_accepted (getFriendshipStatus s req c))
           then inl (BRNotFriends c)
           else match validate s d req rest with
                | inl e => inl e
                | inr (v, sk) => inr (c :: v, sk)
                end
       end
end.

Definition is_denied (r : copy_result) : bool :=
match r with CRDenied _ _ => true | _ => false end.

Definition is_error (r : copy_result) : bool :=
match r with CRError _ _ => true | _ => false end.

(** [result.filter(r => r.denied === true)]. *)
Definition denied_of (res : add_result) : list copy_result :=
match res with
| AWCopies l => filter is_denied l
| AWRows _ => []
end.

(** [result.filter(r => !r.denied && !r.error)]. *)
Definition successful_of (res : add_result) : list added_item :=
match res with
| AWCopies l => map AICopy (filter (fun r => negb (is_denied r) && negb (is_error r)) l)
| AWRows l => map AIRow l
end.

Definition denied_skip (r : copy_result) : skip_entry :=
match r with
| CRDenied u _ => {| sk_user := u; sk_reason := reason_denied |}
| CRDirect u _ | CROwnerAdded u _ _ | CRCopy u _ _ | CRError u _ =>
  {| sk_user := u; sk_reason := reason_denied |}
end.

(** [addCollaboratorsToDeadline(req, res)] for deadline [did], requester
[req] and body [{ collaborators: cands, create_copies, copy_options }]
([opts] holds [title_suffix || ' (My Copy)'] and
[create_individual_copies !== false]).  The deadline id and the
candidates are numbers.  Its [catch] answers [500] to an exception. *)
Definition addCollaboratorsToDeadline (did req : Z) (cands : list Z) (create_copies : bool)
(opts : copy_options) (now : Z) (s : db) : db * response :=
match cands with
| [] => (s, BadRequest400 BREmptyList [])
| _ :: _ =>
  match find_deadline s did with
  | None => (s, NotFound404)
  | Some d =>
      if negb (has_edit_permission s d req) then (s, Forbidden403)
      else
        match validate s d req cands with
        | inl e => (s, BadRequest400 e [])
        | inr ([], skipped) => (s, BadRequest400 BRNoValid skipped)
        | inr (valid, skipped) =>
            match addCollaboratorsWithCopies did valid create_copies opts now s with
            | (s1, Thrown _) => (s1, ServerError500)
            | (s1, Returned res) =>
                let denied := denied_of res in
                let all_skipped := skipped ++ map denied_skip denied in
                match successful_of res with
                | [] => (s1, BadRequest400 BRNoneAdded all_skipped)
                | added => (s1, Ok200 added denied all_skipped)
                end
            end
        end
  end
end.

(** ** Notification scheduler ([NotificationService]) *)

Definition hour_ms : Z := 3600000.

(** [notifications_sent ? k]: the JSONB object has the key [k]. *)
Definition has_key (m : list (string * Z)) (k : string) : bool :=
existsb (fun p => String.eqb (fst p) k) m.

(** [notifications_sent[k]]. *)
Definition lookup_key (m : list (string * Z)) (k : string) : option Z :=
option_map snd (find (fun p => String.eqb (fst p) k) m).

(** The [UPDATE] of [markNotificationSent]:
[SET notifications_sent = COALESCE(notifications_sent, '{}'::jsonb) || jsonb_build_object($1, $2)].
The arguments of [jsonb_build_object] have the pseudo-type ["any"], so
the two untyped parameters bound by [pool.query] get no type and
PostgreSQL refuses the statement ("could not determine data type of
parameter $1") before touching a row. *)
Definition mark_query (did : Z) (kind : string) (now : Z) : dbst unit :=
throw "could not determine data type of parameter $1".

(** [markNotificationSent(deadlineId, type)]: the query inside a [try]
whose [catch] only logs. *)
Definition markNotificationSent (did : Z) (kind : string) (now : Z) (s : db) : db :=
fst (catch (mark_query did kind now) (fun _ => ret tt) s).

(** [updateDeadlineStatus(deadlineId, status)]. *)
Definition updateDeadlineStatus (did : Z) (stat : string) (s : db) : db :=
update_deadline s did (with_status stat).

Definition status_in (d : deadline) (l : list string) : bool :=
existsb (String.eqb (status d)) l.

(** The lead times of [checkAndSendNotifications]. *)
Definition lead_times : list (Z * string) :=
[(48, "2_days"%string); (24, "1_day"%string); (12, "12_hours"%string); (1, "1_hour"%string)].

(** [d.due_date BETWEEN $1 AND $2] with
[$1 = now + (hours - 0.5) h] and [$2 = now + (hours + 0.5) h]. *)
Definition in_reminder_window (now hours : Z) (d : deadline) : bool :=
(now + hours * hour_ms - 1800000 <=? due_date d)
&& (due_date d <=? now + hours * hour_ms + 1800000).

(** The query of [sendNotificationForTimeframe]. *)
Definition select_reminder (s : db) (now hours : Z) (kind : string) : list deadline :=
filter (fun d => in_reminder_window now hours d
               && negb (status_in d ["completed"%string; "overdue"%string])
               && negb (has_key (notifications_sent d) kind)) (deadlines s).

Definition rcp_eq_dec : forall x y : Z * string, {x = y} + {x <> y}.
Proof. decide equality; [apply string_dec | apply Z.eq_dec]. Defined.

(** [getNotificationRecipients]: [(user_id, role)] of the collaborator rows
and of the owner; [UNION] removes duplicates.  The [ORDER BY] is not
modelled. *)
Definition getNotificationRecipients (s : db) (did : Z) : list (Z * string) :=
nodup rcp_eq_dec
(map (fun r => (dc_user_id r, dc_role r))
     (filter (fun r => (dc_deadline_id r =? did) && user_exists s (dc_user_id r)) (dcs s))
 ++ match find_deadline s did with
    | Some d => if user_exists s (student_id d) then [(student_id d, "owner"%string)] else []
    | None => []
    end).

Inductive channel := Email | InApp.

(** A delivery attempt: channel, recipient, deadline, notification kind and
whether it succeeded. *)
Record event := {
ev_channel : channel;
ev_user : Z;
ev_deadline : Z;
ev_kind : string;
ev_ok : bool
}.

Section Scheduler.
(** The user directory: [User.isReminderEnabled],
[User.isInAppReminderEnabled], and the overdue checks of
[sendOverdueNotificationToAllCollaborators] with their [catch]
defaults folded in. *)
Variable isReminderEnabled : Z -> string -> bool.
Variable isInAppReminderEnabled : Z -> string -> bool.
Variable hasOverdueEnabled : Z -> bool.
Variable hasInAppOverdueEnabled : Z -> bool.
(** The notifiers: [emailResult.success], and whether creating the in-app
notification returned (rather than threw), for a user, a deadline, a
kind and the time of the attempt. *)
Variable email_ok : Z -> Z -> string -> Z -> bool.
Variable inapp_ok : Z -> Z -> string -> Z -> bool.

(** The body of the recipient loop: the attempts made and whether
[emailSuccess || inAppSuccess]. *)
Definition notify_one (e i : bool) (u did : Z) (kind : string) (now : Z) : list event * bool :=
if negb e && negb i then ([], false)
else
let eo := email_ok u did kind now in
let io := inapp_ok u did kind now in
((if e then [{| ev_channel := Email; ev_user := u; ev_deadline := did;
                ev_kind := kind; ev_ok := eo |}] else [])
 ++ (if i then [{| ev_channel := InApp; ev_user := u; ev_deadline := did;
                   ev_kind := kind; ev_ok := io |}] else []),
 (e && eo) || (i && io)).

(** [sendDeadlineNotificationToAllCollaborators]: [markNotificationSent]
is called when [successCount > 0]. *)
Definition sendDeadlineNotificationToAllCollaborators (d : deadline) (kind : string) (now : Z)
(s : db) : db * list event :=
let rs := map (fun p => notify_one (isReminderEnabled (fst p) kind)
                                 (isInAppReminderEnabled (fst p) kind)
                                 (fst p) (d_id d) kind now)
            (getNotificationRecipients s (d_id d)) in
let evs := List.concat (map fst rs) in
if existsb snd rs then (markNotificationSent (d_id d) kind now s, evs) else (s, evs).

(** [sendNotificationForTimeframe(hours, notificationType)]. *)
Definition sendNotificationForTimeframe (now hours : Z) (kind : string) (s : db)
: db * list event :=
fold_left (fun (acc : db * list event) (d : deadline) =>
           let (s1, evs) := acc in
           let (s2, evs2) := sendDeadlineNotificationToAllCollaborators d kind now s1 in
           (s2, evs ++ evs2))
        (select_reminder s now hours kind) (s, []).

(** [checkAndSendNotifications]: the hourly reminder pass. *)
Definition checkAndSendNotifications (now : Z) (s : db) : db * list event :=
fold_left (fun (acc : db * list event) (lt : Z * string) =>
           let (s1, evs) := acc in
           let (s2, evs2) := sendNotificationForTimeframe now (fst lt) (snd lt) s1 in
           (s2, evs ++ evs2))
        lead_times (s, []).

(** [shouldSendOverdueNotification(deadlineId)], given the outcome of its
[SELECT notifications_sent, due_date, status FROM deadlines WHERE id = $1]
(a thrown error, no row, or the row).  The stored value is an ISO
timestamp (always truthy); [hoursSince >= 24] and [hoursOverdue <= 168]
are compared in milliseconds, which is exact for integral
millisecond differences. *)
Definition shouldSendOverdueNotification (q : js_result (option deadline)) (now : Z) : bool :=
match q with
| Thrown _ => false
| Returned None => false
| Returned (Some d) =>
  match lookup_key (notifications_sent d) "overdue" with
  | None => true
  | Some last => (24 * hour_ms <=? now - last) && (now - due_date d <=? 168 * hour_ms)
  end
end.

(** [sendOverdueNotificationToAllCollaborators]. *)
Definition sendOverdueNotificationToAllCollaborators (d : deadline) (now : Z) (s : db)
: db * list event :=
let rs := map (fun p => notify_one (hasOverdueEnabled (fst p)) (hasInAppOverdueEnabled (fst p))
                                 (fst p) (d_id d) "overdue" now)
            (getNotificationRecipients s (d_id d)) in
let evs := List.concat (map fst rs) in
if existsb snd rs then (markNotificationSent (d_id d) "overdue" now s, evs) else (s, evs).

(** The two queries of [checkOverdueDeadlines]. *)
Definition recently_overdue (s : db) (now : Z) : list deadline :=
filter (fun d => (due_date d <? now) && (now - 4 * hour_ms <=? due_date d)
               && negb (status_in d ["completed"%string; "deleted"%string])) (deadlines s).

Definition all_overdue (s : db) (now : Z) : list deadline :=
filter (fun d => (due_date d <? now) && negb (status_in d ["completed"%string; "deleted"%string; "overdue"%string]))
     (deadlines s).

(** The status maintenance loop of [checkOverdueDeadlines]. *)
Definition status_scan (now : Z) (s : db) : db :=
fold_left (fun s1 d => updateDeadlineStatus (d_id d) "overdue" s1) (all_overdue s now) s.

(** [checkOverdueDeadlines]: the overdue pass (every 4 minutes). *)
Definition checkOverdueDeadlines (now : Z) (s : db) : db * list event :=
let recent := recently_overdue s now in
let s1 := status_scan now s in
fold_left (fun (acc : db * list event) (d : deadline) =>
           let (s2, evs) := acc in
           if shouldSendOverdueNotification (Returned (find_deadline s2 (d_id d))) now
           then let (s3, evs3) := sendOverdueNotificationToAllCollaborators d now s2 in
                (s3, evs ++ evs3)
           else (s2, evs))
        recent (s1, []).
End Scheduler.

(** [Deadline.updateOverdueDeadlines], run by the daily task (whose daily
summary only reads the tables and sends messages). *)
Definition updateOverdueDeadlines (now : Z) (s : db) : db :=
set_deadlines s (map (fun d => if (due_date d <? now) && negb (status_in d ["completed"%string; "overdue"%string])
                             then with_status "overdue" d else d) (deadlines s)).

(** ** Further operations of [DeadlineCollaborator] *)

(** [removeCollaborator]: [DELETE ... WHERE deadline_id = $1 AND user_id = $2
    RETURNING *], then the snapshot sync; [result.rows[0]] is the deleted
    row, [undefined] when there was none. *)
Definition removeCollaborator (did uid : Z) : dbst (option dc_row) :=
  fun s =>
    let old := getCollaboratorRole s did uid in
    let s1 := set_dcs s (filter (fun r => negb (is_key did uid r)) (dcs s)) in
    (syncCollaboratorsToDeadline s1 did, Returned old).

(** The [updates] argument of [updateCollaborator]: [None] is [undefined]. *)
Record collab_updates := {
  up_role : option string;
  up_can_edit : option bool;
  up_can_delete : option bool
}.

(** [CHECK (role IN ('owner', 'collaborator'))]. *)
Definition role_ok (r : string) : bool :=
  String.eqb r "owner" || String.eqb r "collaborator".

Definition apply_updates (u : collab_updates) (r : dc_row) : dc_row :=
  {| dc_id := dc_id r; dc_deadline_id := dc_deadline_id r; dc_user_id := dc_user_id r;
     dc_role := match up_role u with Some x => x | None => dc_role r end;
     dc_can_edit := match up_can_edit u with Some x => x | None => dc_can_edit r end;
     dc_can_delete := match up_can_delete u with Some x => x | None => dc_can_delete r end |}.

(** [updateCollaborator]: the [SET] list is built from the fields that are
    not [undefined]; with none it throws before any query.  The [UPDATE]
    fails on the role [CHECK] when it rewrites a row with a bad role.  No
    snapshot sync follows. *)
Definition updateCollaborator (did uid : Z) (u : collab_updates) : dbst (option dc_row) :=
  fun s =>
    match up_role u, up_can_edit u, up_can_delete u with
    | None, None, None => (s, Thrown "No updates provided")
    | _, _, _ =>
        if match up_role u with Some x => negb (role_ok x) | None => false end
           && existsb (is_key did uid) (dcs s)
        then (s, Thrown "new row for relation deadline_collaborators violates check constraint")
        else (set_dcs s (map (fun r => if is_key did uid r then apply_updates u r else r) (dcs s)),
              Returned (option_map (apply_updates u) (getCollaboratorRole s did uid)))
    end.

(** [canEditDeadline]: [access && (access.role === 'owner' || access.can_edit === true)],
    read by its callers as a truth value. *)
Definition canEditDeadline (union_order : list access -> list access) (s : db) (did uid : Z)
  : js_result bool :=
  match canAccessDeadline union_order s did uid with
  | Thrown e => Thrown e
  | Returned None => Returned false
  | Returned (Some a) => Returned (String.eqb (acc_role a) "owner" || acc_can_edit a)
  end.

(** [canDeleteDeadline]: the same with [can_delete]. *)
Definition canDeleteDeadline (union_order : list access -> list access) (s : db) (did uid : Z)
  : js_result bool :=
  match canAccessDeadline union_order s did uid with
  | Thrown e => Thrown e
  | Returned None => Returned false
  | Returned (Some a) => Returned (String.eqb (acc_role a) "owner" || acc_can_delete a)
  end.

(** An element of the list [getCollaborators] returns. *)
Inductive collab_item :=
| CIRow (r : dc_row)              (** a row of [deadline_collaborators] joined with [users] *)
| CICopy (c : snapshot_entry).    (** a copy-tracking entry of the snapshot *)

(** [getCollaborators]: the rows with role ['collaborator'] of existing
    users, then the entries of the snapshot with role
    ['copy_collaborator'] or [has_copy].  The [ORDER BY u.username] of the
    first query is not modelled. *)
Definition getCollaborators (s : db) (did : Z) : list collab_item :=
  map CIRow (filter (fun r => (dc_deadline_id r =? did) && String.eqb (dc_role r) "collaborator"
                              && user_exists s (dc_user_id r)) (dcs s))
  ++ match find_deadline s did with
     | Some d => map CICopy (filter is_copy_tagged (collaborators d))
     | None => []
     end.

(** [getDeadlineWithCollaborators]: the access check, then the deadline
    joined with its owner in [users], then the collaborators. *)
Definition getDeadlineWithCollaborators (union_order : list access -> list access) (s : db)
  (did uid : Z) : js_result (deadline * list collab_item * access) :=
  match canAccessDeadline union_order s did uid with
  | Thrown e => Thrown e
  | Returned None => Thrown "Access denied to this deadline"
  | Returned (Some a) =>
      match find_deadline s did with
      | Some d =>
          if user_exists s (student_id d) then Returned (d, getCollaborators s did, a)
          else Thrown "Deadline not found"
      | None => Thrown "Deadline not found"
      end
  end.

Definition with_student_id (u : Z) (d : deadline) : deadline :=
  {| d_id := d_id d; student_id := u; title := title d;
     due_date := due_date d; status := status d; created_at := created_at d;
     collaborators := collaborators d; notifications_sent := notifications_sent d |}.

Definition set_role (role : string) (r : dc_row) : dc_row :=
  {| dc_id := dc_id r; dc_deadline_id := dc_deadline_id r; dc_user_id := dc_user_id r;
     dc_role := role; dc_can_edit := dc_can_edit r; dc_can_delete := dc_can_delete r |}.

(** The [CASE] of the role update of [transferOwnership], on one row. *)
Definition transfer_role (did cur new_owner : Z) (r : dc_row) : dc_row :=
  if dc_deadline_id r =? did then
    if dc_user_id r =? new_owner then set_role "owner" r
    else if dc_user_id r =? cur then set_role "collaborator" r
    else r
  else r.

(** [transferOwnership]: the ownership check, the [UPDATE] of
    [student_id] (whose foreign key to [users] fails for an unknown user),
    then the role update of the deadline's rows.  No snapshot sync. *)
Definition transferOwnership (did cur new_owner : Z) : dbst unit :=
  fun s =>
    match find (fun d => (d_id d =? did) && (student_id d =? cur)) (deadlines s) with
    | None => (s, Thrown "Only the owner can transfer ownership")
    | Some _ =>
        if negb (user_exists s new_owner) then
          (s, Thrown "insert or update on table deadlines violates foreign key constraint")
        else
          let s1 := update_deadline s did (with_student_id new_owner) in
          (set_dcs s1 (map (transfer_role did cur new_owner) (dcs s1)), Returned tt)
    end.

(** ** Further operations of [Deadline] *)
Module Deadline.

(** [CHECK (status IN ('pending', 'in_progress', 'completed', 'overdue'))],
    the same list as the controller's [validateStatus]. *)
Definition status_ok (st : string) : bool :=
  existsb (String.eqb st) ["pending"%string; "in_progress"%string; "completed"%string; "overdue"%string].

(** [Deadline.updateStatus(id, status)]: the updated row, [undefined] when
    there is none; the [CHECK] fails on a bad status.  [updated_at] and
    [completed_at] are not modelled. *)
Definition updateStatus (id : Z) (st : string) : dbst (option deadline) :=
  fun s =>
    match find_deadline s id with
    | None => (s, Returned None)
    | Some _ =>
        if negb (status_ok st)
        then (s, Thrown "new row for relation deadlines violates check constraint")
        else let s' := update_deadline s id (with_status st) in (s', Returned (find_deadline s' id))
    end.

(** [Deadline.delete(id)]: [DELETE ... RETURNING id]; the [ON DELETE
    CASCADE] of [deadline_collaborators.deadline_id] removes the deadline's
    collaborator rows. *)
Definition delete (id : Z) : dbst (option Z) :=
  fun s =>
    ({| deadlines := filter (fun d => negb (d_id d =? id)) (deadlines s);
        dcs := filter (fun r => negb (dc_deadline_id r =? id)) (dcs s);
        friends := friends s; users := users s;
        next_deadline_id := next_deadline_id s; next_dc_id := next_dc_id s |},
     Returned (option_map d_id (find_deadline s id))).

End Deadline.

(** ** Further handlers of the deadline controller *)
Module Controller.

(** The answers of the handlers below. *)
Inductive reply (A : Type) :=
| ROk (a : A)
| RBadRequest
| RForbidden
| RNotFound
| RServerError.
Arguments ROk {A} a.
Arguments RBadRequest {A}.
Arguments RForbidden {A}.
Arguments RNotFound {A}.
Arguments RServerError {A}.

(** [!id || isNaN(parseInt(id)) || parseInt(id) < 1], on the parsed id. *)
Definition bad_id (id : Z) : bool := id <? 1.

(** A value bound to an [INTEGER] parameter: PostgreSQL refuses one
    outside the 32-bit range ("value ... is out of range for type
    integer"), and the handler's [catch] answers 500. *)
Definition int4_ok (n : Z) : bool := (-2147483648 <=? n) && (n <=? 2147483647).

(** [getDeadlineById]: the deadline, its collaborators, the caller's access
    and [can_manage_collaborators]; the access errors are told apart by
    their messages, any other error reaches the outer [catch].  The first
    query, in [canAccessDeadline], binds the id and the caller's id as
    [INTEGER]s. *)
Definition getDeadlineById (union_order : list access -> list access) (id uid : Z) (s : db)
  : reply (deadline * list collab_item * access * bool) :=
  if bad_id id then RBadRequest
  else if negb (int4_ok id && int4_ok uid) then RServerError
  else match getDeadlineWithCollaborators union_order s id uid with
       | Returned (d, cs, a) => ROk (d, cs, a, String.eqb (acc_role a) "owner" || acc_can_edit a)
       | Thrown m =>
           if String.eqb m "Access denied to this deadline" then RForbidden
           else if String.eqb m "Deadline not found" then RNotFound
           else RServerError
       end.

(** [updateDeadlineStatus] (the [PATCH] of the status): validation, the
    existence check of [Deadline.findById] (the id bound as an [INTEGER]),
    then [Deadline.updateStatus]. *)
Definition updateDeadlineStatus (id : Z) (st : string) (s : db) : db * reply (option deadline) :=
  if bad_id id || negb (Deadline.status_ok st) then (s, RBadRequest)
  else if negb (int4_ok id) then (s, RServerError)
  else match find_deadline s id with
       | None => (s, RNotFound)
       | Some _ =>
           match Deadline.updateStatus id st s with
           | (s', Returned r) => (s', ROk r)
           | (s', Thrown _) => (s', RServerError)
           end
       end.

(** [deleteDeadline]: validation, the existence check of
    [Deadline.findById] (the id bound as an [INTEGER]), then
    [Deadline.delete]. *)
Definition deleteDeadline (id : Z) (s : db) : db * reply unit :=
  if bad_id id then (s, RBadRequest)
  else if negb (int4_ok id) then (s, RServerError)
  else match find_deadline s id with
       | None => (s, RNotFound)
       | Some _ =>
           match Deadline.delete id s with
           | (s', Returned _) => (s', ROk tt)
           | (s', Thrown _) => (s', RServerError)
           end
       end.

End Controller.

(** ** The [Friend] model *)

Definition set_friends (s : db) (fs : list friend_row) : db :=
  {| deadlines := deadlines s; dcs := dcs s; friends := fs; users := users s;
     next_deadline_id := next_deadline_id s; next_dc_id := next_dc_id s |}.

Module Friend.

(** The [requested_by], [id] and timestamp columns are written but not read
    by the methods modelled here. *)
Definition mk_friend (u f : Z) (st : string) : friend_row :=
  {| f_user_id := u; f_friend_id := f; f_status := st |}.

(** [(user_id = $1 AND friend_id = $2) OR (user_id = $2 AND friend_id = $1)]. *)
Definition links (a b : Z) (r : friend_row) : bool :=
  ((f_user_id r =? a) && (f_friend_id r =? b)) || ((f_user_id r =? b) && (f_friend_id r =? a)).

Definition set_status (st : string) (r : friend_row) : friend_row :=
  {| f_user_id := f_user_id r; f_friend_id := f_friend_id r; f_status := st |}.

Definition check_error : string := "new row for relation friends violates check constraint".
Definition fk_error : string := "insert or update on table friends violates foreign key constraint".

(** The [INSERT] of the rows [rs]: [CHECK (user_id != friend_id)] and the
    foreign keys to [users].  Callers only insert pairs with no row yet, so
    [UNIQUE(user_id, friend_id)] and [ON CONFLICT] do not fire. *)
Definition insert_rows (u f : Z) (rs : list friend_row) : dbst friend_row :=
  fun s =>
    if u =? f then (s, Thrown check_error)
    else if negb (user_exists s u && user_exists s f) then (s, Thrown fk_error)
    else (set_friends s (friends s ++ rs), Returned (hd (mk_friend u f "") rs)).

(** [sendFriendRequest]: refused when any row links the two users; two
    ['pending'] rows otherwise. *)
Definition sendFriendRequest (u f : Z) : dbst friend_row :=
  fun s =>
    match getFriendshipStatus s u f with
    | Some _ => (s, Thrown "Friendship request already exists or users are already friends")
    | None => insert_rows u f [mk_friend u f "pending"; mk_friend f u "pending"] s
    end.

(** [acceptFriendRequest] and [declineFriendRequest]: the status of the rows
    linking the two users, in both directions. *)
Definition set_link_status (st : string) (u f : Z) : dbst (list friend_row) :=
  fun s =>
    (set_friends s (map (fun r => if links u f r then set_status st r else r) (friends s)),
     Returned (map (set_status st) (filter (links u f) (friends s)))).

Definition acceptFriendRequest (u f : Z) : dbst (list friend_row) := set_link_status "accepted" u f.
Definition declineFriendRequest (u f : Z) : dbst (list friend_row) := set_link_status "declined" u f.

(** [removeFriend]: the rows linking the two users are deleted. *)
Definition removeFriend (u f : Z) : dbst (list friend_row) :=
  fun s =>
    (set_friends s (filter (fun r => negb (links u f r)) (friends s)),
     Returned (filter (links u f) (friends s))).

(** [blockUser]: [removeFriend], then one ['blocked'] row from [u] to [f]
    (no transaction: the removal stays when the insert fails). *)
Definition blockUser (u f : Z) : dbst friend_row :=
  _ <- removeFriend u f ;;
  insert_rows u f [mk_friend u f "blocked"].

Definition blocked_by (u f : Z) (r : friend_row) : bool :=
  (f_user_id r =? u) && (f_friend_id r =? f) && String.eqb (f_status r) "blocked".

(** [unblockUser]: only the ['blocked'] row from [u] to [f] is deleted. *)
Definition unblockUser (u f : Z) : dbst (option friend_row) :=
  fun s =>
    (set_friends s (filter (fun r => negb (blocked_by u f r)) (friends s)),
     Returned (find (blocked_by u f) (friends s))).

(** [areFriends]: [friendship && friendship.status === 'accepted']. *)
Definition areFriends (s : db) (u f : Z) : bool :=
  friendship_accepted (getFriendshipStatus s u f).

End Friend.

(** ** Notification preferences ([User]) *)
Module User.

Local Set Warnings "-register-all".

(** A JSON value of the [notification_preferences] JSONB column. *)
Inductive json :=
| JNull
| JBool (b : bool)
| JNum (n : Z)
| JStr (s : string)
| JArr (l : list json)
| JObj (fields : list (string * json)).

(** JavaScript truthiness (JSONB numbers read here are integers: no [NaN]). *)
Definition truthy (v : json) : bool :=
  match v with
  | JNull => false
  | JBool b => b
  | JNum n => negb (n =? 0)
  | JStr s => negb (String.eqb s "")
  | JArr _ | JObj _ => true
  end.

(** [v[k]], [None] standing for [undefined]: a field of an object (JSONB
    keys are unique).  The keys the code reads are neither [length] nor an
    index, so they are [undefined] on strings and arrays. *)
Definition field (v : json) (k : string) : option json :=
  match v with
  | JObj fs => option_map snd (find (fun p => String.eqb (fst p) k) fs)
  | _ => None
  end.

Definition field_opt (v : option json) (k : string) : option json :=
  match v with Some x => field x k | None => None end.

Definition truthy_opt (v : option json) : bool :=
  match v with Some x => truthy x | None => false end.

(** [x !== false]. *)
Definition not_false (v : option json) : bool :=
  match v with Some (JBool false) => false | _ => true end.

(** [x === true]. *)
Definition is_true (v : option json) : bool :=
  match v with Some (JBool true) => true | _ => false end.

(** [getNotificationPreferences(userId)] given the user's row ([None]: no
    row; the column may hold [null]). *)
Definition getNotificationPreferences (row : option json) : js_result json :=
  match row with
  | None => Thrown "User not found"
  | Some p => Returned p
  end.

(** The shape of the checks: [preferences && c1 && ... ] read as a truth
    value by the callers, and the value of the [catch]. *)
Definition pref_check (on_error : bool) (c : json -> bool) (row : option json) : bool :=
  match getNotificationPreferences row with
  | Thrown _ => on_error
  | Returned p => truthy p && c p
  end.

Definition hasEmailNotificationsEnabled (row : option json) : bool :=
  pref_check true (fun p => not_false (field p "email_enabled")) row.

Definition isReminderEnabled (row : option json) (t : string) : bool :=
  pref_check true (fun p => not_false (field p "email_enabled")
                            && truthy_opt (field p "reminders")
                            && not_false (field_opt (field p "reminders") t)) row.

Definition hasOverdueNotificationsEnabled (row : option json) : bool :=
  pref_check true (fun p => not_false (field p "email_enabled")
                            && not_false (field p "overdue_notifications")) row.

Definition hasDailySummaryEnabled (row : option json) : bool :=
  pref_check false (fun p => not_false (field p "email_enabled")
                             && is_true (field p "daily_summary")) row.

Definition hasInAppNotificationsEnabled (row : option json) : bool :=
  pref_check true (fun p => not_false (field p "in_app_enabled")) row.

Definition isInAppReminderEnabled (row : option json) (t : string) : bool :=
  pref_check true (fun p => not_false (field p "in_app_enabled")
                            && truthy_opt (field p "in_app_reminders")
                            && not_false (field_opt (field p "in_app_reminders") t)) row.

Definition hasInAppOverdueNotificationsEnabled (row : option json) : bool :=
  pref_check true (fun p => not_false (field p "in_app_enabled")
                            && not_false (field p "in_app_overdue")) row.

Definition hasInAppDailySummaryEnabled (row : option json) : bool :=
  pref_check false (fun p => not_false (field p "in_app_enabled")
                             && not_false (field p "in_app_daily_summary")) row.

(** The column default of [users.notification_preferences]. *)
Definition kinds_on : json :=
  JObj [("2_days"%string, JBool true); ("1_day"%string, JBool true);
        ("12_hours"%string, JBool true); ("1_hour"%string, JBool true)].

Definition default_preferences : json :=
  JObj [("email_enabled"%string, JBool true); ("in_app_enabled"%string, JBool true);
        ("reminders"%string, kinds_on); ("overdue_notifications"%string, JBool true);
        ("daily_summary"%string, JBool false); ("in_app_reminders"%string, kinds_on);
        ("in_app_overdue"%string, JBool true)].

End User.

(** ** Invariants of reachable databases *)

(** [UNIQUE(deadline_id, user_id)] of [deadline_collaborators]. *)
Definition dc_keys_unique (s : db) : Prop :=
NoDup (map (fun r => (dc_deadline_id r, dc_user_id r)) (dcs s)).

(** The row of the owning user, when there is one, has role ['owner']: it is
inserted with that role by [createDeadline] (and the test routes), and no
route upserts the owning user with another role (the controller skips the
owner before any insert). *)
Definition owner_rows_are_owner (s : db) : Prop :=
forall r d, In r (dcs s) -> find_deadline s (dc_deadline_id r) = Some d ->
          dc_user_id r = student_id d -> dc_role r = "owner"%string.

(** The [SERIAL] sequence of [deadlines] is ahead of every id in the table. *)
Definition ids_fresh (s : db) : Prop :=
forall d, In d (deadlines s) -> d_id d < next_deadline_id s.

(** The columns of a deadline other than the two JSONB ones. *)
Definition core (d : deadline) : Z * Z * string * Z * string * Z :=
(d_id d, student_id d, title d, due_date d, status d, created_at d).

(** A statement keeps the property [P] of the database. *)
Definition preserves {A} (P : db -> Prop) (m : dbst A) : Prop :=
forall s, P s -> P (fst (m s)).

(** ** Concrete databases *)
Module Scenario.

Definition owner_row (id did uid : Z) : dc_row :=
{| dc_id := id; dc_deadline_id := did; dc_user_id := uid; dc_role := "owner";
 dc_can_edit := true; dc_can_delete := true |}.

Definition mk_deadline (id owner : Z) (t : string) (due created : Z) (stat : string)
(ns : list (string * Z)) : deadline :=
{| d_id := id; student_id := owner; title := t; due_date := due; status := stat;
 created_at := created; collaborators := []; notifications_sent := ns |}.

(** Users 1, 2 and 3; deadline 10 ["Essay"] owned by user 1; users 1 and 2
are friends. *)
Definition essay : deadline := mk_deadline 10 1 "Essay" 1000 0 "pending" [].

Definition s0 : db :=
{| deadlines := [essay]; dcs := [owner_row 1 10 1];
 friends := [{| f_user_id := 1; f_friend_id := 2; f_status := "accepted" |}];
 users := [1; 2; 3]; next_deadline_id := 11; next_dc_id := 2 |}.


(** Deadline 10 ["Essay"] of user 1 and its copy 20 ["Essay (My Copy)"]
owned by user 2 (created later); users 1, 2 and 3, all friends of
user 2. *)
Definition copied : deadline := mk_deadline 20 2 "Essay (My Copy)" 1000 5 "pending" [].

Definition s_copy : db :=
{| deadlines := [essay; copied]; dcs := [owner_row 1 10 1; owner_row 2 20 2];
 friends := [{| f_user_id := 1; f_friend_id := 2; f_status := "accepted" |};
             {| f_user_id := 2; f_friend_id := 3; f_status := "accepted" |}];
 users := [1; 2; 3]; next_deadline_id := 21; next_dc_id := 3 |}.

(** Deadline 10 of user 1 on which user 3 is an editing collaborator;
users 2 and 3 are friends. *)
Definition s_edit : db :=
{| deadlines := [essay];
 dcs := [owner_row 1 10 1;
         {| dc_id := 2; dc_deadline_id := 10; dc_user_id := 3; dc_role := "collaborator";
            dc_can_edit := true; dc_can_delete := false |}];
 friends := [{| f_user_id := 1; f_friend_id := 2; f_status := "accepted" |};
             {| f_user_id := 3; f_friend_id := 2; f_status := "accepted" |}];
 users := [1; 2; 3]; next_deadline_id := 11; next_dc_id := 3 |}.

(** Deadline 30 ["Report"] of user 1, due at 3600000 ms, and the same
with a ['1_hour'] marker set at time 0. *)
Definition report : deadline := mk_deadline 30 1 "Report" 3600000 0 "pending" [].

Definition s_report : db :=
{| deadlines := [report]; dcs := [owner_row 1 30 1]; friends := []; users := [1];
 next_deadline_id := 31; next_dc_id := 2 |}.

(** Every preference on, every delivery successful. *)
Definition all_on (_ : Z) (_ : string) : bool := true.
Definition all_ok (_ _ : Z) (_ : string) (_ : Z) : bool := true.

Definition empty_db : db :=
{| deadlines := []; dcs := []; friends := []; users := [];
 next_deadline_id := 1; next_dc_id := 1 |}.

(** Deadline 10 of user 1 on which user 3 is a collaborator, whose
snapshot still tracks the copy made for user 2. *)
Definition copy_entry : snapshot_entry :=
{| se_user_id := 2; se_role := "copy_collaborator"; se_can_edit := false;
 se_can_delete := false; se_has_copy := true |}.

Definition essay_tagged : deadline :=
{| d_id := 10; student_id := 1; title := "Essay"; due_date := 1000; status := "pending";
 created_at := 0; collaborators := [copy_entry]; notifications_sent := [] |}.

Definition s_tagged : db :=
{| deadlines := [essay_tagged];
 dcs := [owner_row 1 10 1;
         {| dc_id := 2; dc_deadline_id := 10; dc_user_id := 3; dc_role := "collaborator";
            dc_can_edit := true; dc_can_delete := false |}];
 friends := []; users := [1; 2; 3]; next_deadline_id := 11; next_dc_id := 3 |}.

End Scenario.

(** * Properties *)

(** ** Access resolution *)

Lemma find_deadline_id s did d : find_deadline s did = Some d -> d_id d = did.
Proof.
unfold find_deadline; intro H; apply find_some in H; destruct H as [_ H].
now apply Z.eqb_eq.
Qed.

Lemma find_deadline_in s did d : find_deadline s did = Some d -> In d (deadlines s).
Proof. unfold find_deadline; intro H; now apply find_some in H. Qed.

Lemma is_key_true did uid r :
is_key did uid r = true <-> dc_deadline_id r = did /\ dc_user_id r = uid.
Proof. unfold is_key; rewrite andb_true_iff, !Z.eqb_eq; tauto. Qed.

Lemma access_rows_eq s did uid d :
  find_deadline s did = Some d ->
  access_rows s did uid =
  map (fun r => access_of_row r (student_id d)) (filter (is_key did uid) (dcs s))
  ++ (if student_id d =? uid then [owner_access d] else []).
Proof.
  intro Hd; unfold access_rows; rewrite Hd; f_equal.
  induction (dcs s) as [| r rs IH]; [reflexivity |].
  simpl; destruct (is_key did uid r) eqn:E; simpl; [| exact IH].
  apply is_key_true in E as [E _]; rewrite E, Hd; simpl; now f_equal.
Qed.

Lemma filter_key_unique rs did uid r :
  NoDup (map (fun r => (dc_deadline_id r, dc_user_id r)) rs) ->
  In r rs -> is_key did uid r = true -> filter (is_key did uid) rs = [r].
Proof.
  induction rs as [| x rs IH]; intros Hnd Hin Hk; [contradiction |].
  simpl in Hnd; inversion Hnd as [| ? ? Hnotin Hnd']; subst.
  destruct Hin as [<- | Hin]; simpl.
  - rewrite Hk; f_equal.
    apply is_key_true in Hk as [Hk1 Hk2].
    assert (Hnone : forall y, In y rs -> is_key did uid y = false).
    { intros y Hy; destruct (is_key did uid y) eqn:Ey; [| reflexivity].
      apply is_key_true in Ey as [Ey1 Ey2]; exfalso; apply Hnotin.
      rewrite Hk1, Hk2, <- Ey1, <- Ey2.
      exact (in_map (fun r => (dc_deadline_id r, dc_user_id r)) rs y Hy). }
    clear - Hnone; induction rs as [| y rs IH]; [reflexivity |].
    simpl; rewrite Hnone by (left; reflexivity); apply IH.
    intros z Hz; apply Hnone; now right.
  - destruct (is_key did uid x) eqn:Ex; [| now apply IH].
    exfalso; apply Hnotin.
    apply is_key_true in Ex as [Ex1 Ex2]; apply is_key_true in Hk as [Hk1 Hk2].
    rewrite Ex1, Ex2, <- Hk1, <- Hk2.
    exact (in_map (fun r => (dc_deadline_id r, dc_user_id r)) rs r Hin).
Qed.

Lemma filter_key_none rs did uid :
  (forall r, In r rs -> is_key did uid r = false) -> filter (is_key did uid) rs = [].
Proof.
  induction rs as [| r rs IH]; intro H; [reflexivity |].
  simpl; rewrite H by (left; reflexivity); apply IH; intros x Hx; apply H; now right.
Qed.

Lemma hd_error_perm_in {A} (l l' : list A) a :
  Permutation l' l -> hd_error l' = Some a -> In a l.
Proof.
  intros Hp Hh; destruct l' as [| x l']; [discriminate |].
  injection Hh as <-; eapply Permutation_in; [exact Hp | now left].
Qed.

Lemma hd_error_perm_nonempty {A} (l l' : list A) :
  Permutation l' l -> l <> [] -> exists a, hd_error l' = Some a.
Proof.
  intros Hp Hne; destruct l' as [| x l'].
  - apply Permutation_nil in Hp; contradiction.
  - now exists x.
Qed.

(** C1. Access resolution: for an existing deadline [D], whatever order the
    [UNION] rows come in, (1) its owning user gets an access record with
    role ['owner'] (in a database where the owner's own collaborator row, if
    any, has role ['owner']); (2) any other user with a
    [deadline_collaborators] row gets exactly that row (with [student_id]);
    (3) any other user without such a row gets no access, whatever the
    snapshot lists for them (copy-provenance entries included). *)
Theorem canAccessDeadline_resolution (union_order : list access -> list access)
  (Hperm : forall l, Permutation (union_order l) l) (s : db) (did uid : Z) (d : deadline)
  (Hd : find_deadline s did = Some d) :
  (uid = student_id d -> owner_rows_are_owner s ->
   exists a, canAccessDeadline union_order s did uid = Returned (Some a)
             /\ acc_role a = "owner"%string) /\
  (uid <> student_id d -> dc_keys_unique s ->
   forall r, In r (dcs s) -> is_key did uid r = true ->
   canAccessDeadline union_order s did uid = Returned (Some (access_of_row r (student_id d)))) /\
  (uid <> student_id d -> (forall r, In r (dcs s) -> is_key did uid r = false) ->
   canAccessDeadline union_order s did uid = Returned None).
Proof.
  unfold canAccessDeadline; rewrite (access_rows_eq s did uid d Hd).
  split; [| split].
  - intros Hu Hown; subst uid; rewrite Z.eqb_refl.
    destruct (hd_error_perm_nonempty _ _ (Hperm (map (fun r => access_of_row r (student_id d))
                (filter (is_key did (student_id d)) (dcs s)) ++ [owner_access d])))
      as [a Ha].
    { intro E; apply app_eq_nil in E as [_ E]; discriminate. }
    rewrite Ha; exists a; split; [reflexivity |].
    eapply hd_error_perm_in in Ha; [| apply Hperm].
    apply in_app_or in Ha as [Ha | [<- | []]]; [| reflexivity].
    apply in_map_iff in Ha as [r [<- Hr]]; apply filter_In in Hr as [Hr Hk].
    apply is_key_true in Hk as [Hk1 Hk2]; simpl.
    apply (Hown r d Hr); [now rewrite Hk1 | exact Hk2].
  - intros Hu Huniq r Hr Hk.
    rewrite (filter_key_unique _ did uid r Huniq Hr Hk).
    replace (student_id d =? uid) with false by (symmetry; apply Z.eqb_neq; congruence).
    simpl; pose proof (Hperm [access_of_row r (student_id d)]) as Hp.
    apply Permutation_sym, Permutation_length_1_inv in Hp; now rewrite Hp.
  - intros Hu Hnone; rewrite (filter_key_none _ did uid Hnone).
    replace (student_id d =? uid) with false by (symmetry; apply Z.eqb_neq; congruence).
    simpl; pose proof (Hperm []) as Hp; apply Permutation_sym, Permutation_nil in Hp.
    rewrite Hp; simpl.
    rewrite Hd; now destruct existsb.
Qed.

Lemma canAccessDeadline_resolution_witness :
  find_deadline Scenario.s0 10 = Some Scenario.essay /\
  exists a, canAccessDeadline (fun l => l) Scenario.s0 10 1 = Returned (Some a)
            /\ acc_role a = "owner".
Proof.
  split; [reflexivity |].
  destruct (canAccessDeadline_resolution (fun l => l) (@Permutation_refl access)
              Scenario.s0 10 1 Scenario.essay eq_refl) as [H _].
  apply H; [reflexivity |].
  intros r d [<- | []] _ _; reflexivity.
Defined.

(** C9 (counterexample). On a database without deadline 7, access
    resolution does not throw: it returns no access, as for an existing
    deadline the user cannot access. *)
Lemma canAccessDeadline_missing_deadline_no_error :
  canAccessDeadline (fun l => l) Scenario.empty_db 7 1 = Returned None /\
  ~ (exists msg, canAccessDeadline (fun l => l) Scenario.empty_db 7 1 = Thrown msg).
Proof.
  split; [reflexivity |]. intros [msg H]; discriminate H.
Qed.

(** C9 (amended). [canAccessDeadline] never throws (database failures
    apart); for a deadline id that does not exist it returns no access,
    exactly as it does for an existing deadline the user has no access to. *)
Theorem canAccessDeadline_missing_deadline (union_order : list access -> list access)
  (Hperm : forall l, Permutation (union_order l) l) (s : db) (did uid : Z)
  (Hnone : find_deadline s did = None) :
  canAccessDeadline union_order s did uid = Returned None /\
  (forall did' uid', exists r, canAccessDeadline union_order s did' uid' = Returned r).
Proof.
  split.
  - unfold canAccessDeadline, access_rows; rewrite Hnone.
    assert (E : flat_map (fun r => if is_key did uid r then
                                     match find_deadline s (dc_deadline_id r) with
                                     | Some d => [access_of_row r (student_id d)]
                                     | None => []
                                     end else []) (dcs s) = []).
    { induction (dcs s) as [| r rs IH]; [reflexivity |].
      simpl; destruct (is_key did uid r) eqn:Ek; [| exact IH].
      apply is_key_true in Ek as [-> _]; rewrite Hnone; exact IH. }
    rewrite E; simpl.
    pose proof (Hperm []) as Hp; apply Permutation_sym, Permutation_nil in Hp.
    now rewrite Hp.
  - intros did' uid'; unfold canAccessDeadline.
    destruct (hd_error (union_order (access_rows s did' uid'))) as [a |].
    + eexists; reflexivity.
    + destruct (find_deadline s did') as [d |]; [destruct existsb |]; eexists; reflexivity.
Qed.

Lemma canAccessDeadline_missing_deadline_witness :
  find_deadline Scenario.empty_db 7 = None /\
  canAccessDeadline (fun l => l) Scenario.empty_db 7 1 = Returned None.
Proof.
  split; [reflexivity |].
  apply (canAccessDeadline_missing_deadline (fun l => l) (@Permutation_refl access)
           Scenario.empty_db 7 1 eq_refl).
Defined.

(** ** Overdue re-notification *)

(** C6. The overdue decision on a readable deadline row: send when no
    ['overdue'] marker exists, or when the marker is at least 24 hours old
    and the deadline is at most 168 hours overdue.  In particular: marked 23
    hours ago, no; marked 25 hours ago and 10 hours overdue, yes; marked 25
    hours ago and 200 hours overdue, no. *)
Theorem shouldSendOverdueNotification_decision :
  (forall d now,
     shouldSendOverdueNotification (Returned (Some d)) now = true <->
     lookup_key (notifications_sent d) "overdue" = None \/
     exists last, lookup_key (notifications_sent d) "overdue" = Some last
                  /\ now - last >= 24 * hour_ms /\ now - due_date d <= 168 * hour_ms) /\
  (forall d now,
     lookup_key (notifications_sent d) "overdue" = Some (now - 23 * hour_ms) ->
     shouldSendOverdueNotification (Returned (Some d)) now = false) /\
  (forall d now,
     lookup_key (notifications_sent d) "overdue" = Some (now - 25 * hour_ms) ->
     due_date d = now - 10 * hour_ms ->
     shouldSendOverdueNotification (Returned (Some d)) now = true) /\
  (forall d now,
     lookup_key (notifications_sent d) "overdue" = Some (now - 25 * hour_ms) ->
     due_date d = now - 200 * hour_ms ->
     shouldSendOverdueNotification (Returned (Some d)) now = false).
Proof.
  unfold shouldSendOverdueNotification, hour_ms.
  split; [| split; [| split]].
  - intros d now; destruct (lookup_key (notifications_sent d) "overdue") as [last |].
    + rewrite andb_true_iff, !Z.leb_le; split.
      * intros [H1 H2]; right; exists last; repeat split; lia.
      * intros [H | [l [Hl [H1 H2]]]]; [discriminate | injection Hl as <-; lia].
    + split; [now left | reflexivity].
  - intros d now -> ; apply andb_false_iff; left; apply Z.leb_gt; lia.
  - intros d now -> Hdue; rewrite Hdue; apply andb_true_iff; split; apply Z.leb_le; lia.
  - intros d now -> Hdue; rewrite Hdue; apply andb_false_iff; right; apply Z.leb_gt; lia.
Qed.

Lemma shouldSendOverdueNotification_decision_witness :
  shouldSendOverdueNotification
    (Returned (Some (Scenario.mk_deadline 10 1 "Essay" (1000 - 10 * hour_ms) 0 "overdue"
                                          [("overdue", 1000 - 25 * hour_ms)]))) 1000 = true.
Proof.
  destruct shouldSendOverdueNotification_decision as [_ [_ [H _]]].
  apply H; reflexivity.
Defined.

(** C10. When reading the deadline's notification state throws or finds no
    row, the overdue decision is [false]: the scheduler does not send. *)
Theorem shouldSendOverdueNotification_read_failure :
  (forall msg now, shouldSendOverdueNotification (Thrown msg) now = false) /\
  (forall now, shouldSendOverdueNotification (Returned None) now = false) /\
  (forall s did now, find_deadline s did = None ->
     shouldSendOverdueNotification (Returned (find_deadline s did)) now = false).
Proof.
  split; [| split]; [reflexivity | reflexivity |].
  intros s did now ->; reflexivity.
Qed.

Lemma shouldSendOverdueNotification_read_failure_witness :
  shouldSendOverdueNotification (Returned (find_deadline Scenario.empty_db 7)) 1000 = false.
Proof.
  destruct shouldSendOverdueNotification_read_failure as [_ [_ H]].
  apply H; reflexivity.
Defined.

(** ** Friendship gate of the controller *)





(** ** Frame lemmas of the statements *)

Lemma find_map_pres {A} (p : A -> bool) (g : A -> A) (l : list A) :
  (forall a, p (g a) = p a) -> find p (map g l) = option_map g (find p l).
Proof.
  intro Hp; induction l as [| a l IH]; [reflexivity |].
  simpl; rewrite Hp; destruct (p a); [reflexivity | exact IH].
Qed.

Lemma find_map_fix {A} (p : A -> bool) (g : A -> A) (l : list A) :
  (forall a, p (g a) = p a) -> (forall a, p a = true -> g a = a) ->
  find p (map g l) = find p l.
Proof.
  intros Hp Hfix; rewrite (find_map_pres p g l Hp).
  destruct (find p l) eqn:E; [| reflexivity].
  simpl; f_equal; apply Hfix; now apply find_some in E.
Qed.

Lemma find_app_some {A} (p : A -> bool) (l l' : list A) a :
  find p l = Some a -> find p (l ++ l') = Some a.
Proof.
  induction l as [| x l IH]; simpl; [discriminate |].
  destruct (p x); auto.
Qed.

Lemma find_app_none {A} (p : A -> bool) (l l' : list A) :
  find p l = None -> find p (l ++ l') = find p l'.
Proof.
  induction l as [| x l IH]; simpl; [auto |].
  destruct (p x); [discriminate | auto].
Qed.

Lemma find_none_iff {A} (p : A -> bool) (l : list A) :
  find p l = None <-> forall a, In a l -> p a = false.
Proof.
  split.
  - intros H a Ha; destruct (p a) eqn:E; [| reflexivity].
    destruct (find p l) eqn:F; [discriminate |].
    exfalso; eapply find_none in F; [| exact Ha]; congruence.
  - induction l as [| x l IH]; intro H; [reflexivity |].
    simpl; rewrite (H x (or_introl eq_refl)); apply IH.
    intros a Ha; apply H; now right.
Qed.

(** An [UPDATE deadlines] that keeps the id. *)
Lemma find_deadline_update s id f x :
  (forall d, d_id (f d) = d_id d) ->
  find_deadline (update_deadline s id f) x =
  option_map (fun d => if d_id d =? id then f d else d) (find_deadline s x).
Proof.
  intro Hf; unfold find_deadline, update_deadline, set_deadlines; simpl.
  apply find_map_pres; intro d; destruct (d_id d =? id); [now rewrite Hf | reflexivity].
Qed.

Lemma core_update_collaborators s id cs x :
  option_map core (find_deadline (update_deadline s id (with_collaborators cs)) x)
  = option_map core (find_deadline s x).
Proof.
  rewrite find_deadline_update by reflexivity.
  destruct (find_deadline s x) as [d |]; [simpl; now destruct (d_id d =? id) | reflexivity].
Qed.

Lemma ids_fresh_update s id f :
  (forall d, d_id (f d) = d_id d) -> ids_fresh s -> ids_fresh (update_deadline s id f).
Proof.
  intros Hf Hfr d Hd; unfold update_deadline, set_deadlines in *; simpl in *.
  apply in_map_iff in Hd as [d0 [<- Hd0]].
  destruct (d_id d0 =? id); [rewrite Hf |]; now apply Hfr.
Qed.

(** Preservation through the monad combinators. *)
Lemma preserves_ret {A} (P : db -> Prop) (a : A) : preserves P (ret a).
Proof. intros s H; exact H. Qed.

Lemma preserves_throw {A} (P : db -> Prop) (msg : string) : preserves P (@throw db A msg).
Proof. intros s H; exact H. Qed.

Lemma preserves_bind {A B} (P : db -> Prop) (m : dbst A) (k : A -> dbst B) :
  preserves P m -> (forall a, preserves P (k a)) -> preserves P (bind m k).
Proof.
  intros Hm Hk s Hs; unfold bind; specialize (Hm s Hs).
  destruct (m s) as [s1 [a | e]]; simpl in *; [now apply Hk | exact Hm].
Qed.

Lemma preserves_catch {A} (P : db -> Prop) (m : dbst A) (h : string -> dbst A) :
  preserves P m -> (forall e, preserves P (h e)) -> preserves P (catch m h).
Proof.
  intros Hm Hh s Hs; unfold catch; specialize (Hm s Hs).
  destruct (m s) as [s1 [a | e]]; simpl in *; [exact Hm | now apply Hh].
Qed.

Lemma preserves_and {A} (P Q : db -> Prop) (m : dbst A) :
  preserves P m -> preserves Q m -> preserves (fun s => P s /\ Q s) m.
Proof. intros HP HQ s [H1 H2]; split; [apply HP | apply HQ]; assumption. Qed.

Lemma sync_fields s did :
  dcs (syncCollaboratorsToDeadline s did) = dcs s /\
  users (syncCollaboratorsToDeadline s did) = users s /\
  friends (syncCollaboratorsToDeadline s did) = friends s /\
  next_deadline_id (syncCollaboratorsToDeadline s did) = next_deadline_id s.
Proof. repeat split. Qed.

Lemma key_not_in rs did u :
  find (is_key did u) rs = None ->
  ~ In (did, u) (map (fun r => (dc_deadline_id r, dc_user_id r)) rs).
Proof.
  intros H Hin; apply in_map_iff in Hin as [r [Hk Hr]].
  apply find_none_iff with (a := r) in H; [| exact Hr].
  injection Hk as H1 H2; unfold is_key in H; rewrite H1, H2, !Z.eqb_refl in H; discriminate.
Qed.

Lemma is_key_set_perms did u role ce cd r :
  is_key did u (set_perms role ce cd r) = is_key did u r.
Proof. reflexivity. Qed.

Lemma is_key_other x y did u r :
  (x <> did \/ y <> u) -> is_key x y r = true -> is_key did u r = false.
Proof.
  intros Hne Hk; apply is_key_true in Hk as [H1 H2].
  unfold is_key; rewrite H1, H2.
  destruct Hne as [Hne | Hne]; [rewrite (proj2 (Z.eqb_neq _ _) Hne) |
                                 rewrite (proj2 (Z.eqb_neq y u) Hne), andb_false_r]; reflexivity.
Qed.

(** [addCollaborator] either throws on an unchanged database, or returns
    the row now stored for [(deadline_id, user_id)], with the given role and
    permissions. *)
Lemma addCollaborator_spec did u role ce cd s :
  match addCollaborator did u role ce cd s with
  | (s', Thrown _) => s' = s
  | (s', Returned r) =>
      deadline_exists s did = true /\ user_exists s u = true /\
      getCollaboratorRole s' did u = Some r /\ dc_role r = role /\
      dc_can_edit r = ce /\ dc_can_delete r = cd /\ dc_user_id r = u /\ dc_deadline_id r = did
  end.
Proof.
  unfold addCollaborator.
  destruct (deadline_exists s did && user_exists s u) eqn:Eg; simpl negb; cbv iota; [| reflexivity].
  apply andb_true_iff in Eg as [Ed Eu].
  destruct (getCollaboratorRole s did u) as [old |] eqn:Eo.
  - pose proof Eo as Ek; apply find_some in Ek as [_ Ek]; apply is_key_true in Ek as [Ek1 Ek2].
    repeat split; auto.
    unfold getCollaboratorRole in *; rewrite (proj1 (sync_fields _ _)); simpl.
    rewrite find_map_pres by (intro r; destruct (is_key did u r) eqn:E; [now rewrite is_key_set_perms | exact E]).
    rewrite Eo; simpl; apply find_some in Eo as [_ Eo]; now rewrite Eo.
  - repeat split; auto.
    unfold getCollaboratorRole in *; rewrite (proj1 (sync_fields _ _)); simpl.
    rewrite find_app_none by exact Eo; simpl; unfold is_key; simpl; now rewrite !Z.eqb_refl.
Qed.

(** What [addCollaborator] leaves alone, whatever its outcome. *)
Lemma addCollaborator_frame did u role ce cd s :
  let s' := fst (addCollaborator did u role ce cd s) in
  users s' = users s /\ friends s' = friends s /\ next_deadline_id s' = next_deadline_id s /\
  (forall x, option_map core (find_deadline s' x) = option_map core (find_deadline s x)) /\
  (forall x y, (x <> did \/ y <> u) -> getCollaboratorRole s' x y = getCollaboratorRole s x y) /\
  (forall x y, getCollaboratorRole s x y <> None -> getCollaboratorRole s' x y <> None) /\
  (ids_fresh s -> ids_fresh s') /\
  (dc_keys_unique s -> dc_keys_unique s').
Proof.
  unfold addCollaborator.
  destruct (deadline_exists s did && user_exists s u) eqn:Eg; simpl negb; cbv iota;
    [| simpl; repeat split; auto].
  destruct (getCollaboratorRole s did u) as [old |] eqn:Eo; simpl fst;
    unfold syncCollaboratorsToDeadline.
  - repeat split.
    + intro x; rewrite core_update_collaborators; reflexivity.
    + intros x y Hne; unfold getCollaboratorRole; simpl.
      apply find_map_fix.
      * intro r; destruct (is_key did u r); [apply is_key_set_perms | reflexivity].
      * intros r Hr; now rewrite (is_key_other x y did u r Hne Hr).
    + intros x y Hn; unfold getCollaboratorRole in *; simpl.
      rewrite find_map_pres by (intro r; destruct (is_key did u r); [apply is_key_set_perms | reflexivity]).
      destruct (find (is_key x y) (dcs s)); [discriminate | contradiction].
    + intro Hfr; apply ids_fresh_update; [reflexivity | exact Hfr].
    + unfold dc_keys_unique; simpl; rewrite map_map; intro Hnd.
      replace (map _ (dcs s)) with (map (fun r => (dc_deadline_id r, dc_user_id r)) (dcs s));
        [exact Hnd |].
      apply map_ext; intro r; destruct (is_key did u r); reflexivity.
  - repeat split.
    + intro x; rewrite core_update_collaborators; reflexivity.
    + intros x y Hne; unfold getCollaboratorRole; simpl.
      destruct (find (is_key x y) (dcs s)) eqn:Ef; [now apply find_app_some |].
      rewrite find_app_none by exact Ef; simpl.
      destruct (is_key x y _) eqn:Ek; [| reflexivity].
      apply (is_key_other x y did u) in Ek; [| exact Hne].
      unfold is_key in Ek; simpl in Ek; rewrite !Z.eqb_refl in Ek; discriminate.
    + intros x y Hn; unfold getCollaboratorRole in *; simpl.
      destruct (find (is_key x y) (dcs s)) eqn:Ef; [| contradiction].
      now rewrite (find_app_some _ _ _ _ Ef).
    + intro Hfr; apply ids_fresh_update; [reflexivity |].
      intros d Hd; apply Hfr; exact Hd.
    + unfold dc_keys_unique; simpl; intro Hnd; rewrite map_app; simpl.
      apply Permutation_NoDup with (l := (did, u) :: map (fun r => (dc_deadline_id r, dc_user_id r)) (dcs s)).
      * apply Permutation_cons_append.
      * constructor; [apply key_not_in; exact Eo | exact Hnd].
Qed.

(** The snapshot of a deadline after [addCollaborator]: unchanged, or (for
    the deadline written) rebuilt from its collaborator rows. *)
Lemma addCollaborator_snapshot did u role ce cd s x d' :
  find_deadline (fst (addCollaborator did u role ce cd s)) x = Some d' ->
  exists d, find_deadline s x = Some d /\
    (collaborators d' = collaborators d \/
     (x = did /\ forall e, In e (collaborators d') ->
        exists r, In r (dcs (fst (addCollaborator did u role ce cd s))) /\
                  dc_deadline_id r = did /\ e = entry_of_row r)).
Proof.
  unfold addCollaborator.
  destruct (deadline_exists s did && user_exists s u) eqn:Eg; simpl negb; cbv iota.
  2: { simpl; intro H; exists d'; split; [exact H | now left]. }
  destruct (getCollaboratorRole s did u) as [old |] eqn:Eo; simpl fst;
    unfold syncCollaboratorsToDeadline; intro H;
    rewrite find_deadline_update in H by reflexivity;
    destruct (find_deadline _ x) as [d |] eqn:Ed; try discriminate; simpl in H;
    injection H as <-; exists d; (split; [first [exact Ed | reflexivity] |]);
    (destruct (Z.eqb_spec (d_id d) did) as [Hid | Hid]; [right | now left]);
    (split; [apply find_deadline_id in Ed; congruence |]);
    intros e He; simpl in He; apply in_map_iff in He as [r [<- Hr]];
    apply filter_In in Hr as [Hr Hk]; apply andb_true_iff in Hk as [Hk _];
    apply Z.eqb_eq in Hk; exists r; repeat split; auto.
Qed.

(** [Deadline.createCopy] either throws on an unchanged database or appends
    the copy. *)
Lemma createCopy_spec orig u suf stat now s :
  match createCopy orig u suf stat now s with
  | (s', Thrown _) => s' = s
  | (s', Returned c) =>
      exists o, find_deadline s orig = Some o /\ user_exists s u = true /\
      d_id c = next_deadline_id s /\ student_id c = u /\ title c = copy_title (title o) suf /\
      status c = (if String.eqb stat "" then "pending"%string else stat) /\
      deadlines s' = deadlines s ++ [c] /\ dcs s' = dcs s /\ users s' = users s /\
      friends s' = friends s /\ next_deadline_id s' = next_deadline_id s + 1
  end.
Proof.
  unfold createCopy; destruct (find_deadline s orig) as [o |] eqn:Eo; [| reflexivity].
  destruct (user_exists s u) eqn:Eu; simpl; [| reflexivity].
  exists o; repeat split; auto.
Qed.

Lemma createCopy_frame orig u suf stat now s :
  let s' := fst (createCopy orig u suf stat now s) in
  users s' = users s /\ friends s' = friends s /\ dcs s' = dcs s /\
  next_deadline_id s <= next_deadline_id s' /\
  (forall x d, find_deadline s x = Some d -> find_deadline s' x = Some d) /\
  (ids_fresh s -> ids_fresh s').
Proof.
  pose proof (createCopy_spec orig u suf stat now s) as H.
  destruct (createCopy orig u suf stat now s) as [s' [c | e]]; simpl.
  - destruct H as [o [_ [_ [Hid [_ [_ [_ [Hds [Hdc [Hu [Hf Hn]]]]]]]]]]].
    split; [exact Hu |]; split; [exact Hf |]; split; [exact Hdc |]; split; [lia |]; split.
    + intros x d Hx; unfold find_deadline in *; rewrite Hds; now apply find_app_some.
    + intros Hfr d Hd; rewrite Hds in Hd; rewrite Hn; apply in_app_or in Hd as [Hd | [<- | []]].
      * specialize (Hfr d Hd); lia.
      * lia.
  - subst; repeat split; auto; lia.
Qed.

Lemma createCopy_find_new orig u suf stat now s s' c :
  ids_fresh s -> createCopy orig u suf stat now s = (s', Returned c) ->
  find_deadline s' (d_id c) = Some c.
Proof.
  intros Hfr E; pose proof (createCopy_spec orig u suf stat now s) as H; rewrite E in H.
  destruct H as [o [_ [_ [Hid [_ [_ [_ [Hds _]]]]]]]].
  unfold find_deadline; rewrite Hds, find_app_none; [simpl; now rewrite Z.eqb_refl |].
  apply find_none_iff; intros d Hd; apply Z.eqb_neq; specialize (Hfr d Hd); lia.
Qed.

(** [updateOriginalDeadlineCollaboratorsList]. *)
Lemma updateOriginal_spec did uids s :
  match updateOriginalDeadlineCollaboratorsList did uids s with
  | (s', Thrown _) => s' = s /\ find_deadline s did = None
  | (s', Returned cs) =>
      exists d, find_deadline s did = Some d /\
        cs = add_copy_entries (collaborators d) (filter (fun u => existsb (Z.eqb u) uids) (users s)) /\
        find_deadline s' did = Some (with_collaborators cs d)
  end.
Proof.
  unfold updateOriginalDeadlineCollaboratorsList.
  destruct (find_deadline s did) as [d |] eqn:Ed; [| now split].
  exists d; repeat split; auto.
  rewrite find_deadline_update, Ed by reflexivity; simpl.
  now rewrite (find_deadline_id _ _ _ Ed), Z.eqb_refl.
Qed.

Lemma updateOriginal_frame did uids s :
  let s' := fst (updateOriginalDeadlineCollaboratorsList did uids s) in
  users s' = users s /\ friends s' = friends s /\ dcs s' = dcs s /\
  next_deadline_id s' = next_deadline_id s /\
  (forall x, option_map core (find_deadline s' x) = option_map core (find_deadline s x)) /\
  (ids_fresh s -> ids_fresh s').
Proof.
  unfold updateOriginalDeadlineCollaboratorsList.
  destruct (find_deadline s did) as [d |]; simpl; [| repeat split; auto].
  repeat split; [apply core_update_collaborators |].
  apply ids_fresh_update; reflexivity.
Qed.

Lemma add_copy_entries_in cur us u :
  In u us -> (forall e, In e cur -> se_user_id e = u -> e = copy_entry u) ->
  In (copy_entry u) (add_copy_entries cur us).
Proof.
  unfold add_copy_entries.
  assert (Hmono : forall l acc, In (copy_entry u) acc ->
            In (copy_entry u) (fold_left (fun acc u => if existsb (fun c => se_user_id c =? u) acc
                                                        then acc else acc ++ [copy_entry u]) l acc)).
  { induction l as [| x l IH]; intros acc H; [exact H |]; simpl; apply IH.
    destruct existsb; [exact H | apply in_or_app; now left]. }
  revert cur; induction us as [| x us IH]; intros cur Hin Hinv; [contradiction |]; simpl.
  destruct (Z.eqb_spec x u) as [-> | Hne].
  - apply Hmono; destruct (existsb (fun c => se_user_id c =? u) cur) eqn:E.
    + apply existsb_exists in E as [e [He Hu]]; apply Z.eqb_eq in Hu.
      rewrite <- (Hinv e He Hu); exact He.
    + apply in_or_app; right; now left.
  - destruct Hin as [Hx | Hin]; [contradiction |]; apply IH; [exact Hin |].
    intros e He Hu; destruct existsb; [now apply Hinv |].
    apply in_app_or in He as [He | [<- | []]]; [now apply Hinv | simpl in Hu; congruence].
Qed.

(** ** The copy loop *)

Lemma copy_step_preserves P did rid ro suf now u :
  (forall x y role ce cd, preserves P (addCollaborator x y role ce cd)) ->
  (forall o v suf' stat now', preserves P (createCopy o v suf' stat now')) ->
  preserves P (copy_step did rid ro suf now u).
Proof.
  intros Ha Hc; unfold copy_step.
  apply preserves_catch; [| intro; apply preserves_ret].
  destruct (u =? ro); [destruct (negb (rid =? did)) |].
  - apply preserves_ret.
  - apply preserves_bind; [apply Ha | intro; apply preserves_ret].
  - apply preserves_bind; [apply Hc | intro c].
    apply preserves_bind; [apply Ha | intro; apply preserves_ret].
Qed.

Lemma copy_loop_preserves P did rid ro suf now uids :
  (forall u, In u uids -> preserves P (copy_step did rid ro suf now u)) ->
  preserves P (copy_loop did rid ro suf now uids).
Proof.
  induction uids as [| u rest IH]; intro H; simpl; [apply preserves_ret |].
  apply preserves_bind; [apply H; now left | intro r].
  apply preserves_bind; [apply IH; intros v Hv; apply H; now right | intro; apply preserves_ret].
Qed.

(** The [catch] of the loop body: an iteration never throws. *)
Lemma copy_step_returns did rid ro suf now u s :
  exists s' r, copy_step did rid ro suf now u s = (s', Returned r).
Proof.
  unfold copy_step, catch; cbv beta.
  match goal with |- context [match ?m with _ => _ end] => destruct m as [s1 [r | e]] end;
    do 2 eexists; reflexivity.
Qed.

Lemma copy_loop_cons did rid ro suf now u rest s s1 r :
  copy_step did rid ro suf now u s = (s1, Returned r) ->
  copy_loop did rid ro suf now (u :: rest) s =
  match copy_loop did rid ro suf now rest s1 with
  | (s2, Returned l) => (s2, Returned (r :: l))
  | (s2, Thrown e) => (s2, Thrown e)
  end.
Proof.
  intro E; cbn [copy_loop]; unfold bind at 1; cbv beta; rewrite E; cbv beta iota.
  unfold bind, ret; destruct (copy_loop did rid ro suf now rest s1) as [s2 [l | e]]; reflexivity.
Qed.

Lemma copy_loop_returns did rid ro suf now uids s :
  exists s' l, copy_loop did rid ro suf now uids s = (s', Returned l).
Proof.
  revert s; induction uids as [| u rest IH]; intro s; [do 2 eexists; reflexivity |].
  destruct (copy_step_returns did rid ro suf now u s) as [s1 [r E]].
  rewrite (copy_loop_cons _ _ _ _ _ _ _ _ _ _ E).
  destruct (IH s1) as [s2 [l E2]]; rewrite E2; do 2 eexists; reflexivity.
Qed.

(** A property [Q] of an entry of the result, established by the iteration
    that produced it and kept by the later ones, holds at the end. *)
Lemma copy_loop_result_prop (P : db -> Prop) (Q : copy_result -> db -> Prop)
  did rid ro suf now uids s s' l :
  (forall u, In u uids -> preserves P (copy_step did rid ro suf now u)) ->
  (forall u s0 s1 r, In u uids -> P s0 ->
     copy_step did rid ro suf now u s0 = (s1, Returned r) -> Q r s1) ->
  (forall u r, In u uids -> preserves (fun s => P s /\ Q r s) (copy_step did rid ro suf now u)) ->
  P s -> copy_loop did rid ro suf now uids s = (s', Returned l) ->
  forall r, In r l -> Q r s'.
Proof.
  revert s l; induction uids as [| u rest IH]; intros s l Hp Hq Hpq Hs E r Hr.
  - injection E as _ <-; contradiction.
  - destruct (copy_step_returns did rid ro suf now u s) as [s1 [r0 E0]].
    rewrite (copy_loop_cons _ _ _ _ _ _ _ _ _ _ E0) in E.
    destruct (copy_loop did rid ro suf now rest s1) as [s2 [l2 | e]] eqn:E2; [| discriminate].
    injection E as <- <-.
    assert (Hs1 : P s1).
    { pose proof (Hp u (or_introl eq_refl) s Hs) as H; now rewrite E0 in H. }
    destruct Hr as [<- | Hr].
    + pose proof (copy_loop_preserves (fun s => P s /\ Q r0 s) did rid ro suf now rest
                    (fun v Hv => Hpq v r0 (or_intror Hv)) s1
                    (conj Hs1 (Hq u s s1 r0 (or_introl eq_refl) Hs E0))) as H.
      rewrite E2 in H; exact (proj2 H).
    + apply (IH s1 l2); auto.
      * intros v Hv; apply Hp; now right.
      * intros v s3 s4 r3 Hv; apply Hq; now right.
      * intros v r3 Hv; apply Hpq; now right.
Qed.

(** The entry an iteration returns, by branch of the loop body. *)
Lemma copy_step_result did rid ro suf now u s s1 r :
  copy_step did rid ro suf now u s = (s1, Returned r) ->
  match r with
  | CRDenied v root => v = u /\ u = ro /\ root = rid /\ rid <> did /\ s1 = s
  | CROwnerAdded v d root => v = u /\ u = ro /\ d = did /\ root = rid /\ rid = did
  | CRCopy v c o => v = u /\ u <> ro /\ o = did
  | CRError v _ => v = u
  | CRDirect _ _ => False
  end.
Proof.
  unfold copy_step, catch; destruct (Z.eqb_spec u ro) as [Hu | Hu].
  - destruct (Z.eqb_spec rid did) as [Hr | Hr]; cbv [negb].
    + unfold bind; destruct (addCollaborator did u "collaborator" true false s) as [s2 [a | e]];
        intro E; cbn in E; injection E as <- <-; auto.
    + intro E; cbn in E; injection E as <- <-; auto.
  - unfold bind; destruct (createCopy did u suf "pending" now s) as [s2 [c | e]].
    + destruct (addCollaborator (d_id c) u "owner" true true s2) as [s3 [a | e]];
        intro E; cbn in E; injection E as <- <-; auto.
    + intro E; cbn in E; injection E as <- <-; auto.
Qed.

Lemma copy_loop_result_step did rid ro suf now uids s s' l r :
  copy_loop did rid ro suf now uids s = (s', Returned l) -> In r l ->
  exists u s0 s1, In u uids /\ copy_step did rid ro suf now u s0 = (s1, Returned r).
Proof.
  intros E Hr.
  apply (copy_loop_result_prop (fun _ => True)
           (fun r _ => exists u s0 s1, In u uids /\ copy_step did rid ro suf now u s0 = (s1, Returned r))
           did rid ro suf now uids s s' l); auto.
  - intros u _ s0 _; exact I.
  - intros u s0 s1 r0 Hu _ E0; now exists u, s0, s1.
  - intros u r0 _ s0 H; exact H.
Qed.


Lemma copy_step_copy did rid ro suf now u s s1 v cid o :
  copy_step did rid ro suf now u s = (s1, Returned (CRCopy v cid o)) ->
  exists s2 c row, createCopy did u suf "pending" now s = (s2, Returned c) /\
    addCollaborator (d_id c) u "owner" true true s2 = (s1, Returned row) /\ cid = d_id c.
Proof.
  unfold copy_step, catch; destruct (Z.eqb_spec u ro) as [Hu | Hu].
  - destruct (Z.eqb_spec rid did) as [Hr | Hr]; cbv [negb].
    + unfold bind; destruct (addCollaborator did u "collaborator" true false s) as [s2 [a | e]];
        intro E; cbn in E; discriminate.
    + intro E; cbn in E; discriminate.
  - unfold bind; destruct (createCopy did u suf "pending" now s) as [s2 [c | e]] eqn:Ec.
    + destruct (addCollaborator (d_id c) u "owner" true true s2) as [s3 [a | e]] eqn:Ea;
        intro E; cbn in E; [| discriminate].
      injection E as <- _ <- _; now exists s2, c, a.
    + intro E; cbn in E; discriminate.
Qed.

(** The rows an iteration can write: [(did, u)] for the root owner added on
    the root itself, [(copy, u)] for a fresh copy. *)
Lemma copy_step_row_frame did rid ro suf now u s x y :
  (u = ro -> rid = did -> x <> did \/ y <> u) ->
  (u <> ro -> x < next_deadline_id s \/ y <> u) ->
  getCollaboratorRole (fst (copy_step did rid ro suf now u s)) x y = getCollaboratorRole s x y.
Proof.
  intros H1 H2; unfold copy_step, catch; destruct (Z.eqb_spec u ro) as [Hu | Hu].
  - destruct (Z.eqb_spec rid did) as [Hr | Hr]; cbv [negb]; [| reflexivity].
    unfold bind; pose proof (addCollaborator_frame did u "collaborator" true false s) as F.
    destruct F as [_ [_ [_ [_ [F _]]]]]; specialize (F x y (H1 Hu Hr)).
    destruct (addCollaborator did u "collaborator" true false s) as [s2 [a | e]]; exact F.
  - unfold bind; pose proof (createCopy_spec did u suf "pending" now s) as Hs.
    destruct (createCopy did u suf "pending" now s) as [s2 [c | e]]; [| cbn; now subst].
    destruct Hs as [o [_ [_ [Hid [_ [_ [_ [_ [Hdc _]]]]]]]]].
    pose proof (addCollaborator_frame (d_id c) u "owner" true true s2) as F.
    destruct F as [_ [_ [_ [_ [F _]]]]].
    assert (Hne : x <> d_id c \/ y <> u) by (destruct (H2 Hu); [left; lia | now right]).
    specialize (F x y Hne).
    assert (Eq : getCollaboratorRole s2 x y = getCollaboratorRole s x y)
      by (unfold getCollaboratorRole; now rewrite Hdc).
    destruct (addCollaborator (d_id c) u "owner" true true s2) as [s3 [a | e]]; cbn;
      simpl in F; congruence.
Qed.

Lemma copy_step_core did rid ro suf now u x k :
  preserves (fun s => option_map core (find_deadline s x) = Some k)
            (copy_step did rid ro suf now u).
Proof.
  apply copy_step_preserves.
  - intros x' y role ce cd s H; destruct (addCollaborator_frame x' y role ce cd s) as [_ [_ [_ [Hc _]]]].
    now rewrite Hc.
  - intros o v suf' stat now' s H; destruct (createCopy_frame o v suf' stat now' s) as [_ [_ [_ [_ [Hf _]]]]].
    destruct (find_deadline s x) as [d |] eqn:E; [| discriminate].
    now rewrite (Hf _ _ E).
Qed.


(** [addCollaboratorsWithCopies] in copy mode: the copy loop from the root
    found for the deadline, then the snapshot update, which finds the
    deadline again. *)
Lemma addCollaboratorsWithCopies_copies did uids opts now s cur :
  createIndividualCopies opts = true -> find_deadline s did = Some cur ->
  exists s1 l s2 cs,
    copy_loop did (fst (find_root s cur)) (snd (find_root s cur)) (titleSuffix opts) now uids s
      = (s1, Returned l) /\
    updateOriginalDeadlineCollaboratorsList did uids s1 = (s2, Returned cs) /\
    addCollaboratorsWithCopies did uids true opts now s = (s2, Returned (AWCopies l)).
Proof.
  intros Hc Hd.
  destruct (find_root s cur) as [rid ro] eqn:Er; simpl fst; simpl snd.
  destruct (copy_loop_returns did rid ro (titleSuffix opts) now uids s) as [s1 [l E1]].
  assert (Hcore : option_map core (find_deadline s1 did) = Some (core cur)).
  { pose proof (copy_loop_preserves _ did rid ro (titleSuffix opts) now uids
                  (fun u _ => copy_step_core did rid ro (titleSuffix opts) now u did (core cur)) s)
      as H; cbv beta in H; rewrite Hd, E1 in H; now apply H. }
  pose proof (updateOriginal_spec did uids s1) as Hu.
  destruct (updateOriginalDeadlineCollaboratorsList did uids s1) as [s2 [cs | e]] eqn:E2.
  2: { destruct Hu as [_ Hn]; rewrite Hn in Hcore; discriminate. }
  exists s1, l, s2, cs; repeat split; auto.
  unfold addCollaboratorsWithCopies, createCollaboratorCopies; rewrite Hc; cbv [negb].
  unfold bind at 1; unfold bind at 1; unfold get; cbv beta iota.
  rewrite Hd, Er, E1; unfold bind; rewrite E2; reflexivity.
Qed.


Lemma copy_step_users did rid ro suf now u us :
  preserves (fun s => users s = us) (copy_step did rid ro suf now u).
Proof.
  apply copy_step_preserves.
  - intros x y role ce cd s H; destruct (addCollaborator_frame x y role ce cd s) as [Hu _].
    now rewrite Hu.
  - intros o v suf' stat now' s H; destruct (createCopy_frame o v suf' stat now' s) as [Hu _].
    now rewrite Hu.
Qed.





(** ** Copies made for collaborators *)

Lemma core_fields d d' :
  core d' = core d ->
  d_id d' = d_id d /\ student_id d' = student_id d /\ title d' = title d /\ status d' = status d.
Proof. unfold core; intro H; injection H; auto. Qed.

Lemma core_transfer s' x d :
  option_map core (find_deadline s' x) = Some (core d) ->
  exists d', find_deadline s' x = Some d' /\ core d' = core d.
Proof.
  destruct (find_deadline s' x) as [d' |]; cbn [option_map]; [| discriminate].
  intro H; exists d'; split; [reflexivity | congruence].
Qed.

Lemma copy_step_next did rid ro suf now u n :
  preserves (fun s => n < next_deadline_id s) (copy_step did rid ro suf now u).
Proof.
  apply copy_step_preserves.
  - intros x y role ce cd s H; destruct (addCollaborator_frame x y role ce cd s) as [_ [_ [Hn _]]].
    now rewrite Hn.
  - intros o v suf' stat now' s H; destruct (createCopy_frame o v suf' stat now' s) as [_ [_ [_ [Hn _]]]].
    lia.
Qed.

Lemma copy_step_fresh did rid ro suf now u :
  preserves ids_fresh (copy_step did rid ro suf now u).
Proof.
  apply copy_step_preserves.
  - intros x y role ce cd s H; now apply (addCollaborator_frame x y role ce cd s).
  - intros o v suf' stat now' s H; now apply (createCopy_frame o v suf' stat now' s).
Qed.

Lemma createCopy_find_old orig u suf stat now s x :
  x < next_deadline_id s ->
  find_deadline (fst (createCopy orig u suf stat now s)) x = find_deadline s x.
Proof.
  intro Hx; pose proof (createCopy_spec orig u suf stat now s) as H.
  destruct (createCopy orig u suf stat now s) as [s' [c | e]]; simpl; [| now subst].
  destruct H as [o [_ [_ [Hid [_ [_ [_ [Hds _]]]]]]]].
  unfold find_deadline; rewrite Hds.
  destruct (find (fun d => d_id d =? x) (deadlines s)) eqn:E; [now apply find_app_some |].
  rewrite find_app_none by exact E; simpl.
  replace (d_id c =? x) with false by (symmetry; apply Z.eqb_neq; lia); reflexivity.
Qed.

(** The snapshot of [did] keeps only copy entries for a user [c] without a
    row on [did], through an iteration for anybody if [c] is not the root
    owner. *)
Lemma copy_step_keeps_snapshot did rid ro suf now u c s :
  c <> ro ->
  did < next_deadline_id s -> getCollaboratorRole s did c = None ->
  (forall d, find_deadline s did = Some d ->
     forall e, In e (collaborators d) -> se_user_id e = c -> e = copy_entry c) ->
  let s' := fst (copy_step did rid ro suf now u s) in
  getCollaboratorRole s' did c = None /\
  (forall d, find_deadline s' did = Some d ->
     forall e, In e (collaborators d) -> se_user_id e = c -> e = copy_entry c).
Proof.
  intros Hc Hlt Hrow Hsnap s'.
  assert (Hrow' : getCollaboratorRole s' did c = None).
  { unfold s'; rewrite copy_step_row_frame; [exact Hrow | |].
    - intros Hu _; right; congruence.
    - intros _; now left. }
  split; [exact Hrow' |].
  revert Hrow'; unfold s', copy_step, catch; destruct (Z.eqb_spec u ro) as [Hu | Hu].
  - destruct (Z.eqb_spec rid did) as [Hr | Hr]; cbv [negb]; [| exact (fun _ => Hsnap)].
    unfold bind.
    pose proof (addCollaborator_snapshot did u "collaborator" true false s did) as Hs.
    destruct (addCollaborator did u "collaborator" true false s) as [s2 [a | e]]; cbn;
      intros Hrow2 d Hd e0 He0 Hue0; simpl in Hs;
      destruct (Hs d Hd) as [d0 [Hd0 [Hcol | [_ Hall]]]];
      try (rewrite Hcol in He0; exact (Hsnap d0 Hd0 e0 He0 Hue0));
      destruct (Hall e0 He0) as [r [Hr0 [Hrd ->]]]; simpl in Hue0;
      apply find_none_iff with (a := r) in Hrow2; try exact Hr0;
      unfold is_key in Hrow2; rewrite Hrd, Hue0, !Z.eqb_refl in Hrow2; discriminate.
  - unfold bind; pose proof (createCopy_spec did u suf "pending" now s) as Hs.
    pose proof (createCopy_find_old did u suf "pending" now s did Hlt) as Hf.
    destruct (createCopy did u suf "pending" now s) as [s2 [cp | e]]; cbn in Hf |- *;
      [| intros _; subst; exact Hsnap].
    destruct Hs as [o [_ [_ [Hid _]]]].
    pose proof (addCollaborator_snapshot (d_id cp) u "owner" true true s2 did) as Ha.
    destruct (addCollaborator (d_id cp) u "owner" true true s2) as [s3 [a | e]]; cbn;
      intros _ d Hd e0 He0 Hue0; simpl in Ha;
      destruct (Ha d Hd) as [d0 [Hd0 [Hcol | [Hx _]]]]; try lia;
      rewrite Hcol in He0; rewrite Hf in Hd0; exact (Hsnap d0 Hd0 e0 He0 Hue0).
Qed.

(** C8. A copy made by [addCollaboratorsWithCopies] (individual copies,
    [createCopies = true]) for a user [c] on deadline [did]: the new deadline
    belongs to [c], is ['pending'] and has the title of [did] with its copy
    markers stripped, if any, and the suffix appended; [c] has a row with
    role ['owner'] on it; the snapshot of [did] lists the copy entry of [c]
    (['copy_collaborator'], [has_copy], no edit, no delete); and [c] has no
    row on [did].  Assumed of the database before the call: the deadline
    sequence is ahead of the ids, [c] has no row on [did], and the snapshot
    of [did] has no other entry for [c] than a copy entry. *)
Theorem addCollaboratorsWithCopies_copy (did : Z) (uids : list Z) (opts : copy_options)
  (now : Z) (s s' : db) (D : deadline) (l : list copy_result) (c cid orig : Z)
  (Hind : createIndividualCopies opts = true) (Hfresh : ids_fresh s)
  (Hd : find_deadline s did = Some D) (Hnorow : getCollaboratorRole s did c = None)
  (Hsnap : forall e, In e (collaborators D) -> se_user_id e = c -> e = copy_entry c)
  (Hrun : addCollaboratorsWithCopies did uids true opts now s = (s', Returned (AWCopies l)))
  (Hin : In (CRCopy c cid orig) l) :
  orig = did /\
  (exists cp, find_deadline s' cid = Some cp /\ student_id cp = c /\
              status cp = "pending"%string /\ title cp = copy_title (title D) (titleSuffix opts)) /\
  (exists row, getCollaboratorRole s' cid c = Some row /\ dc_role row = "owner"%string) /\
  (exists D', find_deadline s' did = Some D' /\ In (copy_entry c) (collaborators D')) /\
  getCollaboratorRole s' did c = None.
Proof.
  destruct (addCollaboratorsWithCopies_copies did uids opts now s D Hind Hd)
    as [s1 [l1 [s2 [cs [E1 [E2 E3]]]]]].
  rewrite Hrun in E3; injection E3 as -> <-.
  destruct (find_root s D) as [rid ro] eqn:Er; simpl in E1.
  set (suf := titleSuffix opts) in *.
  destruct (copy_loop_result_step _ _ _ _ _ _ _ _ _ _ E1 Hin) as [u [t0 [t1 [Hu Es]]]].
  destruct (copy_step_result _ _ _ _ _ _ _ _ _ Es) as [-> [Hro ->]].
  set (P := fun t : db => ids_fresh t /\ did < next_deadline_id t /\
                          option_map core (find_deadline t did) = Some (core D) /\ users t = users s).
  assert (HP : forall v, In v uids -> preserves P (copy_step did rid ro suf now v)).
  { intros v _; unfold P; repeat apply preserves_and;
      [apply copy_step_fresh | apply copy_step_next | apply copy_step_core | apply copy_step_users]. }
  assert (HPs : P s).
  { unfold P; split; [exact Hfresh |]; split; [| split; [now rewrite Hd | reflexivity]].
    rewrite <- (find_deadline_id _ _ _ Hd); apply Hfresh; exact (find_deadline_in _ _ _ Hd). }
  set (Q := fun (r : copy_result) (t : db) =>
         match r with
         | CRCopy v k _ => k < next_deadline_id t /\ k <> did /\ user_exists t v = true /\
             (exists cp, find_deadline t k = Some cp /\ student_id cp = v /\
                         status cp = "pending"%string /\ title cp = copy_title (title D) suf) /\
             (exists row, getCollaboratorRole t k v = Some row /\ dc_role row = "owner"%string)
         | _ => True
         end).
  assert (HQ : Q (CRCopy u cid did) s1).
  { refine (copy_loop_result_prop P Q did rid ro suf now uids s s1 l HP _ _ HPs E1 _ Hin).
    - intros v r0 r1 r _ [Hf0 [Hlt0 [Hc0 Hus0]]] Et; destruct r as [| | | v' k o |]; try exact I.
      destruct (copy_step_copy _ _ _ _ _ _ _ _ _ _ _ Et) as [r2 [cp0 [row [Ec [Ea ->]]]]].
      destruct (copy_step_result _ _ _ _ _ _ _ _ _ Et) as [-> _].
      pose proof (createCopy_spec did v suf "pending" now r0) as Sc; rewrite Ec in Sc.
      destruct Sc as [o' [Ho' [Huv [Hid [Hst [Hti [Hsts [_ [_ [Husr [_ Hnx]]]]]]]]]]].
      pose proof (createCopy_find_new _ _ _ _ _ _ _ _ Hf0 Ec) as Hnew.
      pose proof (addCollaborator_spec (d_id cp0) v "owner" true true r2) as Sa; rewrite Ea in Sa.
      destruct Sa as [_ [_ [Hg [Hrole _]]]].
      pose proof (addCollaborator_frame (d_id cp0) v "owner" true true r2) as Fa; rewrite Ea in Fa.
      simpl in Fa; destruct Fa as [Fus [_ [Fnx [Fcore _]]]].
      assert (Htitle : title o' = title D).
      { rewrite Ho' in Hc0; unfold core in Hc0; cbn [option_map] in Hc0; congruence. }
      split; [lia |]; split; [lia |]; split.
      { unfold user_exists in *; rewrite Fus, Husr; exact Huv. }
      split; [| now exists row].
      destruct (core_transfer r1 (d_id cp0) cp0) as [cp [Hcp Hcc]].
      { rewrite Fcore, Hnew; reflexivity. }
      destruct (core_fields _ _ Hcc) as [_ [Hs1 [Ht1 Hst1]]].
      exists cp; repeat split; [exact Hcp | congruence | rewrite Hst1, Hsts; reflexivity |].
      rewrite Ht1, Hti, Htitle; reflexivity.
    - intros v r Hv r0 [Hp0 Hq0]; split; [exact (HP v Hv r0 Hp0) |].
      destruct r as [| | | v' k o |]; try exact I.
      destruct Hq0 as [Hlt [Hne [Hus [[cp [Hcp [Hs1 [Hst1 Ht1]]]] [row [Hrow Hrole]]]]]].
      split; [exact (copy_step_next did rid ro suf now v k r0 Hlt) |]; split; [exact Hne |].
      split.
      { pose proof (copy_step_users did rid ro suf now v (users r0) r0 eq_refl) as H.
        unfold user_exists in *; cbv beta in H; now rewrite H. }
      split.
      + pose proof (copy_step_core did rid ro suf now v k (core cp) r0) as H.
        cbv beta in H; rewrite Hcp in H; specialize (H eq_refl).
        destruct (core_transfer _ _ _ H) as [cp' [Hcp' Hcc]].
        destruct (core_fields _ _ Hcc) as [_ [Hs2 [Ht2 Hst2]]].
        exists cp'; repeat split; [exact Hcp' | congruence | congruence | congruence].
      + exists row; split; [| exact Hrole].
        rewrite copy_step_row_frame; [exact Hrow | intros _ _; now left | intros _; now left].
  }
  pose proof (updateOriginal_spec did uids s1) as Su; rewrite E2 in Su.
  destruct Su as [d1 [Hd1 [Hcs Hd2]]].
  pose proof (updateOriginal_frame did uids s1) as Fu; rewrite E2 in Fu; simpl in Fu.
  destruct Fu as [_ [_ [Fdcs [_ [Fcore _]]]]].
  destruct HQ as [_ [_ [Hus1 [[cp [Hcp [Hs1 [Hst1 Ht1]]]] [row [Hrow Hrole]]]]]].
  set (S := fun t : db => did < next_deadline_id t /\ getCollaboratorRole t did u = None /\
              (forall d, find_deadline t did = Some d ->
                 forall e, In e (collaborators d) -> se_user_id e = u -> e = copy_entry u)).
  assert (HS : S s1).
  { pose proof (copy_loop_preserves S did rid ro suf now uids) as H.
    refine (eq_ind _ (fun p => S (fst p)) (H _ s _) _ E1).
    - intros v _ t [Hlt [Hr Hsn]].
      destruct (copy_step_keeps_snapshot did rid ro suf now v u t Hro Hlt Hr Hsn) as [Hr' Hsn'].
      split; [exact (copy_step_next did rid ro suf now v did t Hlt) | split; assumption].
    - split; [exact (proj1 (proj2 HPs)) | split; [exact Hnorow |]].
      intros d Hd'; rewrite Hd in Hd'; injection Hd' as <-; exact Hsnap. }
  destruct HS as [_ [Hrow1 Hsn1]].
  split; [reflexivity |]; split; [| split; [| split]].
  - destruct (core_transfer s2 cid cp) as [cp' [Hcp' Hcc]]; [rewrite Fcore, Hcp; reflexivity |].
    destruct (core_fields _ _ Hcc) as [_ [Hs2 [Ht2 Hst2]]].
    exists cp'; repeat split; [exact Hcp' | congruence | congruence | congruence].
  - exists row; split; [unfold getCollaboratorRole in *; now rewrite Fdcs | exact Hrole].
  - exists (with_collaborators cs d1); split; [exact Hd2 |]; simpl; rewrite Hcs.
    apply add_copy_entries_in; [| exact (Hsn1 d1 Hd1)].
    apply filter_In; split.
    + unfold user_exists in Hus1; apply existsb_exists in Hus1 as [x [Hx Hux]].
      apply Z.eqb_eq in Hux; now subst.
    + apply existsb_exists; exists u; split; [exact Hu | apply Z.eqb_refl].
  - unfold getCollaboratorRole in *; now rewrite Fdcs.
Qed.

Lemma addCollaboratorsWithCopies_copy_witness :
  exists s' l,
    addCollaboratorsWithCopies 20 [1; 3] true default_copy_options 5 Scenario.s_copy =
      (s', Returned (AWCopies l)) /\ In (CRCopy 3 21 20) l /\
    copy_title "Essay (My Copy)" " (My Copy)" = "Essay (My Copy)"%string /\
    (20 = 20 /\
     (exists cp, find_deadline s' 21 = Some cp /\ student_id cp = 3 /\
                 status cp = "pending"%string /\
                 title cp = copy_title (title Scenario.copied) (titleSuffix default_copy_options)) /\
     (exists row, getCollaboratorRole s' 21 3 = Some row /\ dc_role row = "owner"%string) /\
     (exists D', find_deadline s' 20 = Some D' /\ In (copy_entry 3) (collaborators D')) /\
     getCollaboratorRole s' 20 3 = None).
Proof.
  pose (r := addCollaboratorsWithCopies 20 [1; 3] true default_copy_options 5 Scenario.s_copy).
  assert (E : r = (fst r, Returned (AWCopies [CRDenied 1 10; CRCopy 3 21 20])))
    by (vm_compute; reflexivity).
  exists (fst r), [CRDenied 1 10; CRCopy 3 21 20].
  split; [exact E |]; split; [simpl; auto |]; split; [vm_compute; reflexivity |].
  apply (addCollaboratorsWithCopies_copy 20 [1; 3] default_copy_options 5 Scenario.s_copy
           (fst r) Scenario.copied [CRDenied 1 10; CRCopy 3 21 20] 3 21 20).
  - reflexivity.
  - intros d Hd; simpl in Hd; destruct Hd as [<- | [<- | []]]; simpl; lia.
  - reflexivity.
  - reflexivity.
  - intros e [].
  - exact E.
  - simpl; auto.
Defined.

(** ** Idempotence of the controller and uniqueness of the rows *)

Lemma addCollaborator_keys did u role ce cd :
  preserves dc_keys_unique (addCollaborator did u role ce cd).
Proof.
  intros s H; destruct (addCollaborator_frame did u role ce cd s) as [_ [_ [_ [_ [_ [_ [_ Hk]]]]]]].
  exact (Hk H).
Qed.

Lemma createCopy_keys orig u suf stat now :
  preserves dc_keys_unique (createCopy orig u suf stat now).
Proof.
  intros s H; destruct (createCopy_frame orig u suf stat now s) as [_ [_ [Hd _]]].
  unfold dc_keys_unique in *; rewrite Hd; exact H.
Qed.

Lemma updateOriginal_keys did uids :
  preserves dc_keys_unique (updateOriginalDeadlineCollaboratorsList did uids).
Proof.
  intros s H; destruct (updateOriginal_frame did uids s) as [_ [_ [Hd _]]].
  unfold dc_keys_unique in *; rewrite Hd; exact H.
Qed.

Lemma add_direct_keys did uids : preserves dc_keys_unique (add_direct did uids).
Proof.
  induction uids as [| u rest IH]; cbn [add_direct]; [apply preserves_ret |].
  apply preserves_bind; [apply addCollaborator_keys | intro].
  apply preserves_bind; [exact IH | intro; apply preserves_ret].
Qed.

Lemma add_plain_keys did uids : preserves dc_keys_unique (add_plain did uids).
Proof.
  induction uids as [| u rest IH]; cbn [add_plain]; [apply preserves_ret |].
  apply preserves_bind; [apply addCollaborator_keys | intro].
  apply preserves_bind; [exact IH | intro; apply preserves_ret].
Qed.

Lemma addCollaboratorsWithCopies_keys did uids cc opts now :
  preserves dc_keys_unique (addCollaboratorsWithCopies did uids cc opts now).
Proof.
  unfold addCollaboratorsWithCopies; destruct cc.
  - apply preserves_bind; [| intro; apply preserves_bind;
                              [apply updateOriginal_keys | intro; apply preserves_ret]].
    unfold createCollaboratorCopies; destruct (negb (createIndividualCopies opts));
      [apply add_direct_keys |].
    apply preserves_bind; [intros s H; exact H | intro s0].
    destruct (find_deadline s0 did) as [cur |]; [| apply preserves_throw].
    destruct (find_root s0 cur) as [rid ro]; apply copy_loop_preserves; intros u _.
    apply copy_step_preserves; [apply addCollaborator_keys | apply createCopy_keys].
  - apply preserves_bind; [apply add_plain_keys | intro; apply preserves_ret].
Qed.

(** The database after the controller: unchanged, or the one left by
    [addCollaboratorsWithCopies] on the validated candidates. *)
Lemma addCollaboratorsToDeadline_state did req cands cc opts now s :
  fst (addCollaboratorsToDeadline did req cands cc opts now s) = s \/
  exists valid, fst (addCollaboratorsToDeadline did req cands cc opts now s) =
                fst (addCollaboratorsWithCopies did valid cc opts now s).
Proof.
  unfold addCollaboratorsToDeadline.
  destruct cands as [| c rest]; [now left |].
  destruct (find_deadline s did) as [d |]; [| now left].
  destruct (negb (has_edit_permission s d req)); [now left |].
  destruct (validate s d req (c :: rest)) as [e | [[| v vs] sk]]; [now left | now left |].
  right; exists (v :: vs).
  destruct (addCollaboratorsWithCopies did (v :: vs) cc opts now s) as [s1 [res | e]]; [| reflexivity].
  cbv zeta; destruct (successful_of res); reflexivity.
Qed.

(** The plain branch: each candidate upserted with role ['collaborator']. *)
Lemma add_plain_spec did uids s s1 rows :
  add_plain did uids s = (s1, Returned rows) ->
  users s1 = users s /\ friends s1 = friends s /\
  (forall x, option_map core (find_deadline s1 x) = option_map core (find_deadline s x)) /\
  (forall y, ~ In y uids -> getCollaboratorRole s1 did y = getCollaboratorRole s did y) /\
  (forall y, In y uids -> getCollaboratorRole s1 did y <> None) /\
  (forall r, In r rows -> In (dc_user_id r) uids).
Proof.
  revert s rows; induction uids as [| u rest IH]; intros s rows E.
  - cbn in E; injection E as <- <-; repeat split; auto; intros y Hy; contradiction.
  - cbn [add_plain] in E; unfold bind at 1 in E.
    pose proof (addCollaborator_spec did u "collaborator" true false s) as Hs.
    pose proof (addCollaborator_frame did u "collaborator" true false s) as F.
    destruct (addCollaborator did u "collaborator" true false s) as [s2 [a | e]];
      [| discriminate].
    simpl in F; destruct F as [Fu [Ff [_ [Fc [Fr [Fm _]]]]]].
    destruct Hs as [_ [_ [Hg [_ [_ [_ [Huid _]]]]]]].
    cbv beta in E; unfold bind in E.
    destruct (add_plain did rest s2) as [s3 [l | e]] eqn:E2; [| discriminate].
    unfold ret in E; injection E as <- <-.
    destruct (IH s2 l E2) as [Iu [If [Ic [Ir [Ih Irows]]]]].
    split; [congruence |]; split; [congruence |]; split; [| split; [| split]].
    + intro x; rewrite Ic; apply Fc.
    + intros y Hy; rewrite Ir by (intro; apply Hy; now right).
      apply Fr; right; intro; apply Hy; left; congruence.
    + intros y [<- | Hy]; [| now apply Ih].
      destruct (in_dec Z.eq_dec u rest) as [Hin | Hnin]; [now apply Ih |].
      rewrite (Ir u Hnin), Hg; discriminate.
    + intros r [<- | Hr]; [now left | right; now apply Irows].
Qed.

(** A successful validation: the accepted candidates have no row, are
    neither the requester nor the owner; every candidate is skipped as one of
    these three or accepted. *)
Lemma validate_inr s d req cands v sk :
  validate s d req cands = inr (v, sk) ->
  (forall c, In c v -> In c cands /\ c <> req /\ c <> student_id d /\
                       getCollaboratorRole s (d_id d) c = None) /\
  (forall c, In c cands -> c = req \/ c = student_id d \/
                           getCollaboratorRole s (d_id d) c <> None \/ In c v).
Proof.
  revert v sk; induction cands as [| c rest IH]; intros v sk E; cbn [validate] in E.
  - injection E as <- <-; split; intros x Hx; contradiction.
  - revert E.
    destruct (validate s d req rest) as [e | [v' sk']] eqn:E'.
    { destruct (c =? req); [discriminate |]; destruct (c =? student_id d); [discriminate |].
      destruct (getCollaboratorRole s (d_id d) c); [discriminate |].
      destruct (negb (user_exists s c)); [discriminate |].
      destruct (negb _); discriminate. }
    destruct (IH v' sk' eq_refl) as [I1 I2].
    destruct (Z.eqb_spec c req) as [Hr | Hr].
    { intro E; injection E as <- <-; split.
      - intros x Hx; destruct (I1 x Hx) as [Hx1 Hx2]; split; [now right | exact Hx2].
      - intros x [<- | Hx]; [now left | now apply I2]. }
    destruct (Z.eqb_spec c (student_id d)) as [Ho | Ho].
    { intro E; injection E as <- <-; split.
      - intros x Hx; destruct (I1 x Hx) as [Hx1 Hx2]; split; [now right | exact Hx2].
      - intros x [<- | Hx]; [right; now left | now apply I2]. }
    destruct (getCollaboratorRole s (d_id d) c) as [row |] eqn:Eg.
    { intro E; injection E as <- <-; split.
      - intros x Hx; destruct (I1 x Hx) as [Hx1 Hx2]; split; [now right | exact Hx2].
      - intros x [<- | Hx]; [right; right; left; congruence | now apply I2]. }
    destruct (negb (user_exists s c)); [discriminate |].
    destruct (negb _); [discriminate |].
    intro E; injection E as <- <-; split.
    + intros x [<- | Hx]; [split; [now left | auto] |].
      destruct (I1 x Hx) as [Hx1 Hx2]; split; [now right | exact Hx2].
    + intros x [<- | Hx]; [right; right; right; now left |].
      destruct (I2 x Hx) as [H | [H | [H | H]]]; auto.
      right; right; right; now right.
Qed.

(** When every candidate is the requester, the owner or has a row, the
    validation accepts nobody, and each candidate with a row gets the
    ['already a collaborator'] skip. *)
Lemma validate_all_skipped s d req cands :
  (forall c, In c cands -> c = req \/ c = student_id d \/ getCollaboratorRole s (d_id d) c <> None) ->
  exists sk, validate s d req cands = inr ([], sk) /\
    forall c, In c cands -> c <> req -> c <> student_id d ->
      In {| sk_user := c; sk_reason := reason_already |} sk.
Proof.
  induction cands as [| c rest IH]; intro H.
  - exists []; split; [reflexivity | intros c []].
  - destruct IH as [sk [E Hsk]]; [intros x Hx; apply H; now right |].
    cbn [validate]; rewrite E.
    destruct (Z.eqb_spec c req) as [Hr | Hr].
    { eexists; split; [reflexivity |]; intros x [<- | Hx] H1 H2; [contradiction | right; now apply Hsk]. }
    destruct (Z.eqb_spec c (student_id d)) as [Ho | Ho].
    { eexists; split; [reflexivity |]; intros x [<- | Hx] H1 H2; [contradiction | right; now apply Hsk]. }
    destruct (getCollaboratorRole s (d_id d) c) as [row |] eqn:Eg.
    + eexists; split; [reflexivity |]; intros x [<- | Hx] H1 H2; [now left | right; now apply Hsk].
    + exfalso; destruct (H c (or_introl eq_refl)) as [? | [? | ?]]; contradiction.
Qed.

(** Two identical calls in the plain mode: the second accepts nobody and
    reports every user added by the first as already a collaborator. *)
Lemma addCollaboratorsToDeadline_plain_twice did req cands opts now s s1 added denied sk :
  addCollaboratorsToDeadline did req cands false opts now s = (s1, Ok200 added denied sk) ->
  exists sk2,
    addCollaboratorsToDeadline did req cands false opts now s1 = (s1, BadRequest400 BRNoValid sk2) /\
    forall r, In (AIRow r) added ->
      In {| sk_user := dc_user_id r; sk_reason := reason_already |} sk2.
Proof.
  unfold addCollaboratorsToDeadline at 1.
  destruct cands as [| c0 rest0]; [discriminate |].
  destruct (find_deadline s did) as [d |] eqn:Ed; [| discriminate].
  destruct (has_edit_permission s d req) eqn:Ep; cbv [negb]; [| discriminate].
  destruct (validate s d req (c0 :: rest0)) as [e | [v sk0]] eqn:Ev; [discriminate |].
  destruct v as [| v0 vs]; [discriminate |].
  unfold addCollaboratorsWithCopies; cbv [bind ret].
  destruct (add_plain did (v0 :: vs) s) as [s2 [rows | e]] eqn:Ea; [| discriminate].
  cbn [successful_of denied_of map].
  destruct rows as [| r0 rs]; [discriminate |].
  intro E; injection E as <- <- _ _.
  destruct (add_plain_spec _ _ _ _ _ Ea) as [Hus [Hfr [Hcore [Hout [Hin Hrows]]]]].
  destruct (validate_inr _ _ _ _ _ _ Ev) as [I1 I2].
  pose proof (find_deadline_id _ _ _ Ed) as Hid.
  destruct (core_transfer s2 did d) as [d' [Ed' Hc]]; [rewrite Hcore, Ed; reflexivity |].
  destruct (core_fields _ _ Hc) as [Hid' [Hst _]].
  assert (Hall : forall c, In c (c0 :: rest0) ->
            c = req \/ c = student_id d' \/ getCollaboratorRole s2 (d_id d') c <> None).
  { intros c Hc0; rewrite Hst, Hid', Hid.
    destruct (in_dec Z.eq_dec c (v0 :: vs)) as [Hv | Hv]; [right; right; now apply Hin |].
    rewrite (Hout c Hv); destruct (I2 c Hc0) as [H | [H | [H | H]]];
      [now left | right; now left | right; right; now rewrite <- Hid | contradiction]. }
  destruct (validate_all_skipped s2 d' req (c0 :: rest0) Hall) as [sk2 [E2 Hsk]].
  exists sk2; split.
  - unfold addCollaboratorsToDeadline; rewrite Ed'.
    replace (has_edit_permission s2 d' req) with true; [cbv [negb]; now rewrite E2 |].
    assert (Hreq : getCollaboratorRole s2 did req = getCollaboratorRole s did req)
      by (apply Hout; intro Hr; destruct (I1 req Hr) as [_ [Hne _]]; now apply Hne).
    rewrite <- Ep; unfold has_edit_permission; rewrite Hst, Hid', Hid, Hreq; reflexivity.
  - intros r Hr; change (In (AIRow r) (map AIRow (r0 :: rs))) in Hr.
    apply in_map_iff in Hr as [r' [Er Hr]]; injection Er as ->.
    destruct (I1 _ (Hrows r Hr)) as [Hc0 [Hne1 [Hne2 _]]].
    apply Hsk; [exact Hc0 | exact Hne1 | congruence].
Qed.

(** Dropping the requester and the owner from the candidates changes the
    validation only by their skip entries. *)
Lemma validate_drop_self_owner s d req cands :
  validate s d req (filter (fun c => negb (c =? req) && negb (c =? student_id d)) cands) =
  match validate s d req cands with
  | inl e => inl e
  | inr (v, sk) =>
      inr (v, filter (fun e => negb (sk_user e =? req) && negb (sk_user e =? student_id d)) sk)
  end.
Proof.
  induction cands as [| c rest IH]; [reflexivity |].
  cbn [filter validate].
  destruct (c =? req) eqn:Er; cbn [negb andb].
  - rewrite IH; destruct (validate s d req rest) as [e | [v sk]]; cbn [filter sk_user];
      rewrite ?Er; reflexivity.
  - destruct (c =? student_id d) eqn:Eo; cbn [negb andb].
    + rewrite IH; destruct (validate s d req rest) as [e | [v sk]]; cbn [filter sk_user];
        rewrite ?Er, ?Eo; reflexivity.
    + cbn [validate]; rewrite Er, Eo.
      destruct (getCollaboratorRole s (d_id d) c);
        [| destruct (negb (user_exists s c)); [| destruct (negb _)]];
        rewrite ?IH; destruct (validate s d req rest) as [e | [v sk]]; cbn [filter sk_user];
        rewrite ?Er, ?Eo; reflexivity.
Qed.

(** The requester and the owner, when among the candidates, get their own
    skip entries. *)
Lemma validate_skip_self_owner s d req cands v sk :
  validate s d req cands = inr (v, sk) ->
  (In req cands -> In {| sk_user := req; sk_reason := reason_self |} sk) /\
  (In (student_id d) cands -> student_id d <> req ->
   In {| sk_user := student_id d; sk_reason := reason_owner |} sk).
Proof.
  revert v sk; induction cands as [| c rest IH]; intros v sk E; [split; intros [] |].
  cbn [validate] in E; revert E.
  destruct (validate s d req rest) as [e | [v' sk']] eqn:E'.
  { destruct (c =? req); [discriminate |]; destruct (c =? student_id d); [discriminate |].
    destruct (getCollaboratorRole s (d_id d) c); [discriminate |].
    destruct (negb (user_exists s c)); [discriminate |].
    destruct (negb _); discriminate. }
  destruct (IH v' sk' eq_refl) as [I1 I2].
  destruct (Z.eqb_spec c req) as [Hr | Hr].
  { intro E; injection E as <- <-; subst c; split; [intros _; now left |].
    intros [Ho | Hin] Hne; [congruence | right; now apply I2]. }
  destruct (Z.eqb_spec c (student_id d)) as [Ho | Ho].
  { intro E; injection E as <- <-; split.
    - intros [Hc | Hin]; [congruence | right; now apply I1].
    - intros _ _; rewrite Ho; now left. }
  destruct (getCollaboratorRole s (d_id d) c) as [row |].
  { intro E; injection E as <- <-; split.
    - intros [Hc | Hin]; [congruence | right; now apply I1].
    - intros [Hc | Hin] Hne; [congruence | right; now apply I2]. }
  destruct (negb (user_exists s c)); [discriminate |].
  destruct (negb _); [discriminate |].
  intro E; injection E as <- <-; split.
  - intros [Hc | Hin]; [congruence | now apply I1].
  - intros [Hc | Hin] Hne; [congruence | now apply I2].
Qed.

(** C4, counterexample: in the copy mode ([create_copies = true]) adding
    user 2 to deadline 10 twice makes two copies, 11 then 12; the second call
    reports no ['already a collaborator'] skip, since a copy gives no row on
    the original deadline. *)
Lemma addCollaboratorsToDeadline_copy_mode_repeats :
  match addCollaboratorsToDeadline 10 1 [2] true default_copy_options 0 Scenario.s0 with
  | (s1, r1) =>
      r1 = Ok200 [AICopy (CRCopy 2 11 10)] [] [] /\
      snd (addCollaboratorsToDeadline 10 1 [2] true default_copy_options 0 s1) =
      Ok200 [AICopy (CRCopy 2 12 10)] [] []
  end.
Proof. vm_compute; split; reflexivity. Qed.

(** C4 (amended).  [addCollaboratorsToDeadline]:
    - keeps [(deadline_id, user_id)] unique among the collaborator rows, in
      every mode;
    - in the plain mode ([create_copies = false]), a second identical call
      after a successful one accepts nobody ([400 'No valid collaborators to
      add']) and skips each user added by the first call with ['User is
      already a collaborator'];
    - the requester and the owner among the candidates change the
      validation only by their skip entries (['Cannot add yourself as
      collaborator'], ['... they already own this deadline']): the accepted
      list and any error are those of the candidates without them;
    - on deadline 10 of user 1 edited by user 3, [addCollaborators(10, 3,
      [2, 3, 1], create_copies = false)] adds user 2 and skips users 3 and 1.
    In the copy mode the idempotence does not hold (see the counterexample). *)
Theorem addCollaboratorsToDeadline_idempotent_plain :
  (forall did req cands cc opts now s,
     dc_keys_unique s ->
     dc_keys_unique (fst (addCollaboratorsToDeadline did req cands cc opts now s))) /\
  (forall did req cands opts now s s1 added denied sk,
     addCollaboratorsToDeadline did req cands false opts now s = (s1, Ok200 added denied sk) ->
     exists sk2,
       addCollaboratorsToDeadline did req cands false opts now s1 =
         (s1, BadRequest400 BRNoValid sk2) /\
       forall r, In (AIRow r) added ->
         In {| sk_user := dc_user_id r; sk_reason := reason_already |} sk2) /\
  (forall s d req cands,
     validate s d req (filter (fun c => negb (c =? req) && negb (c =? student_id d)) cands) =
     match validate s d req cands with
     | inl e => inl e
     | inr (v, sk) =>
         inr (v, filter (fun e => negb (sk_user e =? req) && negb (sk_user e =? student_id d)) sk)
     end) /\
  (forall s d req cands v sk,
     validate s d req cands = inr (v, sk) ->
     (In req cands -> In {| sk_user := req; sk_reason := reason_self |} sk) /\
     (In (student_id d) cands -> student_id d <> req ->
      In {| sk_user := student_id d; sk_reason := reason_owner |} sk)) /\
  snd (addCollaboratorsToDeadline 10 3 [2; 3; 1] false default_copy_options 0 Scenario.s_edit) =
  Ok200 [AIRow {| dc_id := 3; dc_deadline_id := 10; dc_user_id := 2; dc_role := "collaborator";
                  dc_can_edit := true; dc_can_delete := false |}] []
        [{| sk_user := 3; sk_reason := reason_self |}; {| sk_user := 1; sk_reason := reason_owner |}].
Proof.
  split; [| split; [| split; [| split]]].
  - intros did req cands cc opts now s Hk.
    destruct (addCollaboratorsToDeadline_state did req cands cc opts now s) as [E | [valid E]];
      rewrite E; [exact Hk | now apply addCollaboratorsWithCopies_keys].
  - exact addCollaboratorsToDeadline_plain_twice.
  - exact validate_drop_self_owner.
  - exact validate_skip_self_owner.
  - vm_compute; reflexivity.
Qed.

Lemma addCollaboratorsToDeadline_idempotent_plain_witness :
  dc_keys_unique
    (fst (addCollaboratorsToDeadline 10 3 [2; 3; 1] false default_copy_options 0 Scenario.s_edit)) /\
  (exists sk2,
     addCollaboratorsToDeadline 10 3 [2; 3; 1] false default_copy_options 0
       (fst (addCollaboratorsToDeadline 10 3 [2; 3; 1] false default_copy_options 0 Scenario.s_edit)) =
     (fst (addCollaboratorsToDeadline 10 3 [2; 3; 1] false default_copy_options 0 Scenario.s_edit),
      BadRequest400 BRNoValid sk2) /\
     In {| sk_user := 2; sk_reason := reason_already |} sk2) /\
  In {| sk_user := 3; sk_reason := reason_self |}
     [{| sk_user := 3; sk_reason := reason_self |}; {| sk_user := 1; sk_reason := reason_owner |}].
Proof.
  destruct addCollaboratorsToDeadline_idempotent_plain as [H1 [H2 [_ [H4 _]]]].
  pose (r := addCollaboratorsToDeadline 10 3 [2; 3; 1] false default_copy_options 0 Scenario.s_edit).
  pose (row := {| dc_id := 3; dc_deadline_id := 10; dc_user_id := 2; dc_role := "collaborator";
                  dc_can_edit := true; dc_can_delete := false |}).
  assert (E : r = (fst r, Ok200 [AIRow row] []
                     [{| sk_user := 3; sk_reason := reason_self |};
                      {| sk_user := 1; sk_reason := reason_owner |}]))
    by (vm_compute; reflexivity).
  split; [| split].
  - apply H1; unfold dc_keys_unique; simpl.
    constructor; [simpl; intros [H | []]; discriminate | constructor; [intros [] | constructor]].
  - destruct (H2 10 3 [2; 3; 1] default_copy_options 0 Scenario.s_edit (fst r) [AIRow row] []
                _ E) as [sk2 [E2 Hsk]].
    exists sk2; split; [exact E2 | exact (Hsk row (or_introl eq_refl))].
  - refine (proj1 (H4 Scenario.s_edit Scenario.essay 3 [2; 3; 1] [2]
                      [{| sk_user := 3; sk_reason := reason_self |};
                       {| sk_user := 1; sk_reason := reason_owner |}] _) _);
      [vm_compute; reflexivity | simpl; auto].
Defined.

(** ** The reminder pass *)

(** The marker is never written: the database is left as it was. *)
Lemma mark_noop id kind now t : markNotificationSent id kind now t = t.
Proof. reflexivity. Qed.

Section ReminderPass.
Variables (isR isI : Z -> string -> bool) (eok iok : Z -> Z -> string -> Z -> bool).

Lemma notify_one_events e i u did kind now ev :
  In ev (fst (notify_one eok iok e i u did kind now)) -> ev_deadline ev = did /\ ev_kind ev = kind.
Proof.
  unfold notify_one; destruct (negb e && negb i); [intros [] |].
  cbn [fst]; intro H; apply in_app_or in H as [H | H];
    [destruct e | destruct i]; cbn in H; try contradiction; destruct H as [<- | []]; now split.
Qed.

(** [emailSuccess || inAppSuccess] is the success of one of the attempts. *)
Lemma notify_one_ok e i u did kind now :
  existsb ev_ok (fst (notify_one eok iok e i u did kind now)) =
  snd (notify_one eok iok e i u did kind now).
Proof.
  unfold notify_one; destruct e, i; cbn; try reflexivity;
    destruct (eok u did kind now), (iok u did kind now); reflexivity.
Qed.
End ReminderPass.

Section ReminderFolds.
Variables (isR isI : Z -> string -> bool) (eok iok : Z -> Z -> string -> Z -> bool).

(** One deadline of a pass: the database is unchanged, or
    [markNotificationSent] is called and one of the attempts succeeded;
    every attempt is for this deadline and kind. *)
Lemma sendDeadline_spec d kind now t :
  (fst (sendDeadlineNotificationToAllCollaborators isR isI eok iok d kind now t) = t \/
   (fst (sendDeadlineNotificationToAllCollaborators isR isI eok iok d kind now t) =
      markNotificationSent (d_id d) kind now t /\
    exists ev, In ev (snd (sendDeadlineNotificationToAllCollaborators isR isI eok iok d kind now t)) /\
               ev_ok ev = true)) /\
  (forall ev, In ev (snd (sendDeadlineNotificationToAllCollaborators isR isI eok iok d kind now t)) ->
              ev_deadline ev = d_id d /\ ev_kind ev = kind).
Proof.
  unfold sendDeadlineNotificationToAllCollaborators; cbv zeta.
  set (rs := map (fun p => notify_one eok iok (isR (fst p) kind) (isI (fst p) kind)
                                      (fst p) (d_id d) kind now)
                 (getNotificationRecipients t (d_id d))).
  assert (Hev : forall ev, In ev (List.concat (map fst rs)) -> ev_deadline ev = d_id d /\ ev_kind ev = kind).
  { intros ev H; apply in_concat in H as [l [Hl Hin]]; apply in_map_iff in Hl as [x [<- Hx]].
    unfold rs in Hx; apply in_map_iff in Hx as [p [<- _]].
    exact (notify_one_events eok iok _ _ _ _ _ _ _ Hin). }
  destruct (existsb snd rs) eqn:E; cbn [fst snd]; (split; [| exact Hev]); [right | now left].
  split; [reflexivity |].
  apply existsb_exists in E as [x [Hx Hs]].
  pose proof Hx as Hx'; unfold rs in Hx'; apply in_map_iff in Hx' as [p [<- _]].
  rewrite <- notify_one_ok in Hs; apply existsb_exists in Hs as [ev [Hin Hok]].
  exists ev; split; [| exact Hok].
  apply in_concat; eexists; split; [apply in_map; exact Hx | exact Hin].
Qed.

(** An invariant of the accumulator kept by each deadline of a pass. *)
Lemma pass_fold_inv (P : db -> list event -> Prop) now kind L t evs :
  (forall d t evs, In d L -> P t evs ->
     P (fst (sendDeadlineNotificationToAllCollaborators isR isI eok iok d kind now t))
       (evs ++ snd (sendDeadlineNotificationToAllCollaborators isR isI eok iok d kind now t))) ->
  P t evs ->
  let r := fold_left (fun (acc : db * list event) (d : deadline) =>
               let (s1, evs) := acc in
               let (s2, evs2) := sendDeadlineNotificationToAllCollaborators isR isI eok iok d kind now s1 in
               (s2, evs ++ evs2)) L (t, evs) in
  P (fst r) (snd r).
Proof.
  revert t evs; induction L as [| d L IH]; intros t evs H Ht; [exact Ht |].
  cbn [fold_left].
  pose proof (H d t evs (or_introl eq_refl) Ht) as Hd.
  destruct (sendDeadlineNotificationToAllCollaborators isR isI eok iok d kind now t) as [t2 evs2].
  apply IH; [intros d' t' evs' Hd'; apply H; now right | exact Hd].
Qed.

(** The same for the passes of [checkAndSendNotifications]. *)
Lemma check_fold_inv (P : db -> list event -> Prop) now LT t evs :
  (forall lt t evs, In lt LT -> P t evs ->
     P (fst (sendNotificationForTimeframe isR isI eok iok now (fst lt) (snd lt) t))
       (evs ++ snd (sendNotificationForTimeframe isR isI eok iok now (fst lt) (snd lt) t))) ->
  P t evs ->
  let r := fold_left (fun (acc : db * list event) (lt : Z * string) =>
               let (s1, evs) := acc in
               let (s2, evs2) := sendNotificationForTimeframe isR isI eok iok now (fst lt) (snd lt) s1 in
               (s2, evs ++ evs2)) LT (t, evs) in
  P (fst r) (snd r).
Proof.
  revert t evs; induction LT as [| lt LT IH]; intros t evs H Ht; [exact Ht |].
  cbn [fold_left].
  pose proof (H lt t evs (or_introl eq_refl) Ht) as Hd.
  destruct (sendNotificationForTimeframe isR isI eok iok now (fst lt) (snd lt) t) as [t2 evs2].
  apply IH; [intros lt' t' evs' Hl; apply H; now right | exact Hd].
Qed.
End ReminderFolds.

Lemma nodup_ids_eq ds d d' :
  NoDup (map d_id ds) -> In d ds -> In d' ds -> d_id d = d_id d' -> d = d'.
Proof.
  induction ds as [| x ds IH]; intros Hnd Hd Hd' He; [contradiction |].
  inversion Hnd as [| ? ? Hnin Hnd']; subst.
  destruct Hd as [<- | Hd], Hd' as [<- | Hd']; auto.
  - exfalso; apply Hnin; rewrite He; apply in_map; exact Hd'.
  - exfalso; apply Hnin; rewrite <- He; apply in_map; exact Hd.
Qed.




(** ** The overdue pass *)

(** The status loop: every row whose id is among the selected ones becomes
    ['overdue']. *)
Lemma status_fold_deadlines L s :
  deadlines (fold_left (fun s1 d => updateDeadlineStatus (d_id d) "overdue" s1) L s) =
  map (fun d => if existsb (fun e => d_id d =? d_id e) L then with_status "overdue" d else d)
      (deadlines s).
Proof.
  revert s; induction L as [| e L IH]; intro s; cbn [fold_left existsb].
  - symmetry; apply map_id.
  - rewrite IH; unfold updateDeadlineStatus, update_deadline, set_deadlines; cbn [deadlines].
    rewrite map_map; apply map_ext; intro d.
    destruct (d_id d =? d_id e) eqn:E; cbn [orb].
    + cbn [with_status d_id]; destruct (existsb _ L); reflexivity.
    + reflexivity.
Qed.

(** With unique ids, a row is hit by the ids of a selection of the table
    exactly when it is selected. *)
Lemma existsb_filter_id ds (p : deadline -> bool) d :
  NoDup (map d_id ds) -> In d ds -> existsb (fun e => d_id d =? d_id e) (filter p ds) = p d.
Proof.
  intros Hnd Hd; destruct (p d) eqn:Hp.
  - apply existsb_exists; exists d; split; [apply filter_In; now split | apply Z.eqb_refl].
  - apply not_true_iff_false; intro H; apply existsb_exists in H as [e [He Hid]].
    apply filter_In in He as [He Hpe]; apply Z.eqb_eq in Hid.
    rewrite (nodup_ids_eq _ d e Hnd Hd He Hid) in Hp; congruence.
Qed.

Lemma status_in_not_deleted d :
  status d <> "deleted"%string ->
  status_in d ["completed"%string; "deleted"%string; "overdue"%string] =
  status_in d ["completed"%string; "overdue"%string].
Proof.
  intro H; unfold status_in; cbn [existsb].
  destruct (String.eqb_spec (status d) "deleted"); [contradiction | reflexivity].
Qed.

(** Markers and overdue notifications leave ids, due dates and statuses. *)
Lemma mark_status_view id kind now t :
  map (fun d => (d_id d, due_date d, status d)) (deadlines (markNotificationSent id kind now t)) =
  map (fun d => (d_id d, due_date d, status d)) (deadlines t).
Proof.
  rewrite mark_noop; reflexivity.
Qed.

Lemma overdue_loop_status_view hO hIO eok iok now s :
  map (fun d => (d_id d, due_date d, status d))
      (deadlines (fst (checkOverdueDeadlines hO hIO eok iok now s))) =
  map (fun d => (d_id d, due_date d, status d)) (deadlines (status_scan now s)).
Proof.
  unfold checkOverdueDeadlines; cbv zeta.
  generalize (@nil event) as evs; generalize (status_scan now s) as t.
  generalize (recently_overdue s now) as L.
  induction L as [| d L IH]; intros t evs; [reflexivity |]; cbn [fold_left].
  destruct (shouldSendOverdueNotification _ now); [| apply IH].
  pose proof (eq_refl (sendOverdueNotificationToAllCollaborators hO hIO eok iok d now t)) as E.
  unfold sendOverdueNotificationToAllCollaborators at 2 in E; cbv zeta in E.
  destruct (sendOverdueNotificationToAllCollaborators hO hIO eok iok d now t) as [t3 evs3].
  rewrite IH; destruct (existsb _ _) in E; injection E as -> _;
    [apply mark_status_view | reflexivity].
Qed.

(** C7.  After the overdue pass [checkOverdueDeadlines] (whatever the
    preferences, the notifier outcomes and the throttling decisions), and
    after the daily [updateOverdueDeadlines], the ids, due dates and statuses
    of the deadlines are those before, with every row due in the past and
    neither ['completed'] nor ['overdue'] now ['overdue']: a ['completed']
    row keeps its status and an ['overdue'] row stays ['overdue'].  Assumed
    of the table: unique ids (the primary key) and statuses allowed by its
    [CHECK] constraint. *)
Theorem checkOverdueDeadlines_status (hO hIO : Z -> bool) (eok iok : Z -> Z -> string -> Z -> bool)
  (now : Z) (s : db) :
  NoDup (map d_id (deadlines s)) ->
  (forall d, In d (deadlines s) ->
             In (status d) ["pending"%string; "in_progress"%string; "completed"%string; "overdue"%string]) ->
  map (fun d => (d_id d, due_date d, status d))
      (deadlines (fst (checkOverdueDeadlines hO hIO eok iok now s))) =
  map (fun d => (d_id d, due_date d,
                 if (due_date d <? now) && negb (status_in d ["completed"%string; "overdue"%string])
                 then "overdue"%string else status d)) (deadlines s) /\
  map (fun d => (d_id d, due_date d, status d)) (deadlines (updateOverdueDeadlines now s)) =
  map (fun d => (d_id d, due_date d,
                 if (due_date d <? now) && negb (status_in d ["completed"%string; "overdue"%string])
                 then "overdue"%string else status d)) (deadlines s).
Proof.
  intros Hnd Hst; split.
  - rewrite overdue_loop_status_view; unfold status_scan; rewrite status_fold_deadlines, map_map.
    apply map_ext_in; intros d Hd; unfold all_overdue.
    rewrite (existsb_filter_id _ _ d Hnd Hd), status_in_not_deleted.
    + destruct (_ && _); reflexivity.
    + intro Hdel; specialize (Hst d Hd); rewrite Hdel in Hst.
      destruct Hst as [H | [H | [H | [H | []]]]]; discriminate.
  - unfold updateOverdueDeadlines, set_deadlines; cbn [deadlines]; rewrite map_map.
    apply map_ext; intro d; destruct (_ && _); reflexivity.
Qed.

Lemma checkOverdueDeadlines_status_witness :
  map (fun d => (d_id d, due_date d, status d))
      (deadlines (fst (checkOverdueDeadlines (fun _ => true) (fun _ => true)
                         Scenario.all_ok Scenario.all_ok 5000 Scenario.s_copy))) =
  [(10, 1000, "overdue"%string); (20, 1000, "overdue"%string)].
Proof.
  destruct (checkOverdueDeadlines_status (fun _ => true) (fun _ => true)
              Scenario.all_ok Scenario.all_ok 5000 Scenario.s_copy) as [H _].
  - vm_compute; constructor; [intros [H | []]; discriminate | constructor; [intros [] | constructor]].
  - intros d [<- | [<- | []]]; vm_compute; auto.
  - rewrite H; vm_compute; reflexivity.
Defined.

(** * Further properties of the models *)

(** ** Friendship requests *)

Lemma find_ext_in {A} (p q : A -> bool) (l : list A) :
  (forall x, In x l -> p x = q x) -> find p l = find q l.
Proof.
  induction l as [| a l IH]; intro H; [reflexivity |]; simpl.
  rewrite (H a (or_introl eq_refl)); destruct (q a); [reflexivity |].
  apply IH; intros x Hx; apply H; now right.
Qed.

Lemma find_filter_impl {A} (p q : A -> bool) (l : list A) :
  (forall x, In x l -> p x = true -> q x = true) -> find p (filter q l) = find p l.
Proof.
  induction l as [| a l IH]; intro H; [reflexivity |]; simpl.
  destruct (p a) eqn:Ep.
  - rewrite (H a (or_introl eq_refl) Ep); simpl; now rewrite Ep.
  - destruct (q a); simpl; [rewrite Ep |]; apply IH; intros x Hx; apply H; now right.
Qed.

Lemma filter_all {A} (p : A -> bool) (l : list A) :
  (forall x, In x l -> p x = true) -> filter p l = l.
Proof.
  induction l as [| a l IH]; intro H; [reflexivity |]; simpl.
  rewrite (H a (or_introl eq_refl)); f_equal; apply IH; intros x Hx; apply H; now right.
Qed.

Lemma links_sym a b r : Friend.links a b r = Friend.links b a r.
Proof. unfold Friend.links; apply orb_comm. Qed.

Lemma getFriendshipStatus_links s a b :
  getFriendshipStatus s a b = find (Friend.links a b) (friends s).
Proof. reflexivity. Qed.

Lemma getFriendshipStatus_sym s a b : getFriendshipStatus s a b = getFriendshipStatus s b a.
Proof.
  rewrite !getFriendshipStatus_links; apply find_ext_in; intros; apply links_sym.
Qed.

Lemma user_exists_set_friends s fs x : user_exists (set_friends s fs) x = user_exists s x.
Proof. reflexivity. Qed.

Lemma links_pair u f st : Friend.links u f (Friend.mk_friend u f st) = true.
Proof. unfold Friend.links; simpl; now rewrite !Z.eqb_refl. Qed.

Lemma links_pair' u f st : Friend.links u f (Friend.mk_friend f u st) = true.
Proof. unfold Friend.links; simpl; rewrite !Z.eqb_refl; apply orb_true_r. Qed.

Lemma getFriendshipStatus_found s a b r :
  getFriendshipStatus s a b = Some r -> Friend.links a b r = true.
Proof. rewrite getFriendshipStatus_links; intro H; now apply find_some in H. Qed.

Lemma set_link_status_find st u f a b s :
  getFriendshipStatus (fst (Friend.set_link_status st u f s)) a b =
  option_map (fun r => if Friend.links u f r then Friend.set_status st r else r)
             (getFriendshipStatus s a b).
Proof.
  rewrite !getFriendshipStatus_links; unfold Friend.set_link_status; cbn [fst friends set_friends].
  apply find_map_pres; intro r; destruct (Friend.links u f r); reflexivity.
Qed.

(** The row found for the pair [(u, f)] after its status is set. *)
Lemma set_link_status_pair st u f s a b :
  (a = u /\ b = f \/ a = f /\ b = u) ->
  getFriendshipStatus (fst (Friend.set_link_status st u f s)) a b =
  option_map (Friend.set_status st) (getFriendshipStatus s u f).
Proof.
  intro Hab; rewrite set_link_status_find.
  assert (E : getFriendshipStatus s a b = getFriendshipStatus s u f)
    by (destruct Hab as [[-> ->] | [-> ->]]; [reflexivity | apply getFriendshipStatus_sym]).
  rewrite E; destruct (getFriendshipStatus s u f) as [r |] eqn:Er; [| reflexivity].
  apply getFriendshipStatus_found in Er; simpl; now rewrite Er.
Qed.

Lemma remove_links_none u f s a b :
  (a = u /\ b = f \/ a = f /\ b = u) ->
  getFriendshipStatus (fst (Friend.removeFriend u f s)) a b = None.
Proof.
  intro Hab; rewrite getFriendshipStatus_links; unfold Friend.removeFriend; cbn [fst friends set_friends].
  apply find_none_iff; intros r Hr; apply filter_In in Hr as [_ Hr].
  apply negb_true_iff in Hr.
  destruct Hab as [[-> ->] | [-> ->]]; [exact Hr | now rewrite links_sym].
Qed.

(** A row linking [a] and [b] links [u] and [f] only when the pairs agree. *)
Lemma links_other_pair u f a b r :
  ~ (a = u /\ b = f) -> ~ (a = f /\ b = u) ->
  Friend.links a b r = true -> Friend.links u f r = false.
Proof.
  unfold Friend.links; intros H1 H2 Hab.
  destruct (Z.eqb_spec (f_user_id r) a), (Z.eqb_spec (f_friend_id r) b),
    (Z.eqb_spec (f_user_id r) b), (Z.eqb_spec (f_friend_id r) a);
    cbn [andb orb] in Hab; try discriminate;
    destruct (Z.eqb_spec (f_user_id r) u), (Z.eqb_spec (f_friend_id r) f),
      (Z.eqb_spec (f_user_id r) f), (Z.eqb_spec (f_friend_id r) u);
    cbn [andb orb]; try reflexivity;
    exfalso; first [apply H1; split; congruence | apply H2; split; congruence].
Qed.

(** X1. A friend request is refused, leaving the database unchanged, when
    any row already links the two users (whatever its status) or when a
    user asks themself; otherwise it adds a ['pending'] row in each
    direction, which both lookups find, and the two users are not friends
    yet. *)
Theorem sendFriendRequest_pending (u f : Z) (s : db) :
  ((exists r, getFriendshipStatus s u f = Some r) ->
   Friend.sendFriendRequest u f s =
   (s, Thrown "Friendship request already exists or users are already friends")) /\
  (u = f -> exists m, Friend.sendFriendRequest u f s = (s, Thrown m)) /\
  (getFriendshipStatus s u f = None -> u <> f -> user_exists s u = true -> user_exists s f = true ->
   let s' := fst (Friend.sendFriendRequest u f s) in
   friends s' = friends s ++ [Friend.mk_friend u f "pending"; Friend.mk_friend f u "pending"] /\
   getFriendshipStatus s' u f = Some (Friend.mk_friend u f "pending") /\
   getFriendshipStatus s' f u = Some (Friend.mk_friend u f "pending") /\
   Friend.areFriends s' u f = false /\ Friend.areFriends s' f u = false).
Proof.
  split; [| split].
  - intros [r Hr]; unfold Friend.sendFriendRequest; now rewrite Hr.
  - intros <-; unfold Friend.sendFriendRequest.
    destruct (getFriendshipStatus s u u); [eexists; reflexivity |].
    unfold Friend.insert_rows; rewrite Z.eqb_refl; eexists; reflexivity.
  - intros Hn Hne Hu Hf; unfold Friend.sendFriendRequest; rewrite Hn.
    unfold Friend.insert_rows.
    replace (u =? f) with false by (symmetry; now apply Z.eqb_neq).
    rewrite Hu, Hf; cbn [negb andb fst].
    assert (Hs : getFriendshipStatus
                   (set_friends s (friends s ++ [Friend.mk_friend u f "pending"; Friend.mk_friend f u "pending"]))
                   u f = Some (Friend.mk_friend u f "pending")).
    { rewrite getFriendshipStatus_links; cbn [friends set_friends].
      rewrite find_app_none by (now rewrite <- getFriendshipStatus_links).
      simpl; now rewrite links_pair. }
    split; [reflexivity |]; split; [exact Hs |]; split; [now rewrite getFriendshipStatus_sym |].
    unfold Friend.areFriends; split; [now rewrite Hs |].
    rewrite getFriendshipStatus_sym; now rewrite Hs.
Qed.

Lemma sendFriendRequest_pending_witness :
  getFriendshipStatus Scenario.s0 2 3 = None /\
  friends (fst (Friend.sendFriendRequest 2 3 Scenario.s0)) =
    friends Scenario.s0 ++ [Friend.mk_friend 2 3 "pending"; Friend.mk_friend 3 2 "pending"] /\
  Friend.areFriends (fst (Friend.sendFriendRequest 2 3 Scenario.s0)) 3 2 = false /\
  Friend.sendFriendRequest 1 2 Scenario.s0 =
    (Scenario.s0, Thrown "Friendship request already exists or users are already friends").
Proof.
  destruct (sendFriendRequest_pending 2 3 Scenario.s0) as [_ [_ H]].
  destruct (H eq_refl ltac:(discriminate) eq_refl eq_refl) as (Hf & _ & _ & _ & Ha).
  destruct (sendFriendRequest_pending 1 2 Scenario.s0) as [Hx _].
  split; [reflexivity | split; [exact Hf | split; [exact Ha |]]].
  apply Hx; eexists; reflexivity.
Defined.

(** X2. [acceptFriendRequest(u, f)] makes the two users friends, in both
    directions, exactly when a row links them, whoever sent the request:
    the sender can accept their own request. *)
Theorem acceptFriendRequest_friends (u f : Z) (s : db) :
  let s' := fst (Friend.acceptFriendRequest u f s) in
  (Friend.areFriends s' u f = true <-> getFriendshipStatus s u f <> None) /\
  (Friend.areFriends s' f u = true <-> getFriendshipStatus s u f <> None).
Proof.
  unfold Friend.acceptFriendRequest, Friend.areFriends.
  rewrite (set_link_status_pair _ u f s u f) by (left; split; reflexivity).
  rewrite (set_link_status_pair _ u f s f u) by (right; split; reflexivity).
  destruct (getFriendshipStatus s u f); simpl; split; split; auto; congruence.
Qed.

(** X3. Once a request between [u] and [f] is declined, they are not
    friends, and a new request from either of them is refused with the
    database unchanged: a declined pair stays declined until the rows are
    removed. *)
Theorem declineFriendRequest_blocks_resend (u f : Z) (s : db)
  (Hrow : getFriendshipStatus s u f <> None) :
  let s' := fst (Friend.declineFriendRequest u f s) in
  Friend.areFriends s' u f = false /\ Friend.areFriends s' f u = false /\
  Friend.sendFriendRequest u f s' =
    (s', Thrown "Friendship request already exists or users are already friends") /\
  Friend.sendFriendRequest f u s' =
    (s', Thrown "Friendship request already exists or users are already friends").
Proof.
  cbv zeta; unfold Friend.declineFriendRequest, Friend.areFriends, Friend.sendFriendRequest.
  rewrite (set_link_status_pair _ u f s u f) by (left; split; reflexivity).
  rewrite (set_link_status_pair _ u f s f u) by (right; split; reflexivity).
  destruct (getFriendshipStatus s u f); [| contradiction].
  repeat split; reflexivity.
Qed.

Lemma declineFriendRequest_blocks_resend_witness :
  getFriendshipStatus Scenario.s0 1 2 <> None /\
  Friend.areFriends (fst (Friend.declineFriendRequest 1 2 Scenario.s0)) 2 1 = false.
Proof.
  split; [discriminate |].
  exact (proj1 (proj2 (declineFriendRequest_blocks_resend 1 2 Scenario.s0 ltac:(discriminate)))).
Defined.

(** X4. [removeFriend(u, f)] removes every link between the two users in
    both directions and keeps the rows of every other pair; after it, [u]
    cannot add [f] as a collaborator: the request fails with 400 ['User f
    is not in your friends list'] and changes nothing. *)
Theorem removeFriend_unlinks (u f : Z) (s : db) :
  let s' := fst (Friend.removeFriend u f s) in
  getFriendshipStatus s' u f = None /\ getFriendshipStatus s' f u = None /\
  (forall a b, ~ (a = u /\ b = f) -> ~ (a = f /\ b = u) ->
   getFriendshipStatus s' a b = getFriendshipStatus s a b) /\
  deadlines s' = deadlines s /\ dcs s' = dcs s /\ users s' = users s /\
  (forall did d create_copies opts now,
     find_deadline s did = Some d -> has_edit_permission s d u = true ->
     f <> u -> f <> student_id d -> getCollaboratorRole s did f = None -> user_exists s f = true ->
     addCollaboratorsToDeadline did u [f] create_copies opts now s' =
     (s', BadRequest400 (BRNotFriends f) [])).
Proof.
  cbv zeta.
  assert (Hn : getFriendshipStatus (fst (Friend.removeFriend u f s)) u f = None)
    by (apply remove_links_none; left; split; reflexivity).
  split; [exact Hn |]; split; [apply remove_links_none; right; split; reflexivity |].
  split; [| split; [reflexivity | split; [reflexivity | split; [reflexivity |]]]].
  - intros a b H1 H2; rewrite !getFriendshipStatus_links; unfold Friend.removeFriend.
    cbn [fst friends set_friends]; apply find_filter_impl; intros r _ Hr.
    apply negb_true_iff; exact (links_other_pair u f a b r H1 H2 Hr).
  - intros did d cc opts now Hd Hp Hfu Hfo Hrole Hex.
    assert (Hd' : find_deadline (fst (Friend.removeFriend u f s)) did = Some d) by exact Hd.
    unfold addCollaboratorsToDeadline; rewrite Hd'.
    change (has_edit_permission (fst (Friend.removeFriend u f s)) d u) with (has_edit_permission s d u).
    rewrite Hp; cbn [negb].
    pose proof (find_deadline_id _ _ _ Hd) as Hid.
    cbn [validate].
    replace (f =? u) with false by (symmetry; now apply Z.eqb_neq).
    replace (f =? student_id d) with false by (symmetry; now apply Z.eqb_neq).
    change (getCollaboratorRole (fst (Friend.removeFriend u f s)) (d_id d) f)
      with (getCollaboratorRole s (d_id d) f).
    rewrite Hid, Hrole.
    change (user_exists (fst (Friend.removeFriend u f s)) f) with (user_exists s f).
    rewrite Hex, Hn; reflexivity.
Qed.

Lemma removeFriend_unlinks_witness :
  find_deadline Scenario.s0 10 = Some Scenario.essay /\
  has_edit_permission Scenario.s0 Scenario.essay 1 = true /\
  getCollaboratorRole Scenario.s0 10 2 = None /\ user_exists Scenario.s0 2 = true /\
  addCollaboratorsToDeadline 10 1 [2] false default_copy_options 0 (fst (Friend.removeFriend 1 2 Scenario.s0)) =
    (fst (Friend.removeFriend 1 2 Scenario.s0), BadRequest400 (BRNotFriends 2) []).
Proof.
  destruct (removeFriend_unlinks 1 2 Scenario.s0) as (_ & _ & _ & _ & _ & _ & H).
  split; [reflexivity | split; [reflexivity | split; [reflexivity | split; [reflexivity |]]]].
  apply (H 10 Scenario.essay false default_copy_options 0); (reflexivity || discriminate).
Defined.

(** X5. With both users known and distinct, [blockUser(u, f)] replaces the
    links of the pair with one ['blocked'] row from [u] to [f]: both
    lookups find it, the users are not friends, and a new request from
    either side is refused.  Only [u] can lift the block: [unblockUser(f,
    u)] deletes nothing, [unblockUser(u, f)] removes the link.  When the
    insert fails, the earlier removal of the links stays. *)
Theorem blockUser_unblockUser (u f : Z) (s : db) :
  ((u = f \/ user_exists s u = false \/ user_exists s f = false) ->
   fst (Friend.blockUser u f s) = fst (Friend.removeFriend u f s) /\
   exists m, snd (Friend.blockUser u f s) = Thrown m) /\
  (u <> f -> user_exists s u = true -> user_exists s f = true ->
   let s' := fst (Friend.blockUser u f s) in
   getFriendshipStatus s' u f = Some (Friend.mk_friend u f "blocked") /\
   getFriendshipStatus s' f u = Some (Friend.mk_friend u f "blocked") /\
   Friend.areFriends s' u f = false /\ Friend.areFriends s' f u = false /\
   (exists m, Friend.sendFriendRequest f u s' = (s', Thrown m)) /\
   friends (fst (Friend.unblockUser f u s')) = friends s' /\
   getFriendshipStatus (fst (Friend.unblockUser u f s')) u f = None).
Proof.
  split.
  - intro H; unfold Friend.blockUser, bind, Friend.removeFriend, Friend.insert_rows.
    rewrite !user_exists_set_friends.
    destruct (Z.eqb_spec u f) as [-> | Hne]; [split; [reflexivity | eexists; reflexivity] |].
    destruct H as [H | [H | H]]; [contradiction | |]; rewrite H;
      [| rewrite andb_false_r]; split; (reflexivity || (eexists; reflexivity)).
  - intros Hne Hu Hf; cbv zeta.
    set (kept := filter (fun r => negb (Friend.links u f r)) (friends s)).
    assert (Hkept : forall r, In r kept -> Friend.links u f r = false)
      by (intros r Hr; apply filter_In in Hr as [_ Hr]; now apply negb_true_iff).
    assert (Hs : fst (Friend.blockUser u f s) = set_friends s (kept ++ [Friend.mk_friend u f "blocked"])).
    { unfold Friend.blockUser, bind, Friend.removeFriend, Friend.insert_rows.
      rewrite !user_exists_set_friends.
      replace (u =? f) with false by (symmetry; now apply Z.eqb_neq); now rewrite Hu, Hf. }
    rewrite Hs.
    assert (Hnone : find (Friend.links u f) kept = None) by (apply find_none_iff; exact Hkept).
    assert (Hg : getFriendshipStatus (set_friends s (kept ++ [Friend.mk_friend u f "blocked"])) u f =
                 Some (Friend.mk_friend u f "blocked")).
    { rewrite getFriendshipStatus_links; cbn [friends set_friends].
      rewrite find_app_none by exact Hnone; simpl; now rewrite links_pair. }
    assert (Hg' : getFriendshipStatus (set_friends s (kept ++ [Friend.mk_friend u f "blocked"])) f u =
                  Some (Friend.mk_friend u f "blocked")) by (now rewrite getFriendshipStatus_sym).
    split; [exact Hg |]; split; [exact Hg' |].
    split; [unfold Friend.areFriends; now rewrite Hg |].
    split; [unfold Friend.areFriends; now rewrite Hg' |].
    split; [unfold Friend.sendFriendRequest; rewrite Hg'; eexists; reflexivity |].
    split.
    + unfold Friend.unblockUser; cbn [fst friends set_friends].
      apply filter_all; intros r Hr; apply negb_true_iff.
      unfold Friend.blocked_by.
      destruct (Z.eqb_spec (f_user_id r) f) as [E1 |]; [| reflexivity].
      destruct (Z.eqb_spec (f_friend_id r) u) as [E2 |]; [| reflexivity].
      exfalso; apply in_app_or in Hr as [Hr | [<- | []]].
      * specialize (Hkept r Hr); unfold Friend.links in Hkept; rewrite E1, E2 in Hkept.
        rewrite !Z.eqb_refl in Hkept; rewrite orb_true_r in Hkept; discriminate.
      * simpl in E1; congruence.
    + rewrite getFriendshipStatus_links; unfold Friend.unblockUser; cbn [fst friends set_friends].
      apply find_none_iff; intros r Hr; apply filter_In in Hr as [Hr Hb].
      apply in_app_or in Hr as [Hr | [<- | []]]; [exact (Hkept r Hr) |].
      unfold Friend.blocked_by in Hb; simpl in Hb; rewrite !Z.eqb_refl in Hb; discriminate.
Qed.

Lemma blockUser_unblockUser_witness :
  user_exists Scenario.s0 1 = true /\ user_exists Scenario.s0 2 = true /\
  getFriendshipStatus (fst (Friend.blockUser 1 2 Scenario.s0)) 2 1 = Some (Friend.mk_friend 1 2 "blocked") /\
  getFriendshipStatus (fst (Friend.unblockUser 1 2 (fst (Friend.blockUser 1 2 Scenario.s0)))) 1 2 = None /\
  fst (Friend.blockUser 1 4 Scenario.s0) = fst (Friend.removeFriend 1 4 Scenario.s0).
Proof.
  destruct (blockUser_unblockUser 1 2 Scenario.s0) as [_ H].
  destruct (H ltac:(discriminate) eq_refl eq_refl) as (_ & Hg & _ & _ & _ & _ & Hu).
  destruct (blockUser_unblockUser 1 4 Scenario.s0) as [H' _].
  split; [reflexivity | split; [reflexivity | split; [exact Hg | split; [exact Hu |]]]].
  apply H'; right; right; reflexivity.
Defined.

(** ** Notification preferences *)

Lemma kinds_on_any t : User.not_false (User.field_opt (Some User.kinds_on) t) = true.
Proof.
  unfold User.field_opt, User.field, User.kinds_on; cbn [find fst snd].
  destruct (String.eqb "2_days" t); [reflexivity |].
  destruct (String.eqb "1_day" t); [reflexivity |].
  destruct (String.eqb "12_hours" t); [reflexivity |].
  destruct (String.eqb "1_hour" t); reflexivity.
Qed.

(** X6. The catch defaults and the column default of the preference checks:
    for a user with no row the email and in-app reminders and overdue
    notices are on and both daily summaries off; a [null] column turns
    every check off; the column default turns every reminder kind on (also
    kinds it does not list) and both overdue notices on, and leaves the
    email daily summary off but the in-app one on (it has no
    [in_app_daily_summary] key). *)
Theorem preference_defaults (t : string) :
  (User.isReminderEnabled None t = true /\ User.isInAppReminderEnabled None t = true /\
   User.hasOverdueNotificationsEnabled None = true /\
   User.hasInAppOverdueNotificationsEnabled None = true /\
   User.hasDailySummaryEnabled None = false /\ User.hasInAppDailySummaryEnabled None = false) /\
  (User.isReminderEnabled (Some User.JNull) t = false /\
   User.isInAppReminderEnabled (Some User.JNull) t = false /\
   User.hasOverdueNotificationsEnabled (Some User.JNull) = false /\
   User.hasInAppOverdueNotificationsEnabled (Some User.JNull) = false /\
   User.hasDailySummaryEnabled (Some User.JNull) = false /\
   User.hasInAppDailySummaryEnabled (Some User.JNull) = false) /\
  (let p := Some User.default_preferences in
   User.isReminderEnabled p t = true /\ User.isInAppReminderEnabled p t = true /\
   User.hasOverdueNotificationsEnabled p = true /\ User.hasInAppOverdueNotificationsEnabled p = true /\
   User.hasDailySummaryEnabled p = false /\ User.hasInAppDailySummaryEnabled p = true).
Proof.
  split; [repeat split | split; [repeat split |]].
  cbv zeta; unfold User.isReminderEnabled, User.isInAppReminderEnabled.
  change (User.pref_check true ?c (Some User.default_preferences)) with
    (User.truthy User.default_preferences && c User.default_preferences); cbv beta.
  change (User.field User.default_preferences "reminders") with (Some User.kinds_on).
  change (User.field User.default_preferences "in_app_reminders") with (Some User.kinds_on).
  rewrite kinds_on_any; repeat split.
Qed.

(** X7. The switches of the preferences object: [email_enabled: false]
    turns every email check off, [in_app_enabled: false] every in-app one,
    whatever the other keys; a missing [reminders] (or [in_app_reminders])
    object turns the reminders of that channel off, while a missing
    [overdue_notifications] (or [in_app_overdue]) key leaves the overdue
    notices on. *)
Theorem preference_switches (p : User.json) (t : string) :
  (User.field p "email_enabled" = Some (User.JBool false) ->
   User.hasEmailNotificationsEnabled (Some p) = false /\ User.isReminderEnabled (Some p) t = false /\
   User.hasOverdueNotificationsEnabled (Some p) = false /\ User.hasDailySummaryEnabled (Some p) = false) /\
  (User.field p "in_app_enabled" = Some (User.JBool false) ->
   User.hasInAppNotificationsEnabled (Some p) = false /\ User.isInAppReminderEnabled (Some p) t = false /\
   User.hasInAppOverdueNotificationsEnabled (Some p) = false /\
   User.hasInAppDailySummaryEnabled (Some p) = false) /\
  (User.field p "reminders" = None -> User.isReminderEnabled (Some p) t = false) /\
  (User.field p "in_app_reminders" = None -> User.isInAppReminderEnabled (Some p) t = false) /\
  (User.field p "overdue_notifications" = None ->
   User.hasOverdueNotificationsEnabled (Some p) = User.hasEmailNotificationsEnabled (Some p)) /\
  (User.field p "in_app_overdue" = None ->
   User.hasInAppOverdueNotificationsEnabled (Some p) = User.hasInAppNotificationsEnabled (Some p)).
Proof.
  unfold User.hasEmailNotificationsEnabled, User.isReminderEnabled, User.hasOverdueNotificationsEnabled,
    User.hasDailySummaryEnabled, User.hasInAppNotificationsEnabled, User.isInAppReminderEnabled,
    User.hasInAppOverdueNotificationsEnabled, User.hasInAppDailySummaryEnabled, User.pref_check;
    cbn [User.getNotificationPreferences].
  split; [| split; [| split; [| split; [| split]]]]; intro H; rewrite H;
    cbn [User.not_false User.truthy_opt User.field_opt andb];
    rewrite ?andb_false_r, ?andb_true_r; repeat split.
Qed.

Lemma preference_switches_witness :
  let p := User.JObj [("email_enabled"%string, User.JBool false); ("in_app_enabled"%string, User.JBool true)] in
  User.field p "email_enabled" = Some (User.JBool false) /\
  User.hasOverdueNotificationsEnabled (Some p) = false /\
  User.field p "in_app_reminders" = None /\ User.isInAppReminderEnabled (Some p) "1_hour" = false /\
  User.field p "in_app_overdue" = None /\
  User.hasInAppOverdueNotificationsEnabled (Some p) = User.hasInAppNotificationsEnabled (Some p).
Proof.
  cbv zeta.
  destruct (preference_switches
              (User.JObj [("email_enabled"%string, User.JBool false); ("in_app_enabled"%string, User.JBool true)])
              "1_hour") as (He & _ & _ & Hr & _ & Ho).
  split; [reflexivity | split; [exact (proj1 (proj2 (proj2 (He eq_refl)))) |]].
  split; [reflexivity | split; [exact (Hr eq_refl) |]].
  split; [reflexivity | exact (Ho eq_refl)].
Defined.

(** ** Collaborator rows and permissions *)

(** The three cases of access resolution on an existing deadline. *)
Lemma access_resolution_cases (union_order : list access -> list access)
  (Hperm : forall l, Permutation (union_order l) l) (s : db) (did uid : Z) (d : deadline)
  (Hd : find_deadline s did = Some d) :
  (uid = student_id d -> owner_rows_are_owner s ->
   exists a, canAccessDeadline union_order s did uid = Returned (Some a)
             /\ acc_role a = "owner"%string) /\
  (uid <> student_id d -> dc_keys_unique s ->
   forall r, In r (dcs s) -> is_key did uid r = true ->
   canAccessDeadline union_order s did uid = Returned (Some (access_of_row r (student_id d)))) /\
  (uid <> student_id d -> (forall r, In r (dcs s) -> is_key did uid r = false) ->
   canAccessDeadline union_order s did uid = Returned None).
Proof.
  unfold canAccessDeadline; rewrite (access_rows_eq s did uid d Hd).
  split; [| split].
  - intros Hu Hown; subst uid; rewrite Z.eqb_refl.
    destruct (hd_error_perm_nonempty _ _ (Hperm (map (fun r => access_of_row r (student_id d))
                (filter (is_key did (student_id d)) (dcs s)) ++ [owner_access d])))
      as [a Ha].
    { intro E; apply app_eq_nil in E as [_ E]; discriminate. }
    rewrite Ha; exists a; split; [reflexivity |].
    eapply hd_error_perm_in in Ha; [| apply Hperm].
    apply in_app_or in Ha as [Ha | [<- | []]]; [| reflexivity].
    apply in_map_iff in Ha as [r [<- Hr]]; apply filter_In in Hr as [Hr Hk].
    apply is_key_true in Hk as [Hk1 Hk2]; simpl.
    apply (Hown r d Hr); [now rewrite Hk1 | exact Hk2].
  - intros Hu Huniq r Hr Hk.
    rewrite (filter_key_unique _ did uid r Huniq Hr Hk).
    replace (student_id d =? uid) with false by (symmetry; apply Z.eqb_neq; congruence).
    simpl; pose proof (Hperm [access_of_row r (student_id d)]) as Hp.
    apply Permutation_sym, Permutation_length_1_inv in Hp; now rewrite Hp.
  - intros Hu Hnone; rewrite (filter_key_none _ did uid Hnone).
    replace (student_id d =? uid) with false by (symmetry; apply Z.eqb_neq; congruence).
    simpl; pose proof (Hperm []) as Hp; apply Permutation_sym, Permutation_nil in Hp.
    rewrite Hp; simpl.
    rewrite Hd; now destruct existsb.
Qed.

Lemma access_missing_deadline (union_order : list access -> list access)
  (Hperm : forall l, Permutation (union_order l) l) (s : db) (did uid : Z) :
  find_deadline s did = None -> canAccessDeadline union_order s did uid = Returned None.
Proof.
  intro Hnone; unfold canAccessDeadline, access_rows; rewrite Hnone.
  assert (E : flat_map (fun r => if is_key did uid r then
                                   match find_deadline s (dc_deadline_id r) with
                                   | Some d => [access_of_row r (student_id d)]
                                   | None => []
                                   end else []) (dcs s) = []).
  { induction (dcs s) as [| r rs IH]; [reflexivity |].
    simpl; destruct (is_key did uid r) eqn:Ek; [| exact IH].
    apply is_key_true in Ek as [-> _]; rewrite Hnone; exact IH. }
  rewrite E; simpl.
  pose proof (Hperm []) as Hp; apply Permutation_sym, Permutation_nil in Hp.
  now rewrite Hp.
Qed.

Lemma nodup_map_filter {A B} (k : A -> B) (p : A -> bool) (l : list A) :
  NoDup (map k l) -> NoDup (map k (filter p l)).
Proof.
  induction l as [| a l IH]; simpl; intro H; [constructor |].
  inversion H as [| ? ? Hn Hnd]; subst.
  destruct (p a); simpl; [constructor |]; auto.
  intro Hin; apply Hn; apply in_map_iff in Hin as [x [Hx Hin]].
  apply filter_In in Hin as [Hin _]; rewrite <- Hx; now apply in_map.
Qed.

Lemma keys_map_same (g : dc_row -> dc_row) (l : list dc_row) :
  (forall r, dc_deadline_id (g r) = dc_deadline_id r /\ dc_user_id (g r) = dc_user_id r) ->
  map (fun r => (dc_deadline_id r, dc_user_id r)) (map g l) =
  map (fun r => (dc_deadline_id r, dc_user_id r)) l.
Proof.
  intro Hg; rewrite map_map; apply map_ext; intro r; now destruct (Hg r) as [-> ->].
Qed.

Lemma find_deadline_sync s did x :
  find_deadline (syncCollaboratorsToDeadline s did) x =
  option_map (fun d => if d_id d =? did then
                         with_collaborators
                           (map entry_of_row
                              (filter (fun r => (dc_deadline_id r =? did) && user_exists s (dc_user_id r))
                                      (dcs s))) d
                       else d) (find_deadline s x).
Proof. unfold syncCollaboratorsToDeadline; now rewrite find_deadline_update. Qed.

(** After a snapshot sync of a deadline, the second query of
    [getCollaborators] finds no copy-tracking entry: the snapshot holds
    rows of [deadline_collaborators], whose roles pass the [CHECK]. *)
Lemma sync_no_copies s did c :
  (forall r, In r (dcs s) -> role_ok (dc_role r) = true) ->
  ~ In (CICopy c) (getCollaborators (syncCollaboratorsToDeadline s did) did).
Proof.
  intros Hok Hin; unfold getCollaborators in Hin.
  apply in_app_or in Hin as [Hin | Hin].
  - apply in_map_iff in Hin as [r [E _]]; discriminate.
  - rewrite find_deadline_sync in Hin.
    destruct (find_deadline s did) as [d |] eqn:Hd; [| contradiction].
    cbn [option_map] in Hin.
    rewrite (proj2 (Z.eqb_eq _ _) (find_deadline_id _ _ _ Hd)) in Hin.
    apply in_map_iff in Hin as [c' [_ Hc]].
    apply filter_In in Hc as [Hc Ht]; cbn [collaborators with_collaborators] in Hc.
    apply in_map_iff in Hc as [r [<- Hr]]; apply filter_In in Hr as [Hr _].
    specialize (Hok r Hr); unfold is_copy_tagged, entry_of_row in Ht; cbn [se_role se_has_copy] in Ht.
    rewrite orb_false_r in Ht; apply String.eqb_eq in Ht; rewrite Ht in Hok; discriminate.
Qed.

Lemma removeCollaborator_state did uid s :
  fst (removeCollaborator did uid s) =
  syncCollaboratorsToDeadline (set_dcs s (filter (fun r => negb (is_key did uid r)) (dcs s))) did.
Proof. reflexivity. Qed.

(** X8. [removeCollaborator(D, U)] returns the row it deletes ([None] when
    there was none); afterwards [(D, U)] has no row, the rows of every
    other key are as before, the key stays unique, and a user who does not
    own [D] has no access to it any more, whatever order the [UNION] rows
    come in. *)
Theorem removeCollaborator_revokes (did uid : Z) (s : db) :
  let s' := fst (removeCollaborator did uid s) in
  snd (removeCollaborator did uid s) = Returned (getCollaboratorRole s did uid) /\
  getCollaboratorRole s' did uid = None /\
  (forall x y, (x <> did \/ y <> uid) -> getCollaboratorRole s' x y = getCollaboratorRole s x y) /\
  (dc_keys_unique s -> dc_keys_unique s') /\
  (forall union_order d, (forall l, Permutation (union_order l) l) ->
   find_deadline s did = Some d -> uid <> student_id d ->
   canAccessDeadline union_order s' did uid = Returned None).
Proof.
  cbv zeta; rewrite removeCollaborator_state.
  set (kept := filter (fun r => negb (is_key did uid r)) (dcs s)).
  assert (Hk : forall r, In r kept -> is_key did uid r = false)
    by (intros r Hr; apply filter_In in Hr as [_ Hr]; now apply negb_true_iff).
  split; [reflexivity |].
  split; [unfold getCollaboratorRole; apply find_none_iff; exact Hk |].
  split; [| split].
  - intros x y Hne; unfold getCollaboratorRole; cbn [dcs syncCollaboratorsToDeadline].
    change (dcs (syncCollaboratorsToDeadline (set_dcs s kept) did)) with kept.
    apply find_filter_impl; intros r _ Hr; apply negb_true_iff; exact (is_key_other x y did uid r Hne Hr).
  - unfold dc_keys_unique; change (dcs (syncCollaboratorsToDeadline (set_dcs s kept) did)) with kept.
    apply nodup_map_filter.
  - intros uo d Hperm Hd Hu.
    pose proof (find_deadline_sync (set_dcs s kept) did did) as Hd'.
    change (find_deadline (set_dcs s kept) did) with (find_deadline s did) in Hd'; rewrite Hd in Hd'.
    cbn [option_map] in Hd'.
    refine (proj2 (proj2 (access_resolution_cases uo Hperm _ did uid _ Hd')) _ Hk).
    destruct (d_id d =? did); exact Hu.
Qed.

Lemma removeCollaborator_revokes_witness :
  find_deadline Scenario.s_edit 10 = Some Scenario.essay /\
  canAccessDeadline (fun l => l) Scenario.s_edit 10 3 <> Returned None /\
  canAccessDeadline (fun l => l) (fst (removeCollaborator 10 3 Scenario.s_edit)) 10 3 = Returned None.
Proof.
  split; [reflexivity | split; [discriminate |]].
  destruct (removeCollaborator_revokes 10 3 Scenario.s_edit) as (_ & _ & _ & _ & H).
  apply (H (fun l => l) Scenario.essay (@Permutation_refl access) eq_refl).
  intro E; vm_compute in E; discriminate E.
Defined.

(** X9. The snapshot sync that follows [removeCollaborator] and a
    successful [addCollaborator] (with a role the [CHECK] admits) rebuilds
    the [collaborators] column from the rows of [deadline_collaborators]:
    the copy-tracking entries it held are gone, so [getCollaborators] no
    longer lists any. *)
Theorem sync_drops_copy_entries (did uid : Z) (s : db) :
  (forall r, In r (dcs s) -> role_ok (dc_role r) = true) ->
  (forall c, ~ In (CICopy c) (getCollaborators (fst (removeCollaborator did uid s)) did)) /\
  (forall role ce cd s' r, role_ok role = true ->
   addCollaborator did uid role ce cd s = (s', Returned r) ->
   forall c, ~ In (CICopy c) (getCollaborators s' did)).
Proof.
  intro Hok; split.
  - intro c; rewrite removeCollaborator_state; apply sync_no_copies.
    intros r Hr; apply filter_In in Hr as [Hr _]; exact (Hok r Hr).
  - intros role ce cd s' r Hrole Hadd c; unfold addCollaborator in Hadd.
    destruct (negb (deadline_exists s did && user_exists s uid)); [discriminate |].
    destruct (getCollaboratorRole s did uid) as [old |]; injection Hadd as <- _;
      apply sync_no_copies; cbn [dcs set_dcs].
    + intros x Hx; apply in_map_iff in Hx as [y [<- Hy]].
      destruct (is_key did uid y); [exact Hrole | exact (Hok y Hy)].
    + intros x Hx; apply in_app_or in Hx as [Hx | [<- | []]]; [exact (Hok x Hx) | exact Hrole].
Qed.

Lemma sync_drops_copy_entries_witness :
  In (CICopy Scenario.copy_entry) (getCollaborators Scenario.s_tagged 10) /\
  ~ In (CICopy Scenario.copy_entry) (getCollaborators (fst (removeCollaborator 10 3 Scenario.s_tagged)) 10).
Proof.
  split; [vm_compute; right; left; reflexivity |].
  refine (proj1 (sync_drops_copy_entries 10 3 Scenario.s_tagged _) _).
  intros r [<- | [<- | []]]; reflexivity.
Defined.

Lemma s_edit_keys_unique : dc_keys_unique Scenario.s_edit.
Proof.
  unfold dc_keys_unique; simpl.
  constructor; [intros [H | []]; discriminate H | constructor; [intros [] | constructor]].
Qed.

Lemma s_edit_owner_rows : owner_rows_are_owner Scenario.s_edit.
Proof.
  intros r d [<- | [<- | []]] Hf Hu; [reflexivity |].
  cbn in Hf; injection Hf as <-; cbn in Hu; discriminate Hu.
Qed.

Lemma updateCollaborator_cases did uid u s :
  (exists e, updateCollaborator did uid u s = (s, Thrown e)) \/
  updateCollaborator did uid u s =
    (set_dcs s (map (fun r => if is_key did uid r then apply_updates u r else r) (dcs s)),
     Returned (option_map (apply_updates u) (getCollaboratorRole s did uid))).
Proof.
  unfold updateCollaborator.
  destruct (up_role u), (up_can_edit u), (up_can_delete u); try (left; eexists; reflexivity);
    (destruct (_ && _); [left; eexists; reflexivity | right; reflexivity]).
Qed.

Lemma is_key_apply_updates did uid u r : is_key did uid (apply_updates u r) = is_key did uid r.
Proof. reflexivity. Qed.

(** X10. [updateCollaborator] throws ['No updates provided'] without
    touching the database when no field is given, and throws on an
    unchanged database when it would write a role the [CHECK] refuses.
    When it succeeds, it returns the row of [(D, U)] with the given fields
    replaced (or nothing when there is no such row), that row is what
    [getCollaboratorRole] then finds, every other key is untouched, the
    keys stay unique, and the [deadlines] table, with its
    [collaborators] snapshot, is left as it was (no sync follows). *)
Theorem updateCollaborator_spec (did uid : Z) (u : collab_updates) (s : db) :
  (up_role u = None -> up_can_edit u = None -> up_can_delete u = None ->
   updateCollaborator did uid u s = (s, Thrown "No updates provided")) /\
  (forall x, up_role u = Some x -> role_ok x = false -> getCollaboratorRole s did uid <> None ->
   exists e, updateCollaborator did uid u s = (s, Thrown e)) /\
  (forall s' e, updateCollaborator did uid u s = (s', Thrown e) -> s' = s) /\
  (forall s' r, updateCollaborator did uid u s = (s', Returned r) ->
   r = option_map (apply_updates u) (getCollaboratorRole s did uid) /\
   getCollaboratorRole s' did uid = r /\
   (forall x y, (x <> did \/ y <> uid) -> getCollaboratorRole s' x y = getCollaboratorRole s x y) /\
   (dc_keys_unique s -> dc_keys_unique s') /\
   deadlines s' = deadlines s).
Proof.
  split; [| split; [| split]].
  - intros Hr He Hd; unfold updateCollaborator; rewrite Hr, He, Hd; reflexivity.
  - intros x Hx Hbad Hrow; unfold updateCollaborator; rewrite Hx, Hbad; cbn [negb andb].
    replace (existsb (is_key did uid) (dcs s)) with true.
    + destruct (up_can_edit u), (up_can_delete u); eexists; reflexivity.
    + unfold getCollaboratorRole in Hrow; destruct (find (is_key did uid) (dcs s)) eqn:E; [| congruence].
      apply find_some in E as [Hin Hk]; symmetry; apply existsb_exists; eauto.
  - intros s' e H; destruct (updateCollaborator_cases did uid u s) as [[e' He] | He];
      rewrite He in H; [congruence | discriminate].
  - intros s' r H; destruct (updateCollaborator_cases did uid u s) as [[e' He] | He];
      rewrite He in H; [discriminate |].
    assert (Hs : s' = set_dcs s (map (fun r => if is_key did uid r then apply_updates u r else r) (dcs s)) /\
                 r = option_map (apply_updates u) (getCollaboratorRole s did uid))
      by (injection H as <- <-; split; reflexivity).
    destruct Hs as [-> ->].
    assert (Hpres : forall a, is_key did uid (if is_key did uid a then apply_updates u a else a) = is_key did uid a)
      by (intro a; destruct (is_key did uid a) eqn:E; [rewrite is_key_apply_updates |]; exact E).
    split; [reflexivity | split; [| split; [| split]]].
    + unfold getCollaboratorRole; cbn [dcs set_dcs]; rewrite (find_map_pres _ _ _ Hpres).
      destruct (find (is_key did uid) (dcs s)) eqn:E; [| reflexivity].
      apply find_some in E as [_ E]; simpl; now rewrite E.
    + intros x y Hne; unfold getCollaboratorRole; cbn [dcs set_dcs].
      apply find_map_fix.
      * intro a; destruct (is_key did uid a); reflexivity.
      * intros a Ha; now rewrite (is_key_other x y did uid a Hne Ha).
    + unfold dc_keys_unique; cbn [dcs set_dcs]; rewrite keys_map_same; [exact (fun H => H) |].
      intro a; destruct (is_key did uid a); split; reflexivity.
    + reflexivity.
Qed.

Lemma updateCollaborator_spec_witness :
  updateCollaborator 10 3 {| up_role := None; up_can_edit := None; up_can_delete := None |} Scenario.s_edit
    = (Scenario.s_edit, Thrown "No updates provided") /\
  getCollaboratorRole
    (fst (updateCollaborator 10 3 {| up_role := None; up_can_edit := Some false; up_can_delete := None |}
            Scenario.s_edit)) 10 3
  = option_map (apply_updates {| up_role := None; up_can_edit := Some false; up_can_delete := None |})
               (getCollaboratorRole Scenario.s_edit 10 3).
Proof.
  split.
  - apply (updateCollaborator_spec 10 3 {| up_role := None; up_can_edit := None; up_can_delete := None |}
             Scenario.s_edit); reflexivity.
  - destruct (updateCollaborator_spec 10 3 {| up_role := None; up_can_edit := Some false; up_can_delete := None |}
                Scenario.s_edit) as (_ & _ & _ & H).
    destruct (H (fst (updateCollaborator 10 3 {| up_role := None; up_can_edit := Some false; up_can_delete := None |}
                        Scenario.s_edit))
                (option_map (apply_updates {| up_role := None; up_can_edit := Some false; up_can_delete := None |})
                            (getCollaboratorRole Scenario.s_edit 10 3)) eq_refl) as (_ & Hg & _).
    exact Hg.
Defined.

(** X11. Whatever order the [UNION] rows come in, on an existing deadline
    (with unique keys and the owner's own row, if any, of role ['owner']):
    its owning user may edit and delete it; another user with a row may
    edit it iff the row has role ['owner'] or [can_edit], and delete it iff
    it has role ['owner'] or [can_delete]; any other user may do neither.
    Nobody may edit or delete a deadline that does not exist. *)
Theorem canEdit_canDelete_rules (union_order : list access -> list access)
  (Hperm : forall l, Permutation (union_order l) l) (s : db) (did uid : Z) :
  (find_deadline s did = None ->
   canEditDeadline union_order s did uid = Returned false /\
   canDeleteDeadline union_order s did uid = Returned false) /\
  (forall d, find_deadline s did = Some d -> owner_rows_are_owner s -> dc_keys_unique s ->
   (uid = student_id d ->
    canEditDeadline union_order s did uid = Returned true /\
    canDeleteDeadline union_order s did uid = Returned true) /\
   (uid <> student_id d -> forall r, getCollaboratorRole s did uid = Some r ->
    canEditDeadline union_order s did uid = Returned (String.eqb (dc_role r) "owner" || dc_can_edit r) /\
    canDeleteDeadline union_order s did uid = Returned (String.eqb (dc_role r) "owner" || dc_can_delete r)) /\
   (uid <> student_id d -> getCollaboratorRole s did uid = None ->
    canEditDeadline union_order s did uid = Returned false /\
    canDeleteDeadline union_order s did uid = Returned false)).
Proof.
  unfold canEditDeadline, canDeleteDeadline; split.
  - intro Hn; now rewrite (access_missing_deadline union_order Hperm s did uid Hn).
  - intros d Hd Hown Huniq.
    destruct (access_resolution_cases union_order Hperm s did uid d Hd) as (H1 & H2 & H3).
    split; [| split].
    + intro Hu; destruct (H1 Hu Hown) as [a [-> Ha]]; rewrite Ha; split; reflexivity.
    + intros Hu r Hr; apply find_some in Hr as [Hin Hk].
      now rewrite (H2 Hu Huniq r Hin Hk).
    + intros Hu Hr; rewrite H3; [split; reflexivity | exact Hu |].
      intros r Hin; destruct (is_key did uid r) eqn:E; [| reflexivity].
      exfalso; unfold getCollaboratorRole in Hr; eapply find_none in Hr; [| exact Hin]; congruence.
Qed.

Lemma canEdit_canDelete_rules_witness :
  canEditDeadline (fun l => l) Scenario.s_edit 10 3 = Returned true /\
  canDeleteDeadline (fun l => l) Scenario.s_edit 10 3 = Returned false /\
  canEditDeadline (fun l => l) Scenario.s_edit 10 2 = Returned false.
Proof.
  destruct (canEdit_canDelete_rules (fun l => l) (@Permutation_refl access) Scenario.s_edit 10 3) as [_ H].
  destruct (H Scenario.essay eq_refl s_edit_owner_rows s_edit_keys_unique) as (_ & H2 & _).
  destruct (H2 ltac:(intro E; vm_compute in E; discriminate E)
               {| dc_id := 2; dc_deadline_id := 10; dc_user_id := 3; dc_role := "collaborator";
                  dc_can_edit := true; dc_can_delete := false |} eq_refl) as [He Hd].
  destruct (canEdit_canDelete_rules (fun l => l) (@Permutation_refl access) Scenario.s_edit 10 2) as [_ H'].
  destruct (H' Scenario.essay eq_refl s_edit_owner_rows s_edit_keys_unique) as (_ & _ & H3).
  destruct (H3 ltac:(intro E; vm_compute in E; discriminate E) eq_refl) as [He' _].
  split; [rewrite He; reflexivity | split; [rewrite Hd; reflexivity | exact He']].
Defined.

Lemma transferOwnership_success did cur new_owner s s' :
  transferOwnership did cur new_owner s = (s', Returned tt) ->
  s' = set_dcs (update_deadline s did (with_student_id new_owner))
               (map (transfer_role did cur new_owner) (dcs s)) /\
  find_deadline s did <> None.
Proof.
  unfold transferOwnership.
  destruct (find _ (deadlines s)) as [d0 |] eqn:Ef; [| discriminate].
  destruct (negb (user_exists s new_owner)); [discriminate |].
  intro H; injection H as <-; split; [reflexivity |].
  apply find_some in Ef as [Hin Hk]; apply andb_true_iff in Hk as [Hk _].
  unfold find_deadline; intro Hn; eapply find_none in Hn; [| exact Hin]; congruence.
Qed.

Lemma transfer_role_keys did cur n r :
  dc_deadline_id (transfer_role did cur n r) = dc_deadline_id r /\
  dc_user_id (transfer_role did cur n r) = dc_user_id r.
Proof.
  unfold transfer_role; destruct (dc_deadline_id r =? did); [| split; reflexivity].
  destruct (dc_user_id r =? n); [| destruct (dc_user_id r =? cur)]; split; reflexivity.
Qed.

(** X12. Only the owning user can transfer a deadline, and only to an
    existing user; a refused transfer leaves the database unchanged.  A
    transfer moves [student_id] of the deadline to the new owner, keeps
    the keys unique and the owner's own row of role ['owner'], and turns
    the former owner's row into a ['collaborator'] row that keeps its
    permissions: a former owner with [can_delete] may still delete the
    deadline. *)
Theorem transferOwnership_spec (did cur new_owner : Z) (s : db) :
  (find (fun d => (d_id d =? did) && (student_id d =? cur)) (deadlines s) = None ->
   transferOwnership did cur new_owner s = (s, Thrown "Only the owner can transfer ownership")) /\
  (user_exists s new_owner = false -> exists e, transferOwnership did cur new_owner s = (s, Thrown e)) /\
  (forall s', transferOwnership did cur new_owner s = (s', Returned tt) ->
   (exists d, find_deadline s did = Some d /\
              find_deadline s' did = Some (with_student_id new_owner d)) /\
   (dc_keys_unique s -> dc_keys_unique s') /\
   (owner_rows_are_owner s -> owner_rows_are_owner s') /\
   (cur <> new_owner -> forall r, In r (dcs s) -> is_key did cur r = true ->
    In (set_role "collaborator" r) (dcs s') /\
    (dc_keys_unique s -> dc_can_delete r = true ->
     forall union_order, (forall l, Permutation (union_order l) l) ->
     canDeleteDeadline union_order s' did cur = Returned true))).
Proof.
  split; [| split].
  - intro H; unfold transferOwnership; now rewrite H.
  - intro H; unfold transferOwnership.
    destruct (find _ (deadlines s)); [| eexists; reflexivity].
    rewrite H; eexists; reflexivity.
  - intros s' Ht; apply transferOwnership_success in Ht as [-> Hex].
    assert (Hfd : forall x, find_deadline
                              (set_dcs (update_deadline s did (with_student_id new_owner))
                                       (map (transfer_role did cur new_owner) (dcs s))) x =
                            option_map (fun d => if d_id d =? did then with_student_id new_owner d else d)
                                       (find_deadline s x))
      by (intro x; apply find_deadline_update; reflexivity).
    destruct (find_deadline s did) as [d |] eqn:Hd; [| congruence].
    assert (Hd' : find_deadline (set_dcs (update_deadline s did (with_student_id new_owner))
                                         (map (transfer_role did cur new_owner) (dcs s))) did =
                  Some (with_student_id new_owner d))
      by (rewrite Hfd, Hd; simpl; now rewrite (proj2 (Z.eqb_eq _ _) (find_deadline_id _ _ _ Hd))).
    split; [exists d; split; [reflexivity | exact Hd'] |].
    assert (Hkeys : dc_keys_unique s ->
                    dc_keys_unique (set_dcs (update_deadline s did (with_student_id new_owner))
                                            (map (transfer_role did cur new_owner) (dcs s))))
      by (unfold dc_keys_unique; cbn [dcs set_dcs]; rewrite keys_map_same; [exact (fun H => H) |];
          apply transfer_role_keys).
    split; [exact Hkeys | split].
    + intros Hown r d' Hr Hf Hu; cbn [dcs set_dcs] in Hr.
      apply in_map_iff in Hr as [r0 [<- Hr0]].
      destruct (transfer_role_keys did cur new_owner r0) as [Ek1 Ek2].
      rewrite Ek1 in Hf; rewrite Ek2 in Hu; rewrite Hfd in Hf.
      destruct (find_deadline s (dc_deadline_id r0)) as [d0 |] eqn:Hd0; [| discriminate].
      cbn [option_map] in Hf; injection Hf as Hf.
      unfold transfer_role.
      destruct (Z.eqb_spec (dc_deadline_id r0) did) as [E | E].
      * rewrite (proj2 (Z.eqb_eq _ _) (eq_trans (find_deadline_id _ _ _ Hd0) E)) in Hf.
        rewrite <- Hf in Hu; cbn [student_id with_student_id] in Hu.
        now rewrite (proj2 (Z.eqb_eq _ _) Hu).
      * rewrite (proj2 (Z.eqb_neq _ _) (fun H' => E (eq_trans (eq_sym (find_deadline_id _ _ _ Hd0)) H'))) in Hf.
        subst d'; exact (Hown r0 d0 Hr0 Hd0 Hu).
    + intros Hne r Hr Hk.
      assert (Hin : In (set_role "collaborator" r) (map (transfer_role did cur new_owner) (dcs s))).
      { replace (set_role "collaborator" r) with (transfer_role did cur new_owner r); [now apply in_map |].
        apply is_key_true in Hk as [Hk1 Hk2]; unfold transfer_role.
        rewrite Hk1, Hk2, Z.eqb_refl, (proj2 (Z.eqb_neq _ _) Hne), Z.eqb_refl; reflexivity. }
      split; [exact Hin |].
      intros Huniq Hdel uo Hperm; unfold canDeleteDeadline.
      destruct (access_resolution_cases uo Hperm _ did cur _ Hd') as (_ & H2 & _).
      rewrite (H2 Hne (Hkeys Huniq) _ Hin Hk); cbn; now rewrite Hdel.
Qed.

Lemma transferOwnership_spec_witness :
  snd (transferOwnership 10 1 3 Scenario.s_edit) = Returned tt /\
  canDeleteDeadline (fun l => l) (fst (transferOwnership 10 1 3 Scenario.s_edit)) 10 1 = Returned true /\
  transferOwnership 10 2 3 Scenario.s_edit =
    (Scenario.s_edit, Thrown "Only the owner can transfer ownership").
Proof.
  destruct (transferOwnership_spec 10 1 3 Scenario.s_edit) as (_ & _ & H).
  destruct (H (fst (transferOwnership 10 1 3 Scenario.s_edit)) eq_refl) as (_ & _ & _ & H4).
  destruct (H4 ltac:(discriminate) (Scenario.owner_row 1 10 1) (or_introl eq_refl) eq_refl) as [_ H5].
  split; [reflexivity | split].
  - exact (H5 s_edit_keys_unique eq_refl (fun l => l) (@Permutation_refl access)).
  - apply (transferOwnership_spec 10 2 3 Scenario.s_edit); reflexivity.
Defined.

(** ** Deadline handlers *)

Lemma canAccess_returns union_order s did uid :
  exists r, canAccessDeadline union_order s did uid = Returned r.
Proof.
  unfold canAccessDeadline.
  destruct (hd_error (union_order (access_rows s did uid))) as [a |]; [eexists; reflexivity |].
  destruct (find_deadline s did) as [d |]; [destruct existsb |]; eexists; reflexivity.
Qed.

Lemma filter_none {A} (p : A -> bool) (l : list A) :
  (forall x, In x l -> p x = false) -> filter p l = [].
Proof.
  induction l as [| a l IH]; intro H; [reflexivity |]; simpl.
  rewrite (H a (or_introl eq_refl)); apply IH; intros x Hx; apply H; now right.
Qed.

Lemma int4_ok_iff n : Controller.int4_ok n = true <-> -2147483648 <= n <= 2147483647.
Proof. unfold Controller.int4_ok; rewrite andb_true_iff, !Z.leb_le; reflexivity. Qed.

(** X13. [DELETE /deadlines/:id] answers 400 for an id below 1, 500 for an
    id beyond the [INTEGER] range, and 404 for a missing deadline, all on
    an unchanged database; it answers 500 for no other request.  After a
    successful delete the deadline is gone, nobody has access to it, it
    has no notification recipients (its collaborator rows went with it by
    the cascade), and every other deadline, copies included, and every
    collaborator row of another deadline is as before. *)
Theorem deleteDeadline_spec (id : Z) (s : db) :
  (id < 1 -> Controller.deleteDeadline id s = (s, Controller.RBadRequest)) /\
  (2147483647 < id -> Controller.deleteDeadline id s = (s, Controller.RServerError)) /\
  (1 <= id <= 2147483647 -> find_deadline s id = None ->
   Controller.deleteDeadline id s = (s, Controller.RNotFound)) /\
  (forall s' r, Controller.deleteDeadline id s = (s', r) -> r = Controller.RServerError ->
   2147483647 < id) /\
  (forall s', Controller.deleteDeadline id s = (s', Controller.ROk tt) ->
   find_deadline s' id = None /\
   (forall union_order uid, (forall l, Permutation (union_order l) l) ->
    canAccessDeadline union_order s' id uid = Returned None) /\
   getNotificationRecipients s' id = [] /\
   (forall x, x <> id -> find_deadline s' x = find_deadline s x) /\
   (forall x y, x <> id -> getCollaboratorRole s' x y = getCollaboratorRole s x y)).
Proof.
  unfold Controller.deleteDeadline, Controller.bad_id.
  split; [| split; [| split; [| split]]].
  - intro H; now rewrite (proj2 (Z.ltb_lt _ _) H).
  - intro H; rewrite (proj2 (Z.ltb_ge id 1) ltac:(lia)).
    destruct (Controller.int4_ok id) eqn:Hi; [apply int4_ok_iff in Hi; lia | reflexivity].
  - intros Hid Hn; rewrite (proj2 (Z.ltb_ge id 1) (proj1 Hid)), (proj2 (int4_ok_iff id) ltac:(lia)), Hn.
    reflexivity.
  - intros s' r H Hr; destruct (id <? 1) eqn:Hl; [injection H as _ <-; discriminate |].
    apply Z.ltb_ge in Hl.
    destruct (Controller.int4_ok id) eqn:Hi; cbn [negb] in H.
    + destruct (find_deadline s id); injection H as _ <-; discriminate.
    + apply Z.nle_gt; intro Hle; rewrite (proj2 (int4_ok_iff id) ltac:(lia)) in Hi; discriminate Hi.
  - intros s' H; destruct (id <? 1); [discriminate |].
    destruct (Controller.int4_ok id); cbn [negb] in H; [| discriminate].
    destruct (find_deadline s id) as [d0 |]; [| discriminate].
    injection H as <-.
    assert (Hn : find_deadline
                   {| deadlines := filter (fun d => negb (d_id d =? id)) (deadlines s);
                      dcs := filter (fun r => negb (dc_deadline_id r =? id)) (dcs s);
                      friends := friends s; users := users s;
                      next_deadline_id := next_deadline_id s; next_dc_id := next_dc_id s |} id = None).
    { unfold find_deadline; cbn [deadlines]; apply find_none_iff; intros d Hd.
      apply filter_In in Hd as [_ Hd]; now apply negb_true_iff in Hd. }
    split; [exact Hn | split; [| split; [| split]]].
    + intros uo uid Hperm; exact (access_missing_deadline uo Hperm _ id uid Hn).
    + unfold getNotificationRecipients; rewrite Hn, app_nil_r.
      rewrite filter_none; [reflexivity |].
      intros r Hr; cbn [dcs] in Hr; apply filter_In in Hr as [_ Hr].
      apply negb_true_iff in Hr; now rewrite Hr.
    + intros x Hx; unfold find_deadline; cbn [deadlines]; apply find_filter_impl.
      intros d _ Hd; apply Z.eqb_eq in Hd; subst x; apply negb_true_iff; now apply Z.eqb_neq.
    + intros x y Hx; unfold getCollaboratorRole; cbn [dcs]; apply find_filter_impl.
      intros r _ Hr; apply is_key_true in Hr as [Hr _]; subst x; apply negb_true_iff; now apply Z.eqb_neq.
Qed.

Lemma deleteDeadline_spec_witness :
  snd (Controller.deleteDeadline 10 Scenario.s_edit) = Controller.ROk tt /\
  canAccessDeadline (fun l => l) (fst (Controller.deleteDeadline 10 Scenario.s_edit)) 10 3 = Returned None /\
  Controller.deleteDeadline 99 Scenario.s_edit = (Scenario.s_edit, Controller.RNotFound) /\
  Controller.deleteDeadline 2147483648 Scenario.s_edit = (Scenario.s_edit, Controller.RServerError).
Proof.
  destruct (deleteDeadline_spec 10 Scenario.s_edit) as (_ & _ & _ & _ & H).
  destruct (H (fst (Controller.deleteDeadline 10 Scenario.s_edit)) eq_refl) as (_ & Ha & _).
  split; [reflexivity | split; [exact (Ha (fun l => l) 3 (@Permutation_refl access)) | split]].
  - apply (deleteDeadline_spec 99 Scenario.s_edit); [lia | reflexivity].
  - apply (deleteDeadline_spec 2147483648 Scenario.s_edit); lia.
Defined.

(** X14. [PATCH /deadlines/:id/status] answers 400 on an unchanged
    database for an id below 1 or a status outside the four of the
    [CHECK], then 500 for an id beyond the [INTEGER] range and 404 for a
    missing deadline, both on an unchanged database; otherwise it sets the
    status of that deadline (only that column) and returns the updated
    row.  So it answers 500 only for an id out of range, and it keeps
    every stored status valid. *)
Theorem updateDeadlineStatus_spec (id : Z) (st : string) (s : db) :
  (id < 1 \/ Deadline.status_ok st = false ->
   Controller.updateDeadlineStatus id st s = (s, Controller.RBadRequest)) /\
  (2147483647 < id -> Deadline.status_ok st = true ->
   Controller.updateDeadlineStatus id st s = (s, Controller.RServerError)) /\
  (1 <= id <= 2147483647 -> Deadline.status_ok st = true -> find_deadline s id = None ->
   Controller.updateDeadlineStatus id st s = (s, Controller.RNotFound)) /\
  (forall d, 1 <= id <= 2147483647 -> Deadline.status_ok st = true -> find_deadline s id = Some d ->
   Controller.updateDeadlineStatus id st s =
   (update_deadline s id (with_status st), Controller.ROk (Some (with_status st d)))) /\
  (forall s' r, Controller.updateDeadlineStatus id st s = (s', r) -> r = Controller.RServerError ->
   2147483647 < id) /\
  ((forall d, In d (deadlines s) -> Deadline.status_ok (status d) = true) ->
   forall d, In d (deadlines (fst (Controller.updateDeadlineStatus id st s))) ->
   Deadline.status_ok (status d) = true).
Proof.
  assert (Hok : forall d, 1 <= id <= 2147483647 -> Deadline.status_ok st = true ->
                find_deadline s id = Some d ->
                Controller.updateDeadlineStatus id st s =
                (update_deadline s id (with_status st), Controller.ROk (Some (with_status st d)))).
  { intros d Hid Hst Hd; unfold Controller.updateDeadlineStatus, Controller.bad_id, Deadline.updateStatus.
    rewrite (proj2 (Z.ltb_ge _ _) (proj1 Hid)), Hst, (proj2 (int4_ok_iff id) ltac:(lia)), Hd.
    cbn [orb negb].
    rewrite find_deadline_update by reflexivity; rewrite Hd; cbn [option_map].
    now rewrite (proj2 (Z.eqb_eq _ _) (find_deadline_id _ _ _ Hd)). }
  assert (Hbad : id < 1 \/ Deadline.status_ok st = false ->
                 Controller.updateDeadlineStatus id st s = (s, Controller.RBadRequest)).
  { intro H; unfold Controller.updateDeadlineStatus, Controller.bad_id.
    destruct H as [H | H]; [now rewrite (proj2 (Z.ltb_lt _ _) H) | rewrite H, orb_true_r; reflexivity]. }
  assert (Hbig : 2147483647 < id -> Deadline.status_ok st = true ->
                 Controller.updateDeadlineStatus id st s = (s, Controller.RServerError)).
  { intros H Hst; unfold Controller.updateDeadlineStatus, Controller.bad_id.
    rewrite (proj2 (Z.ltb_ge id 1) ltac:(lia)), Hst.
    destruct (Controller.int4_ok id) eqn:Hi; [apply int4_ok_iff in Hi; lia | reflexivity]. }
  assert (Hnf : 1 <= id <= 2147483647 -> Deadline.status_ok st = true -> find_deadline s id = None ->
                Controller.updateDeadlineStatus id st s = (s, Controller.RNotFound)).
  { intros Hid Hst Hn; unfold Controller.updateDeadlineStatus, Controller.bad_id.
    now rewrite (proj2 (Z.ltb_ge _ _) (proj1 Hid)), Hst, (proj2 (int4_ok_iff id) ltac:(lia)), Hn. }
  assert (Hcases : Controller.updateDeadlineStatus id st s = (s, Controller.RBadRequest) \/
                   (2147483647 < id /\
                    Controller.updateDeadlineStatus id st s = (s, Controller.RServerError)) \/
                   Controller.updateDeadlineStatus id st s = (s, Controller.RNotFound) \/
                   exists d, Deadline.status_ok st = true /\ find_deadline s id = Some d /\
                   Controller.updateDeadlineStatus id st s =
                   (update_deadline s id (with_status st), Controller.ROk (Some (with_status st d)))).
  { destruct (Z_lt_le_dec id 1) as [Hl | Hl]; [left; apply Hbad; now left |].
    destruct (Deadline.status_ok st) eqn:Hst; [| left; apply Hbad; now right].
    destruct (Z_le_gt_dec id 2147483647) as [Hu | Hu];
      [| right; left; split; [lia | apply Hbig; [lia | reflexivity]]].
    destruct (find_deadline s id) as [d |] eqn:Hd;
      [| right; right; left; apply Hnf; [lia | reflexivity | reflexivity]].
    right; right; right; exists d; split; [reflexivity | split; [reflexivity |]].
    apply (Hok d); [lia | reflexivity | reflexivity]. }
  split; [exact Hbad | split; [exact Hbig | split; [exact Hnf | split; [exact Hok | split]]]].
  - intros s' r H Hr; destruct Hcases as [E | [[Hb E] | [E | (d & _ & _ & E)]]]; rewrite E in H;
      injection H as _ <-; try discriminate; exact Hb.
  - intros Hall d Hd; destruct Hcases as [E | [[_ E] | [E | (d0 & Hst & _ & E)]]]; rewrite E in Hd;
      cbn [fst] in Hd; [exact (Hall d Hd) | exact (Hall d Hd) | exact (Hall d Hd) |].
    unfold update_deadline, set_deadlines in Hd; cbn [deadlines] in Hd.
    apply in_map_iff in Hd as [d1 [<- Hd1]].
    destruct (d_id d1 =? id); [exact Hst | exact (Hall d1 Hd1)].
Qed.

Lemma updateDeadlineStatus_spec_witness :
  Controller.updateDeadlineStatus 10 "done" Scenario.s0 = (Scenario.s0, Controller.RBadRequest) /\
  Controller.updateDeadlineStatus 10 "completed" Scenario.s0 =
    (update_deadline Scenario.s0 10 (with_status "completed"),
     Controller.ROk (Some (with_status "completed" Scenario.essay))) /\
  Controller.updateDeadlineStatus 2147483648 "completed" Scenario.s0 =
    (Scenario.s0, Controller.RServerError).
Proof.
  split; [| split].
  - apply (updateDeadlineStatus_spec 10 "done" Scenario.s0); right; reflexivity.
  - apply (proj1 (proj2 (proj2 (proj2 (updateDeadlineStatus_spec 10 "completed" Scenario.s0)))));
      [lia | reflexivity | reflexivity].
  - apply (proj1 (proj2 (updateDeadlineStatus_spec 2147483648 "completed" Scenario.s0)));
      [lia | reflexivity].
Defined.

Lemma access_messages :
  String.eqb "Access denied to this deadline" "Access denied to this deadline" = true /\
  String.eqb "Deadline not found" "Access denied to this deadline" = false /\
  String.eqb "Deadline not found" "Deadline not found" = true.
Proof. repeat split. Qed.

(** [getDeadlineById] with the id and the caller's id in range. *)
Lemma getDeadlineById_in_range (union_order : list access -> list access)
  (Hperm : forall l, Permutation (union_order l) l) (id uid : Z) (s : db) :
  1 <= id -> Controller.int4_ok id && Controller.int4_ok uid = true ->
  (Controller.getDeadlineById union_order id uid s = Controller.RNotFound ->
   exists d, find_deadline s id = Some d /\ user_exists s (student_id d) = false) /\
  Controller.getDeadlineById union_order id uid s <> Controller.RServerError /\
  (forall d cs a m, Controller.getDeadlineById union_order id uid s = Controller.ROk (d, cs, a, m) ->
   canEditDeadline union_order s id uid = Returned m).
Proof.
  intros Hl Hi; unfold Controller.getDeadlineById, Controller.bad_id, getDeadlineWithCollaborators.
  rewrite (proj2 (Z.ltb_ge _ _) Hl), Hi; cbn [negb].
  unfold canEditDeadline.
  destruct (canAccess_returns union_order s id uid) as [r Hr]; rewrite Hr.
  destruct r as [a |];
    [| rewrite ?(proj1 access_messages), ?(proj1 (proj2 access_messages)), ?(proj2 (proj2 access_messages)); (split; [| split]); [intro H | intro H | intros ? ? ? ? H]; discriminate H].
  destruct (find_deadline s id) as [d |] eqn:Hd;
    [| exfalso; rewrite (access_missing_deadline _ Hperm s id uid Hd) in Hr; discriminate Hr].
  destruct (user_exists s (student_id d)) eqn:Hu.
  - split; [intro H; discriminate H | split; [intro H; discriminate H |]].
    intros d' cs a' m H; injection H as _ _ <- <-; reflexivity.
  - simpl; split; [intros _; exists d; split; [reflexivity | exact Hu] |].
    split; [intro H; discriminate H | intros ? ? ? ? H; discriminate H].
Qed.

(** X15. [GET /deadlines/:id] answers 400 for an id below 1; for a
    deadline that does not exist it answers 403 (access denied), not 404:
    404 comes only for an existing deadline whose owner has no row in
    [users].  It answers 500 exactly when the id or the caller's id is
    beyond the [INTEGER] range.  When it answers, the
    [can_manage_collaborators] flag is the caller's edit permission. *)
Theorem getDeadlineById_replies (union_order : list access -> list access)
  (Hperm : forall l, Permutation (union_order l) l) (id uid : Z) (s : db) :
  (id < 1 -> Controller.getDeadlineById union_order id uid s = Controller.RBadRequest) /\
  (1 <= id <= 2147483647 -> -2147483648 <= uid <= 2147483647 -> find_deadline s id = None ->
   Controller.getDeadlineById union_order id uid s = Controller.RForbidden) /\
  (Controller.getDeadlineById union_order id uid s = Controller.RNotFound ->
   exists d, find_deadline s id = Some d /\ user_exists s (student_id d) = false) /\
  (1 <= id ->
   (Controller.getDeadlineById union_order id uid s = Controller.RServerError <->
    2147483647 < id \/ uid < -2147483648 \/ 2147483647 < uid)) /\
  (forall d cs a m, Controller.getDeadlineById union_order id uid s = Controller.ROk (d, cs, a, m) ->
   canEditDeadline union_order s id uid = Returned m).
Proof.
  split; [intro H; unfold Controller.getDeadlineById, Controller.bad_id;
          now rewrite (proj2 (Z.ltb_lt _ _) H) |].
  split.
  { intros Hid Hu Hn; unfold Controller.getDeadlineById, Controller.bad_id, getDeadlineWithCollaborators.
    rewrite (proj2 (Z.ltb_ge _ _) (proj1 Hid)), (proj2 (int4_ok_iff id) ltac:(lia)),
      (proj2 (int4_ok_iff uid) Hu), (access_missing_deadline _ Hperm _ _ _ Hn).
    reflexivity. }
  destruct (Z_lt_le_dec id 1) as [Hl | Hl].
  { assert (E : Controller.getDeadlineById union_order id uid s = Controller.RBadRequest)
      by (unfold Controller.getDeadlineById, Controller.bad_id; now rewrite (proj2 (Z.ltb_lt _ _) Hl)).
    rewrite E; split; [intro H; discriminate H | split; [intro H; lia | intros ? ? ? ? H; discriminate H]]. }
  destruct (Controller.int4_ok id && Controller.int4_ok uid) eqn:Hi.
  - destruct (getDeadlineById_in_range union_order Hperm id uid s Hl Hi) as (A & B & C).
    apply andb_true_iff in Hi as [Hi1 Hi2]; apply int4_ok_iff in Hi1, Hi2.
    split; [exact A | split; [intros _; split; [intro H; contradiction (B H) | intros [H | [H | H]]; lia] | exact C]].
  - assert (E : Controller.getDeadlineById union_order id uid s = Controller.RServerError)
      by (unfold Controller.getDeadlineById, Controller.bad_id;
          rewrite (proj2 (Z.ltb_ge _ _) Hl), Hi; reflexivity).
    rewrite E; split; [intro H; discriminate H |].
    split; [intros _; split; [intros _ | intros _; reflexivity] | intros ? ? ? ? H; discriminate H].
    apply andb_false_iff in Hi as [Hi | Hi].
    + left; apply Z.nle_gt; intro H; rewrite (proj2 (int4_ok_iff id) ltac:(lia)) in Hi; discriminate Hi.
    + right; destruct (Z.lt_ge_cases uid (-2147483648)) as [H1 | H1]; [left; exact H1 |].
      right; apply Z.nle_gt; intro H2; rewrite (proj2 (int4_ok_iff uid) (conj H1 H2)) in Hi.
      discriminate Hi.
Qed.

Lemma getDeadlineById_replies_witness :
  Controller.getDeadlineById (fun l => l) 99 1 Scenario.s0 = Controller.RForbidden /\
  Controller.getDeadlineById (fun l => l) 10 1 Scenario.s0 <> Controller.RServerError /\
  Controller.getDeadlineById (fun l => l) 2147483648 1 Scenario.s0 = Controller.RServerError.
Proof.
  split; [| split].
  - apply (getDeadlineById_replies (fun l => l) (@Permutation_refl access) 99 1 Scenario.s0);
      [lia | lia | reflexivity].
  - intro H.
    apply (proj1 (proj2 (proj2 (proj2 (getDeadlineById_replies (fun l => l) (@Permutation_refl access)
                                          10 1 Scenario.s0)))) ltac:(lia)) in H.
    lia.
  - apply (proj1 (proj2 (proj2 (proj2 (getDeadlineById_replies (fun l => l) (@Permutation_refl access)
                                         2147483648 1 Scenario.s0)))) ltac:(lia)).
    left; lia.
Defined.

(** ** Notification passes *)

Section NotifyGates.
Variables (eok iok : Z -> Z -> string -> Z -> bool).

(** An attempt of the recipient loop is for that recipient, on a channel
    the preferences let through. *)
Lemma notify_one_gate e i u did kind now ev :
  In ev (fst (notify_one eok iok e i u did kind now)) ->
  ev_user ev = u /\ (ev_channel ev = Email -> e = true) /\ (ev_channel ev = InApp -> i = true).
Proof.
  unfold notify_one; destruct (negb e && negb i); [intros [] |].
  cbn [fst]; intro H; apply in_app_or in H as [H | H]; [destruct e | destruct i]; cbn in H;
    try contradiction; destruct H as [<- | []]; cbn;
    (split; [reflexivity | split; intro Hc; first [reflexivity | discriminate Hc]]).
Qed.

(** With every delivery failing, no recipient counts as notified. *)
Lemma notify_one_fail e i u did kind now :
  (forall u did kind now, eok u did kind now = false) ->
  (forall u did kind now, iok u did kind now = false) ->
  snd (notify_one eok iok e i u did kind now) = false.
Proof.
  intros He Hi; unfold notify_one; destruct (negb e && negb i); [reflexivity |].
  cbn [snd]; rewrite He, Hi, !andb_false_r; reflexivity.
Qed.
End NotifyGates.

Section PassGates.
Variables (isR isI : Z -> string -> bool) (hO hIO : Z -> bool) (eok iok : Z -> Z -> string -> Z -> bool).

Lemma sendDeadline_gate d kind now t ev :
  In ev (snd (sendDeadlineNotificationToAllCollaborators isR isI eok iok d kind now t)) ->
  ev_kind ev = kind /\ (ev_channel ev = Email -> isR (ev_user ev) kind = true) /\
  (ev_channel ev = InApp -> isI (ev_user ev) kind = true).
Proof.
  unfold sendDeadlineNotificationToAllCollaborators; cbv zeta; intro H.
  assert (H' : In ev (List.concat (map fst (map (fun p => notify_one eok iok (isR (fst p) kind)
                                                   (isI (fst p) kind) (fst p) (d_id d) kind now)
                                                (getNotificationRecipients t (d_id d))))))
    by (destruct (existsb _ _); exact H).
  apply in_concat in H' as [l [Hl Hin]]; apply in_map_iff in Hl as [x [<- Hx]].
  apply in_map_iff in Hx as [p [<- _]].
  destruct (notify_one_events eok iok _ _ _ _ _ _ _ Hin) as [_ Hk].
  destruct (notify_one_gate eok iok _ _ _ _ _ _ _ Hin) as (Hu & He & Hi).
  split; [exact Hk | rewrite Hu; split; assumption].
Qed.

Lemma sendDeadline_fail d kind now t :
  (forall u did kind now, eok u did kind now = false) ->
  (forall u did kind now, iok u did kind now = false) ->
  fst (sendDeadlineNotificationToAllCollaborators isR isI eok iok d kind now t) = t.
Proof.
  intros He Hi; unfold sendDeadlineNotificationToAllCollaborators; cbv zeta.
  destruct (existsb snd _) eqn:E; [| reflexivity].
  exfalso; apply existsb_exists in E as [x [Hx Hs]].
  apply in_map_iff in Hx as [p [<- _]]; rewrite (notify_one_fail eok iok _ _ _ _ _ _ He Hi) in Hs.
  discriminate.
Qed.

(** One deadline of the overdue pass. *)
Lemma sendOverdue_spec d now t :
  (fst (sendOverdueNotificationToAllCollaborators hO hIO eok iok d now t) = t \/
   fst (sendOverdueNotificationToAllCollaborators hO hIO eok iok d now t) =
     markNotificationSent (d_id d) "overdue" now t) /\
  (forall ev, In ev (snd (sendOverdueNotificationToAllCollaborators hO hIO eok iok d now t)) ->
   ev_deadline ev = d_id d /\ ev_kind ev = "overdue"%string /\
   (ev_channel ev = Email -> hO (ev_user ev) = true) /\ (ev_channel ev = InApp -> hIO (ev_user ev) = true)).
Proof.
  unfold sendOverdueNotificationToAllCollaborators; cbv zeta.
  set (rs := map (fun p => notify_one eok iok (hO (fst p)) (hIO (fst p)) (fst p) (d_id d) "overdue" now)
                 (getNotificationRecipients t (d_id d))).
  assert (Hev : forall ev, In ev (List.concat (map fst rs)) ->
                ev_deadline ev = d_id d /\ ev_kind ev = "overdue"%string /\
                (ev_channel ev = Email -> hO (ev_user ev) = true) /\
                (ev_channel ev = InApp -> hIO (ev_user ev) = true)).
  { intros ev H; apply in_concat in H as [l [Hl Hin]]; apply in_map_iff in Hl as [x [<- Hx]].
    unfold rs in Hx; apply in_map_iff in Hx as [p [<- _]].
    destruct (notify_one_events eok iok _ _ _ _ _ _ _ Hin) as [Hd Hk].
    destruct (notify_one_gate eok iok _ _ _ _ _ _ _ Hin) as (Hu & He & Hi).
    rewrite Hu; repeat split; assumption. }
  destruct (existsb snd rs); cbn [fst snd]; (split; [| exact Hev]); [right | left]; reflexivity.
Qed.

(** An invariant of the accumulator kept by each deadline of the overdue
    loop, sent or throttled. *)
Lemma overdue_fold_inv (P : db -> list event -> Prop) now L t evs :
  (forall d t evs, In d L -> P t evs ->
     P (fst (sendOverdueNotificationToAllCollaborators hO hIO eok iok d now t))
       (evs ++ snd (sendOverdueNotificationToAllCollaborators hO hIO eok iok d now t))) ->
  P t evs ->
  let r := fold_left (fun (acc : db * list event) (d : deadline) =>
             let (s2, evs) := acc in
             if shouldSendOverdueNotification (Returned (find_deadline s2 (d_id d))) now
             then let (s3, evs3) := sendOverdueNotificationToAllCollaborators hO hIO eok iok d now s2 in
                  (s3, evs ++ evs3)
             else (s2, evs)) L (t, evs) in
  P (fst r) (snd r).
Proof.
  revert t evs; induction L as [| d L IH]; intros t evs H Ht; [exact Ht |].
  cbn [fold_left].
  destruct (shouldSendOverdueNotification _ now); [| apply IH; [intros d' t' evs' Hd'; apply H; now right | exact Ht]].
  pose proof (H d t evs (or_introl eq_refl) Ht) as Hd.
  destruct (sendOverdueNotificationToAllCollaborators hO hIO eok iok d now t) as [t2 evs2].
  apply IH; [intros d' t' evs' Hd'; apply H; now right | exact Hd].
Qed.
End PassGates.

(** X16. Both notification passes only send what the user's preferences
    let through: every reminder attempt is for one of the four lead-time
    kinds, by email only if [isReminderEnabled] holds for the recipient
    and kind, in the app only if [isInAppReminderEnabled] does; every
    attempt of the overdue pass is of kind ['overdue'], by email only if
    [hasOverdueNotificationsEnabled] holds, in the app only if
    [hasInAppOverdueNotificationsEnabled] does. *)
Theorem notification_passes_respect_preferences
  (isR isI : Z -> string -> bool) (hO hIO : Z -> bool) (eok iok : Z -> Z -> string -> Z -> bool)
  (now : Z) (s : db) :
  (forall ev, In ev (snd (checkAndSendNotifications isR isI eok iok now s)) ->
   In (ev_kind ev) (map snd lead_times) /\
   (ev_channel ev = Email -> isR (ev_user ev) (ev_kind ev) = true) /\
   (ev_channel ev = InApp -> isI (ev_user ev) (ev_kind ev) = true)) /\
  (forall ev, In ev (snd (checkOverdueDeadlines hO hIO eok iok now s)) ->
   ev_kind ev = "overdue"%string /\
   (ev_channel ev = Email -> hO (ev_user ev) = true) /\
   (ev_channel ev = InApp -> hIO (ev_user ev) = true)).
Proof.
  split.
  - set (G := fun ev => In (ev_kind ev) (map snd lead_times) /\
                        (ev_channel ev = Email -> isR (ev_user ev) (ev_kind ev) = true) /\
                        (ev_channel ev = InApp -> isI (ev_user ev) (ev_kind ev) = true)).
    set (P := fun (_ : db) (evs : list event) => forall ev, In ev evs -> G ev).
    assert (HP : P (fst (checkAndSendNotifications isR isI eok iok now s))
                   (snd (checkAndSendNotifications isR isI eok iok now s))).
    { unfold checkAndSendNotifications.
      refine (check_fold_inv isR isI eok iok P now lead_times s [] _ (fun ev H => match H with end)).
      intros lt t evs Hlt Ht.
      assert (Hi : P (fst (sendNotificationForTimeframe isR isI eok iok now (fst lt) (snd lt) t))
                     (snd (sendNotificationForTimeframe isR isI eok iok now (fst lt) (snd lt) t))).
      { unfold sendNotificationForTimeframe.
        refine (pass_fold_inv isR isI eok iok P now (snd lt) _ t [] _ (fun ev H => match H with end)).
        intros d0 t' evs' _ Ht' ev Hin; apply in_app_or in Hin as [Hin | Hin]; [now apply Ht' |].
        destruct (sendDeadline_gate isR isI eok iok d0 (snd lt) now t' ev Hin) as (Hk & He & Hi).
        unfold G; rewrite Hk; split; [now apply in_map | split; assumption]. }
      intros ev Hin; apply in_app_or in Hin as [Hin | Hin]; [now apply Ht | now apply Hi]. }
    exact HP.
  - set (P := fun (_ : db) (evs : list event) => forall ev, In ev evs ->
                ev_kind ev = "overdue"%string /\
                (ev_channel ev = Email -> hO (ev_user ev) = true) /\
                (ev_channel ev = InApp -> hIO (ev_user ev) = true)).
    assert (HP : P (fst (checkOverdueDeadlines hO hIO eok iok now s))
                   (snd (checkOverdueDeadlines hO hIO eok iok now s))).
    { unfold checkOverdueDeadlines; cbv zeta.
      refine (overdue_fold_inv hO hIO eok iok P now _ _ [] _ (fun ev H => match H with end)).
      intros d0 t evs _ Ht ev Hin; apply in_app_or in Hin as [Hin | Hin]; [now apply Ht |].
      destruct (proj2 (sendOverdue_spec hO hIO eok iok d0 now t) ev Hin) as (_ & H); exact H. }
    exact HP.
Qed.

Lemma notification_passes_respect_preferences_witness :
  (exists ev, In ev (snd (checkAndSendNotifications Scenario.all_on (fun _ _ => false)
                            Scenario.all_ok Scenario.all_ok 0 Scenario.s_report))) /\
  (forall ev, In ev (snd (checkAndSendNotifications Scenario.all_on (fun _ _ => false)
                            Scenario.all_ok Scenario.all_ok 0 Scenario.s_report)) ->
              ev_channel ev <> InApp).
Proof.
  split; [vm_compute; eexists; left; reflexivity |].
  intros ev Hin Hc.
  destruct (proj1 (notification_passes_respect_preferences Scenario.all_on (fun _ _ => false)
                     (fun _ => true) (fun _ => true) Scenario.all_ok Scenario.all_ok 0 Scenario.s_report)
                  ev Hin) as (_ & _ & Hi).
  discriminate (Hi Hc).
Defined.

Section PassFrames.
Variables (isR isI : Z -> string -> bool) (hO hIO : Z -> bool) (eok iok : Z -> Z -> string -> Z -> bool).

Lemma sendOverdue_fail d now t :
  (forall u did kind now, eok u did kind now = false) ->
  (forall u did kind now, iok u did kind now = false) ->
  fst (sendOverdueNotificationToAllCollaborators hO hIO eok iok d now t) = t.
Proof.
  intros He Hi; unfold sendOverdueNotificationToAllCollaborators; cbv zeta.
  destruct (existsb snd _) eqn:E; [| reflexivity].
  exfalso; apply existsb_exists in E as [x [Hx Hs]].
  apply in_map_iff in Hx as [p [<- _]]; rewrite (notify_one_fail eok iok _ _ _ _ _ _ He Hi) in Hs.
  discriminate.
Qed.

(** A property of the database ([Q]) and of the attempts ([R]) kept by
    a whole reminder pass when each deadline sent keeps it; the deadlines
    of a timeframe are selected on the database at its start. *)
Lemma reminder_pass_inv (Q : db -> Prop) (R : event -> Prop) now s :
  (forall t0 t lt d, Q t0 -> In lt lead_times -> In d (select_reminder t0 now (fst lt) (snd lt)) -> Q t ->
     Q (fst (sendDeadlineNotificationToAllCollaborators isR isI eok iok d (snd lt) now t)) /\
     forall ev, In ev (snd (sendDeadlineNotificationToAllCollaborators isR isI eok iok d (snd lt) now t)) ->
                R ev) ->
  Q s ->
  Q (fst (checkAndSendNotifications isR isI eok iok now s)) /\
  forall ev, In ev (snd (checkAndSendNotifications isR isI eok iok now s)) -> R ev.
Proof.
  intros Hstep Hs.
  set (P := fun (t : db) (evs : list event) => Q t /\ forall ev, In ev evs -> R ev).
  change (P (fst (checkAndSendNotifications isR isI eok iok now s))
            (snd (checkAndSendNotifications isR isI eok iok now s))).
  unfold checkAndSendNotifications.
  refine (check_fold_inv isR isI eok iok P now lead_times s [] _ (conj Hs (fun ev (H : In ev []) => False_ind (R ev) H))).
  intros lt t evs Hlt [Qt Ht].
  assert (Hi : P (fst (sendNotificationForTimeframe isR isI eok iok now (fst lt) (snd lt) t))
                 (snd (sendNotificationForTimeframe isR isI eok iok now (fst lt) (snd lt) t))).
  { unfold sendNotificationForTimeframe.
    refine (pass_fold_inv isR isI eok iok P now (snd lt) _ t [] _ (conj Qt (fun ev (H : In ev []) => False_ind (R ev) H))).
    intros d0 t' evs' Hsel [Qt' Ht'].
    destruct (Hstep t t' lt d0 Qt Hlt Hsel Qt') as [Q2 R2].
    split; [exact Q2 |].
    intros ev Hin; apply in_app_or in Hin as [Hin | Hin]; [now apply Ht' | now apply R2]. }
  destruct Hi as [Qi Hi]; split; [exact Qi |].
  intros ev Hin; apply in_app_or in Hin as [Hin | Hin]; [now apply Ht | now apply Hi].
Qed.

(** The same for the overdue pass, after its status maintenance. *)
Lemma overdue_pass_inv (Q : db -> Prop) (R : event -> Prop) now s :
  (forall t d, In d (recently_overdue s now) -> Q t ->
     Q (fst (sendOverdueNotificationToAllCollaborators hO hIO eok iok d now t)) /\
     forall ev, In ev (snd (sendOverdueNotificationToAllCollaborators hO hIO eok iok d now t)) -> R ev) ->
  Q (status_scan now s) ->
  Q (fst (checkOverdueDeadlines hO hIO eok iok now s)) /\
  forall ev, In ev (snd (checkOverdueDeadlines hO hIO eok iok now s)) -> R ev.
Proof.
  intros Hstep Hs.
  set (P := fun (t : db) (evs : list event) => Q t /\ forall ev, In ev evs -> R ev).
  change (P (fst (checkOverdueDeadlines hO hIO eok iok now s))
            (snd (checkOverdueDeadlines hO hIO eok iok now s))).
  unfold checkOverdueDeadlines; cbv zeta.
  refine (overdue_fold_inv hO hIO eok iok P now _ _ [] _ (conj Hs (fun ev (H : In ev []) => False_ind (R ev) H))).
  intros d0 t evs Hd [Qt Ht].
  destruct (Hstep t d0 Hd Qt) as [Q2 R2]; split; [exact Q2 |].
  intros ev Hin; apply in_app_or in Hin as [Hin | Hin]; [now apply Ht | now apply R2].
Qed.
End PassFrames.

Lemma mark_erase (E : deadline -> deadline) id kind now t :
  (forall d m, E (with_notifications_sent m d) = E d) ->
  map E (deadlines (markNotificationSent id kind now t)) = map E (deadlines t).
Proof.
  intros _; rewrite mark_noop; reflexivity.
Qed.

Lemma status_scan_fields now s :
  dcs (status_scan now s) = dcs s /\ friends (status_scan now s) = friends s /\
  users (status_scan now s) = users s.
Proof.
  unfold status_scan; generalize (all_overdue s now) as L; intro L; revert s.
  induction L as [| d L IH]; intro t; [repeat split |]; cbn [fold_left].
  destruct (IH (updateDeadlineStatus (d_id d) "overdue" t)) as (H1 & H2 & H3).
  repeat split; assumption.
Qed.

Lemma status_scan_erase now s :
  map (fun d => with_status "" (with_notifications_sent [] d)) (deadlines (status_scan now s)) =
  map (fun d => with_status "" (with_notifications_sent [] d)) (deadlines s).
Proof.
  unfold status_scan; rewrite status_fold_deadlines, map_map; apply map_ext; intro d.
  destruct (existsb _ _); reflexivity.
Qed.

(** X17. The notification passes write nothing but their markers and
    statuses: the reminder pass changes only the [notifications_sent] of
    deadlines, the overdue pass only their [status] and
    [notifications_sent]; collaborator rows, friendships and users are
    untouched.  When every delivery fails, the reminder pass leaves the
    database as it was and the overdue pass leaves it as its status
    maintenance did: nothing is marked as sent. *)
Theorem notification_passes_frame
  (isR isI : Z -> string -> bool) (hO hIO : Z -> bool) (eok iok : Z -> Z -> string -> Z -> bool)
  (now : Z) (s : db) :
  let s1 := fst (checkAndSendNotifications isR isI eok iok now s) in
  let s2 := fst (checkOverdueDeadlines hO hIO eok iok now s) in
  (dcs s1 = dcs s /\ friends s1 = friends s /\ users s1 = users s /\
   map (with_notifications_sent []) (deadlines s1) = map (with_notifications_sent []) (deadlines s)) /\
  (dcs s2 = dcs s /\ friends s2 = friends s /\ users s2 = users s /\
   map (fun d => with_status "" (with_notifications_sent [] d)) (deadlines s2) =
   map (fun d => with_status "" (with_notifications_sent [] d)) (deadlines s)) /\
  ((forall u did k t, eok u did k t = false) -> (forall u did k t, iok u did k t = false) ->
   s1 = s /\ s2 = status_scan now s).
Proof.
  cbv zeta; split; [| split].
  - refine (proj1 (reminder_pass_inv isR isI eok iok
              (fun t => dcs t = dcs s /\ friends t = friends s /\ users t = users s /\
                        map (with_notifications_sent []) (deadlines t) =
                        map (with_notifications_sent []) (deadlines s))
              (fun _ => True) now s _ _)); [| repeat split].
    intros t0 t lt d _ _ _ (H1 & H2 & H3 & H4); split; [| intros; exact I].
    destruct (proj1 (sendDeadline_spec isR isI eok iok d (snd lt) now t)) as [-> | [-> _]];
      [repeat split; assumption |].
    split; [exact H1 | split; [exact H2 | split; [exact H3 |]]].
    rewrite mark_erase; [exact H4 | reflexivity].
  - destruct (status_scan_fields now s) as (F1 & F2 & F3).
    refine (proj1 (overdue_pass_inv hO hIO eok iok
              (fun t => dcs t = dcs s /\ friends t = friends s /\ users t = users s /\
                        map (fun d => with_status "" (with_notifications_sent [] d)) (deadlines t) =
                        map (fun d => with_status "" (with_notifications_sent [] d)) (deadlines s))
              (fun _ => True) now s _ _)); [| repeat split; [exact F1 | exact F2 | exact F3 | apply status_scan_erase]].
    intros t d _ (H1 & H2 & H3 & H4); split; [| intros; exact I].
    destruct (proj1 (sendOverdue_spec hO hIO eok iok d now t)) as [-> | ->];
      [repeat split; assumption |].
    split; [exact H1 | split; [exact H2 | split; [exact H3 |]]].
    rewrite mark_erase; [exact H4 | reflexivity].
  - intros He Hi; split.
    + refine (proj1 (reminder_pass_inv isR isI eok iok (fun t => t = s) (fun _ => True) now s _ eq_refl)).
      intros t0 t lt d _ _ _ ->; split; [| intros; exact I].
      exact (sendDeadline_fail isR isI eok iok d (snd lt) now s He Hi).
    + refine (proj1 (overdue_pass_inv hO hIO eok iok (fun t => t = status_scan now s) (fun _ => True)
                       now s _ eq_refl)).
      intros t d _ ->; split; [| intros; exact I].
      exact (sendOverdue_fail hO hIO eok iok d now _ He Hi).
Qed.

Lemma notification_passes_frame_witness :
  fst (checkAndSendNotifications Scenario.all_on Scenario.all_on (fun _ _ _ _ => false)
         (fun _ _ _ _ => false) 0 Scenario.s_report) = Scenario.s_report /\
  fst (checkOverdueDeadlines (fun _ => true) (fun _ => true) (fun _ _ _ _ => false)
         (fun _ _ _ _ => false) 0 Scenario.s_report) = status_scan 0 Scenario.s_report.
Proof.
  exact (proj2 (proj2 (notification_passes_frame Scenario.all_on Scenario.all_on (fun _ => true)
                         (fun _ => true) (fun _ _ _ _ => false) (fun _ _ _ _ => false) 0 Scenario.s_report))
               (fun _ _ _ _ => eq_refl) (fun _ _ _ _ => eq_refl)).
Defined.

Lemma status_in_completed d l :
  status d = "completed"%string -> status_in d ("completed"%string :: l) = true.
Proof. intro H; unfold status_in; cbn [existsb]; rewrite H; reflexivity. Qed.

Lemma mark_other_keeps id kind now t dc :
  d_id dc <> id -> In dc (deadlines t) ->
  In dc (deadlines (markNotificationSent id kind now t)) /\
  map d_id (deadlines (markNotificationSent id kind now t)) = map d_id (deadlines t).
Proof.
  intros _ Hin; rewrite mark_noop; split; [exact Hin | reflexivity].
Qed.

(** X18.  With deadline ids unique (the primary key), a deadline whose
    status is ['completed'] is left exactly as it is by both notification
    passes, and neither pass makes a delivery attempt for it. *)
Theorem completed_deadline_untouched
  (isR isI : Z -> string -> bool) (hO hIO : Z -> bool) (eok iok : Z -> Z -> string -> Z -> bool)
  (now : Z) (s : db) (dc : deadline) :
  NoDup (map d_id (deadlines s)) -> In dc (deadlines s) -> status dc = "completed"%string ->
  In dc (deadlines (fst (checkAndSendNotifications isR isI eok iok now s))) /\
  (forall ev, In ev (snd (checkAndSendNotifications isR isI eok iok now s)) -> ev_deadline ev <> d_id dc) /\
  In dc (deadlines (fst (checkOverdueDeadlines hO hIO eok iok now s))) /\
  (forall ev, In ev (snd (checkOverdueDeadlines hO hIO eok iok now s)) -> ev_deadline ev <> d_id dc).
Proof.
  intros Hnd Hin Hst.
  destruct (reminder_pass_inv isR isI eok iok
              (fun t => In dc (deadlines t) /\ NoDup (map d_id (deadlines t)))
              (fun ev => ev_deadline ev <> d_id dc) now s) as [[H1 _] H2].
  { intros t0 t lt d [Hin0 Hnd0] _ Hsel [Hint Hndt].
    unfold select_reminder in Hsel; apply filter_In in Hsel as [Hd0 Hp].
    apply andb_prop in Hp as [Hp _]; apply andb_prop in Hp as [_ Hp].
    assert (Hne : d_id d <> d_id dc).
    { intro E; rewrite (nodup_ids_eq _ d dc Hnd0 Hd0 Hin0 E), (status_in_completed dc _ Hst) in Hp.
      discriminate Hp. }
    destruct (sendDeadline_spec isR isI eok iok d (snd lt) now t) as [Hs Hev]; split.
    - destruct Hs as [-> | [-> _]]; [split; assumption |].
      destruct (mark_other_keeps (d_id d) (snd lt) now t dc ltac:(congruence) Hint) as [A B].
      split; [exact A | rewrite B; exact Hndt].
    - intros ev Hev'; rewrite (proj1 (Hev ev Hev')); exact Hne. }
  { split; assumption. }
  destruct (overdue_pass_inv hO hIO eok iok
              (fun t => In dc (deadlines t) /\ NoDup (map d_id (deadlines t)))
              (fun ev => ev_deadline ev <> d_id dc) now s) as [[H3 _] H4].
  { intros t d Hrec [Hint Hndt].
    unfold recently_overdue in Hrec; apply filter_In in Hrec as [Hd0 Hp].
    apply andb_prop in Hp as [_ Hp].
    assert (Hne : d_id d <> d_id dc).
    { intro E; rewrite (nodup_ids_eq _ d dc Hnd Hd0 Hin E), (status_in_completed dc _ Hst) in Hp.
      discriminate Hp. }
    destruct (sendOverdue_spec hO hIO eok iok d now t) as [Hs Hev]; split.
    - destruct Hs as [-> | ->]; [split; assumption |].
      destruct (mark_other_keeps (d_id d) "overdue" now t dc ltac:(congruence) Hint) as [A B].
      split; [exact A | rewrite B; exact Hndt].
    - intros ev Hev'; rewrite (proj1 (Hev ev Hev')); exact Hne. }
  { unfold status_scan; rewrite status_fold_deadlines; split.
    - apply in_map_iff; exists dc; split; [| exact Hin].
      unfold all_overdue; rewrite (existsb_filter_id _ _ dc Hnd Hin); cbv beta.
      rewrite (status_in_completed dc _ Hst); cbn [negb]; rewrite andb_false_r; reflexivity.
    - rewrite map_map.
      replace (map _ (deadlines s)) with (map d_id (deadlines s)); [exact Hnd |].
      apply map_ext; intro d; destruct (existsb _ _); reflexivity. }
  split; [exact H1 | split; [exact H2 | split; [exact H3 | exact H4]]].
Qed.

Lemma completed_deadline_untouched_witness :
  let s := set_deadlines Scenario.s_report [with_status "completed" Scenario.report] in
  let dc := with_status "completed" Scenario.report in
  In dc (deadlines (fst (checkAndSendNotifications Scenario.all_on Scenario.all_on
                           Scenario.all_ok Scenario.all_ok 0 s))) /\
  (forall ev, In ev (snd (checkAndSendNotifications Scenario.all_on Scenario.all_on
                           Scenario.all_ok Scenario.all_ok 0 s)) -> ev_deadline ev <> 30) /\
  In dc (deadlines (fst (checkOverdueDeadlines (fun _ => true) (fun _ => true)
                           Scenario.all_ok Scenario.all_ok 0 s))) /\
  (forall ev, In ev (snd (checkOverdueDeadlines (fun _ => true) (fun _ => true)
                           Scenario.all_ok Scenario.all_ok 0 s)) -> ev_deadline ev <> 30).
Proof.
  cbv zeta.
  apply (completed_deadline_untouched Scenario.all_on Scenario.all_on (fun _ => true) (fun _ => true)
           Scenario.all_ok Scenario.all_ok 0
           (set_deadlines Scenario.s_report [with_status "completed" Scenario.report])
           (with_status "completed" Scenario.report)).
  - vm_compute; constructor; [intro H; destruct H | constructor].
  - left; reflexivity.
  - reflexivity.
Defined.


